(** * mr.developer: the git working copy (src/mr/developer/git.py)

    A shallow embedding of [GitWorkingCopy].  The external [git] executable,
    the file system and the policy of the base class are an environment the
    code queries; the working copy itself is a record that every method
    threads through a small state-and-exception monad.

    Text is modelled as byte strings: [compat.b] and [compat.s] are the
    identity, [\d] is [0-9] and [\s] is the six ASCII white space bytes. *)

From Stdlib Require Import ZArith Ascii String List Lia Bool.
From stdpp Require Import base option gmap strings list pretty.

Open Scope string_scope.
Open Scope list_scope.

(** ** Byte strings *)

Module Py.

Definition nl : ascii := "010"%char.
Definition NL : string := String nl EmptyString.

(** The bytes removed by [strip()] and matched by [\s]. *)
Definition is_space (c : ascii) : bool :=
  match nat_of_ascii c with
  | 32%nat | 9%nat | 10%nat | 11%nat | 12%nat | 13%nat => true
  | _ => false
  end.

Definition is_digit (c : ascii) : bool :=
  (48 <=? nat_of_ascii c)%nat && (nat_of_ascii c <=? 57)%nat.

Definition is_quote (c : ascii) : bool :=
  Ascii.eqb c "'"%char || Ascii.eqb c "034"%char.

(** [.] without DOTALL: anything but a newline. *)
Definition is_dot (c : ascii) : bool := negb (Ascii.eqb c nl).

Fixpoint lstrip (s : string) : string :=
  match s with
  | String c s' => if is_space c then lstrip s' else s
  | EmptyString => EmptyString
  end.

Fixpoint rstrip (s : string) : string :=
  match s with
  | String c s' =>
      match rstrip s' with
      | EmptyString => if is_space c then EmptyString else String c EmptyString
      | t => String c t
      end
  | EmptyString => EmptyString
  end.

(** [s.strip()] *)
Definition strip (s : string) : string := rstrip (lstrip s).

(** [s.split(sep)] for a one-byte separator: never the empty list. *)
Fixpoint split_on (sep : ascii) (s : string) : list string :=
  match s with
  | EmptyString => [EmptyString]
  | String c s' =>
      if Ascii.eqb c sep then EmptyString :: split_on sep s'
      else match split_on sep s' with
           | w :: ws => String c w :: ws
           | [] => [String c EmptyString]
           end
  end.

(** [s.split()]: the maximal runs of bytes that are not white space. *)
Fixpoint split_ws_go (cur : option string) (s : string) : list string :=
  match s with
  | EmptyString => match cur with Some w => [w] | None => [] end
  | String c s' =>
      if is_space c
      then match cur with
           | Some w => w :: split_ws_go None s'
           | None => split_ws_go None s'
           end
      else split_ws_go (Some (match cur with
                              | Some w => w +:+ String c EmptyString
                              | None => String c EmptyString
                              end)) s'
  end.

Definition split_ws (s : string) : list string := split_ws_go None s.

(** [sub in s] on strings *)
Fixpoint contains (sub s : string) : bool :=
  String.prefix sub s ||
  match s with
  | String _ s' => contains sub s'
  | EmptyString => false
  end.

(** [x in l] on a list of strings *)
Definition mem (x : string) (l : list string) : bool :=
  bool_decide (x ∈ l).

(** every byte of [s] is in the class [p] *)
Fixpoint all_of (p : ascii -> bool) (s : string) : bool :=
  match s with
  | EmptyString => true
  | String c s' => p c && all_of p s'
  end.

(** a non-empty string of decimal digits *)
Definition is_number (s : string) : Prop :=
  s <> EmptyString /\ all_of is_digit s = true.

(** [s[1:]] *)
Definition tail (s : string) : string :=
  match s with String _ s' => s' | EmptyString => EmptyString end.

(** [int(s)] on the strings the code hands it; [None] is [ValueError]. *)
Fixpoint digits_val (acc : Z) (s : string) : option Z :=
  match s with
  | EmptyString => Some acc
  | String c s' =>
      if is_digit c
      then digits_val (10 * acc + (Z.of_nat (nat_of_ascii c) - 48)) s'
      else None
  end.

Definition int (s : string) : option Z :=
  match s with
  | EmptyString => None
  | _ => digits_val 0 s
  end.

(** [str(n)] *)
Definition str (n : Z) : string := pretty n.

(** tuple comparison [v < w] on tuples of integers *)
Fixpoint tuple_lt (v w : list Z) : bool :=
  match v, w with
  | _, [] => false
  | [], _ :: _ => true
  | x :: v', y :: w' =>
      if (x <? y)%Z then true
      else if (y <? x)%Z then false
      else tuple_lt v' w'
  end.

End Py.

(** ** Regular expressions

    The fragment of [re] the module uses: literals, one-byte classes, greedy
    [+] and lazy [*?] over a class, greedy [?], capturing groups, alternation
    and the anchors [^] and [$] under [re.M].  The matcher backtracks in the
    order [re] does: a greedy repetition tries the longest run first, a lazy
    one the shortest, an alternation its left branch. *)

Module Re.

Inductive regex : Type :=
| Lit (s : string)
| Cls (p : ascii -> bool)
| Plus (p : ascii -> bool)
| StarLazy (p : ascii -> bool)
| Opt (r : regex)
| Group (i : nat) (r : regex)
| Alt (r1 r2 : regex)
| Seq (r1 r2 : regex)
| Bol
| Eol.

(** group number -> captured text; a group that did not take part is absent *)
Definition captures := list (nat * string).

Definition group (cs : captures) (i : nat) : option string :=
  snd <$> List.find (fun c => Nat.eqb (fst c) i) cs.

(** the first [length s - length rest] bytes of [s] *)
Definition consumed (s rest : string) : string :=
  String.substring 0 (String.length s - String.length rest) s.

Section Matcher.
Context {T : Type}.

(** A position is the byte before it (if any) and the text after it. *)
Definition cont := option ascii -> string -> captures -> option T.

Fixpoint lit (l : string) (prev : option ascii) (s : string)
    (k : option ascii -> string -> option T) : option T :=
  match l with
  | EmptyString => k prev s
  | String a l' =>
      match s with
      | String c s' => if Ascii.eqb a c then lit l' (Some c) s' k else None
      | EmptyString => None
      end
  end.

Fixpoint greedy (p : ascii -> bool) (prev : option ascii) (s : string)
    (k : option ascii -> string -> option T) : option T :=
  match s with
  | String c s' =>
      if p c
      then match greedy p (Some c) s' k with
           | Some x => Some x
           | None => k prev s
           end
      else k prev s
  | EmptyString => k prev s
  end.

Fixpoint lazy (p : ascii -> bool) (prev : option ascii) (s : string)
    (k : option ascii -> string -> option T) : option T :=
  match k prev s with
  | Some x => Some x
  | None =>
      match s with
      | String c s' => if p c then lazy p (Some c) s' k else None
      | EmptyString => None
      end
  end.

Fixpoint rmatch (r : regex) (prev : option ascii) (s : string)
    (cs : captures) (k : cont) : option T :=
  match r with
  | Lit l => lit l prev s (fun pv rest => k pv rest cs)
  | Cls p =>
      match s with
      | String c s' => if p c then k (Some c) s' cs else None
      | EmptyString => None
      end
  | Plus p =>
      match s with
      | String c s' =>
          if p c then greedy p (Some c) s' (fun pv rest => k pv rest cs)
          else None
      | EmptyString => None
      end
  | StarLazy p => lazy p prev s (fun pv rest => k pv rest cs)
  | Opt r' =>
      match rmatch r' prev s cs k with
      | Some x => Some x
      | None => k prev s cs
      end
  | Group i r' =>
      rmatch r' prev s cs
        (fun pv rest cs' => k pv rest ((i, consumed s rest) :: cs'))
  | Alt r1 r2 =>
      match rmatch r1 prev s cs k with
      | Some x => Some x
      | None => rmatch r2 prev s cs k
      end
  | Seq r1 r2 =>
      rmatch r1 prev s cs (fun pv rest cs' => rmatch r2 pv rest cs' k)
  | Bol =>
      match prev with
      | None => k prev s cs
      | Some c => if Ascii.eqb c Py.nl then k prev s cs else None
      end
  | Eol =>
      match s with
      | EmptyString => k prev s cs
      | String c _ => if Ascii.eqb c Py.nl then k prev s cs else None
      end
  end.
End Matcher.

(** one attempt at a position: the text left after the match and the groups *)
Definition match_here (r : regex) (prev : option ascii) (s : string)
  : option (string * captures) :=
  rmatch r prev s [] (fun _ rest cs => Some (rest, cs)).

(** [re.search]: the leftmost position where the pattern matches *)
Fixpoint search_from (r : regex) (prev : option ascii) (s : string)
  : option captures :=
  match match_here r prev s with
  | Some (_, cs) => Some cs
  | None =>
      match s with
      | String c s' => search_from r (Some c) s'
      | EmptyString => None
      end
  end.

Definition search (r : regex) (s : string) : option captures :=
  search_from r None s.

(** [re.findall] for a pattern with one group: group 1 of every match, the
    matches taken left to right without overlap.  [skip] counts the bytes of
    the previous match still to step over. *)
Fixpoint findall_from (r : regex) (skip : nat) (prev : option ascii)
    (s : string) : list string :=
  match skip with
  | S n =>
      match s with
      | String c s' => findall_from r n (Some c) s'
      | EmptyString => []
      end
  | O =>
      match match_here r prev s with
      | Some (rest, cs) =>
          default EmptyString (group cs 1) ::
          match s with
          | String c s' =>
              findall_from r (String.length s - String.length rest - 1)
                (Some c) s'
          | EmptyString => []
          end
      | None =>
          match s with
          | String c s' => findall_from r 0 (Some c) s'
          | EmptyString => []
          end
      end
  end.

Definition findall (r : regex) (s : string) : list string :=
  findall_from r 0 None s.

End Re.


(** ** The world around the working copy *)

(** One [subprocess.Popen(commands, cwd=...)]: the full command line, the
    executable first, and the working directory when one is given. *)
Record Invocation := { argv : list string; cwd : option string }.

(** What [communicate()] and [returncode] give back. *)
Record ExecResult := { stdout : string; stderr : string; returncode : Z }.

(** The source descriptor, a dict: its string-valued entries and the
    list-valued entry ['preferred-branches']. *)
Record Source := {
  entries : gmap string string;
  preferred_branches : option (list string)
}.

(** The keyword arguments the operations read; [kw_rest] holds the others. *)
Record Kwargs := {
  kw_submodules : option string;
  kw_verbose : bool;
  kw_force : bool;
  kw_rest : gmap string string
}.

(** What the module asks of its surroundings.  [run] answers an invocation
    given the invocations made before it, [path_exists] is [os.path.exists]
    at that point of the history, [which_git] is [common.which('git')] and
    [should_update] is the base class's policy. *)
Record Env := {
  which_git : string;
  run : list Invocation -> Invocation -> ExecResult;
  path_exists : list Invocation -> string -> bool;
  should_update : Source -> Kwargs -> bool
}.

Inductive level := INFO | WARNING | ERROR.

(** A logging call: level, message and the arguments left to [%]-format. *)
Record LogLine := { lvl : level; msg : string; margs : list string }.

Inductive exn :=
| GitError (m : string)
| ValueError (m : string)
| KeyError (key : string)
| NameError (name : string)
| TypeError
| IndexError
| SystemExit (code : Z).

Inductive outcome (A : Type) :=
| Ret (a : A)
| Raise (e : exn).
Arguments Ret {A} a.
Arguments Raise {A} e.

(** The instance and what it has done so far: [logged] are the [logger]
    calls, [_output] the lines queued through [self.output], [spawned] the
    processes run. *)
Record WC := {
  source : Source;
  git_executable : string;
  _git_stdout : list string;
  _memoize_git_version : option (list Z);
  _output : list LogLine;
  logged : list LogLine;
  spawned : list Invocation
}.

Definition with_source (f : Source -> Source) (w : WC) : WC :=
  {| source := f (source w); git_executable := git_executable w;
     _git_stdout := _git_stdout w;
     _memoize_git_version := _memoize_git_version w;
     _output := _output w; logged := logged w; spawned := spawned w |}.

Definition with_git_executable (x : string) (w : WC) : WC :=
  {| source := source w; git_executable := x;
     _git_stdout := _git_stdout w;
     _memoize_git_version := _memoize_git_version w;
     _output := _output w; logged := logged w; spawned := spawned w |}.

Definition with_git_stdout (f : list string -> list string) (w : WC) : WC :=
  {| source := source w; git_executable := git_executable w;
     _git_stdout := f (_git_stdout w);
     _memoize_git_version := _memoize_git_version w;
     _output := _output w; logged := logged w; spawned := spawned w |}.

Definition with_memo (v : option (list Z)) (w : WC) : WC :=
  {| source := source w; git_executable := git_executable w;
     _git_stdout := _git_stdout w;
     _memoize_git_version := v;
     _output := _output w; logged := logged w; spawned := spawned w |}.

Definition with_output (l : LogLine) (w : WC) : WC :=
  {| source := source w; git_executable := git_executable w;
     _git_stdout := _git_stdout w;
     _memoize_git_version := _memoize_git_version w;
     _output := _output w ++ [l]; logged := logged w; spawned := spawned w |}.

Definition with_logged (l : LogLine) (w : WC) : WC :=
  {| source := source w; git_executable := git_executable w;
     _git_stdout := _git_stdout w;
     _memoize_git_version := _memoize_git_version w;
     _output := _output w; logged := logged w ++ [l]; spawned := spawned w |}.

Definition with_spawned (i : Invocation) (w : WC) : WC :=
  {| source := source w; git_executable := git_executable w;
     _git_stdout := _git_stdout w;
     _memoize_git_version := _memoize_git_version w;
     _output := _output w; logged := logged w; spawned := spawned w ++ [i] |}.

Definition set_entry (k v : string) (s : Source) : Source :=
  {| entries := <[k := v]> (entries s);
     preferred_branches := preferred_branches s |}.

Definition del_entry (k : string) (s : Source) : Source :=
  {| entries := delete k (entries s);
     preferred_branches := preferred_branches s |}.

(** ** The monad of methods *)

Definition M (A : Type) : Type := WC -> outcome A * WC.

Definition ret {A} (a : A) : M A := fun w => (Ret a, w).

Definition bind {A B} (m : M A) (f : A -> M B) : M B :=
  fun w =>
    match m w with
    | (Ret a, w') => f a w'
    | (Raise e, w') => (Raise e, w')
    end.

Definition raise {A} (e : exn) : M A := fun w => (Raise e, w).

(** [try: body except <catches>: handler] *)
Definition try_except {A} (body : M A) (catches : exn -> bool)
    (handler : exn -> M A) : M A :=
  fun w =>
    match body w with
    | (Ret a, w') => (Ret a, w')
    | (Raise e, w') => if catches e then handler e w' else (Raise e, w')
    end.

Definition gets {A} (f : WC -> A) : M A := fun w => (Ret (f w), w).
Definition modify (f : WC -> WC) : M unit := fun w => (Ret tt, f w).

Declare Scope wc_scope.
Delimit Scope wc_scope with wc.
Notation "x <- c1 ;; c2" := (bind c1 (fun x => c2))
  (at level 100, c1 at next level, right associativity) : wc_scope.
Notation "c1 ;; c2" := (bind c1 (fun _ => c2))
  (at level 100, right associativity) : wc_scope.
Open Scope wc_scope.

Definition when (b : bool) (m : M unit) : M unit := if b then m else ret tt.

(** [for x in l: body x] *)
Fixpoint for_each {A} (l : list A) (body : A -> M unit) : M unit :=
  match l with
  | [] => ret tt
  | x :: l' => body x ;; for_each l' body
  end.

Definition is_GitError (e : exn) : bool :=
  match e with GitError _ => true | _ => false end.

(** a bare [except:] *)
Definition any_exn (e : exn) : bool := true.

(** [sys.exit(code)] *)
Definition sys_exit {A} (code : Z) : M A := raise (SystemExit code).

(** [self.source[k]] *)
Definition getitem (k : string) : M string :=
  fun w =>
    match entries (source w) !! k with
    | Some v => (Ret v, w)
    | None => (Raise (KeyError k), w)
    end.

(** [self.source.get(k)] *)
Definition source_get (k : string) : M (option string) :=
  gets (fun w => entries (source w) !! k).

(** [k in self.source] *)
Definition source_has (k : string) : M bool :=
  gets (fun w => bool_decide (is_Some (entries (source w) !! k))).

(** [self.source[k] = v] *)
Definition setitem (k v : string) : M unit := modify (with_source (set_entry k v)).

(** [del self.source[k]] *)
Definition delitem (k : string) : M unit :=
  fun w =>
    match entries (source w) !! k with
    | Some _ => (Ret tt, with_source (del_entry k) w)
    | None => (Raise (KeyError k), w)
    end.

(** [l[i]] *)
Definition index (l : list string) (i : nat) : M string :=
  match l !! i with
  | Some x => ret x
  | None => raise IndexError
  end.

Definition logger (l : level) (m : string) (args : list string) : M unit :=
  modify (with_logged {| lvl := l; msg := m; margs := args |}).

(** Modelled from the spec: [BaseWorkingCopy.output] is not part of the
    source; it queues a log line for the caller to emit later. *)
Definition output (l : level) (m : string) (args : list string) : M unit :=
  modify (with_output {| lvl := l; msg := m; margs := args |}).

(** [int(x)] *)
Definition int (s : string) : M Z :=
  match Py.int s with
  | Some z => ret z
  | None => raise (ValueError s)
  end.

(** [int(x)] where [x] may be [None] *)
Definition int_of (x : option string) : M Z :=
  match x with
  | Some s => int s
  | None => raise TypeError
  end.

(** [x[1:]] where [x] may be [None] *)
Definition tail_of (x : option string) : M string :=
  match x with
  | Some s => ret (Py.tail s)
  | None => raise TypeError
  end.

Definition _upstream_name : string := "origin".

(** ** The patterns *)

(** [\.\d+] *)
Definition dot_number : Re.regex := Re.Seq (Re.Lit ".") (Re.Plus Py.is_digit).

(** [git version (\d+)\.(\d+)(\.\d+)?(\.\d+)?] *)
Definition version_re : Re.regex :=
  Re.Seq (Re.Lit "git version ")
   (Re.Seq (Re.Group 1 (Re.Plus Py.is_digit))
    (Re.Seq (Re.Lit ".")
     (Re.Seq (Re.Group 2 (Re.Plus Py.is_digit))
      (Re.Seq (Re.Opt (Re.Group 3 dot_number))
              (Re.Opt (Re.Group 4 dot_number)))))).

(** [^(\*| ) %s$ % re.escape(branch)] *)
Definition local_branch_re (branch : string) : Re.regex :=
  Re.Seq Re.Bol
   (Re.Seq (Re.Group 1 (Re.Alt (Re.Lit "*") (Re.Lit " ")))
    (Re.Seq (Re.Lit (" " +:+ branch)) Re.Eol)).

(** ["^  " + re.escape(prefix) + "\/" + re.escape(branch) + "$"] *)
Definition remote_branch_re (prefix branch : string) : Re.regex :=
  Re.Seq Re.Bol
   (Re.Seq (Re.Lit ("  " +:+ prefix +:+ "/" +:+ branch)) Re.Eol).

(** [\s+['"](.*?)['"]\s+\(.+\)] *)
Definition submodule_re : Re.regex :=
  Re.Seq (Re.Plus Py.is_space)
   (Re.Seq (Re.Cls Py.is_quote)
    (Re.Seq (Re.Group 1 (Re.StarLazy Py.is_dot))
     (Re.Seq (Re.Cls Py.is_quote)
      (Re.Seq (Re.Plus Py.is_space)
       (Re.Seq (Re.Lit "(")
        (Re.Seq (Re.Plus Py.is_dot) (Re.Lit ")"))))))).

(** ** GitWorkingCopy *)

Section GitWorkingCopy.
Variable E : Env.

(** Modelled from the spec: [BaseWorkingCopy.__init__] is not part of the
    source; it binds the caller's descriptor, which the store already holds,
    to the instance. *)
Definition BaseWorkingCopy__init__ : M unit := ret tt.

Definition __init__ : M unit :=
  modify (with_git_executable (which_git E)) ;;
  has_rev <- source_has "rev" ;;
  has_revision <- source_has "revision" ;;
  (if has_rev && has_revision
   then name <- getitem "name" ;;
        raise (ValueError ("The source definition of '" +:+ name +:+
                           "' contains duplicate revision options."))
   else ret tt) ;;
  has_revision <- source_has "revision" ;;
  when has_revision
    (revision <- getitem "revision" ;;
     setitem "rev" revision ;;
     delitem "revision") ;;
  has_branch <- source_has "branch" ;;
  has_rev <- source_has "rev" ;;
  (if has_branch && has_rev
   then branch <- getitem "branch" ;;
        rev <- getitem "rev" ;;
        name <- getitem "name" ;;
        logger ERROR
          "Cannot specify both branch (%s) and rev/revision (%s) in source for %s"
          [branch; rev; name] ;;
        sys_exit 1
   else ret tt) ;;
  modify (with_git_stdout (fun _ => [])) ;;
  BaseWorkingCopy__init__.

(** [subprocess.Popen] is taken to start the process and [communicate] to
    give its result: the [OSError] that [Popen] raises when the executable
    or the working directory is missing is outside the model, and what is
    proved below is about runs in which every process could be started. *)
Definition git_run (commands : list string) (dir : option string) : M string :=
  exe <- gets git_executable ;;
  let commands := exe :: commands in
  let inv := {| argv := commands; cwd := dir |} in
  history <- gets spawned ;;
  let cmd := run E history inv in
  modify (with_spawned inv) ;;
  modify (with_git_stdout (fun l => l ++ [stdout cmd])) ;;
  if negb (returncode cmd =? 0)%Z
  then raise (GitError ("'" +:+ String.concat " " commands +:+ "'" +:+ Py.NL
                        +:+ stdout cmd +:+ Py.NL +:+ stderr cmd))
  else ret (stdout cmd).

Definition git_output : M string :=
  l <- gets _git_stdout ;; ret (String.concat "" l).

(** Modelled from the spec: [common.memoize] is not part of the source; the
    version is computed once and kept for the lifetime of the instance. *)
Definition memoize (f : M (list Z)) : M (list Z) :=
  cache <- gets _memoize_git_version ;;
  match cache with
  | Some v => ret v
  | None => v <- f ;; modify (with_memo (Some v)) ;; ret v
  end.

Definition git_version : M (list Z) :=
  memoize
    (output <- try_except (git_run ["--version"] None) is_GitError
                 (fun error =>
                    logger ERROR "Could not determine git version" [] ;;
                    logger ERROR
                      (match error with GitError m => m | _ => "" end) [] ;;
                    sys_exit 1) ;;
     match Re.search version_re output with
     | None =>
         logger ERROR "Unable to parse git version output" [] ;;
         logger ERROR ("'git --version' output was:" +:+ Py.NL +:+ output) [] ;;
         sys_exit 1
     | Some m =>
         let version := (Re.group m 1, Re.group m 2, Re.group m 3, Re.group m 4) in
         version <-
           match version with
           | (v0, v1, v2, Some v3) =>
               a <- int_of v0 ;;
               b <- int_of v1 ;;
               c <- (t <- tail_of v2 ;; int t) ;;
               d <- int (Py.tail v3) ;;
               ret [a; b; c; d]
           | (v0, v1, Some v2, None) =>
               a <- int_of v0 ;;
               b <- int_of v1 ;;
               c <- int (Py.tail v2) ;;
               ret [a; b; c]
           | (v0, v1, None, None) =>
               a <- int_of v0 ;;
               b <- int_of v1 ;;
               ret [a; b]
           end ;;
         if Py.tuple_lt version [1; 5]%Z
         then logger ERROR "Git version %s is unsupported, please upgrade"
                [String.concat "." (Py.str <$> version)] ;;
              sys_exit 1
         else ret version
     end).

Definition _remote_branch_prefix : M string :=
  version <- git_version ;;
  if Py.tuple_lt version [1; 6; 3]%Z
  then ret _upstream_name
  else ret ("remotes/" +:+ _upstream_name).

Definition git_current_branch (dir : option string) : M (option string) :=
  try_except
    (output <- git_run ["symbolic-ref"; "--short"; "HEAD"] dir ;;
     ret (Some (Py.strip output)))
    is_GitError
    (fun _ => ret None).

Definition git_branch_status (branch : string) : M (bool * bool) :=
  path <- getitem "path" ;;
  output <- git_run ["branch"; "-a"] (Some path) ;;
  let is_local :=
    bool_decide (is_Some (Re.search (local_branch_re branch) output)) in
  prefix <- _remote_branch_prefix ;;
  let is_remote :=
    bool_decide (is_Some (Re.search (remote_branch_re prefix branch) output)) in
  ret (is_local, is_remote).

Definition auto_select_branch : M unit :=
  desired <- source_get "branch" ;;
  preferred <- gets (fun w => preferred_branches (source w)) ;;
  match desired, preferred with
  | None, Some preferred =>
      current <- git_current_branch None ;;
      match current with
      | None => ret tt
      | Some current =>
          current <- (if negb (Py.mem current preferred)
                         && negb (length preferred =? 0)%nat
                      then index preferred 0
                      else ret current) ;;
          output INFO ("Auto-selecting branch " +:+ current) [] ;;
          setitem "branch" current
      end
  | _, _ => ret tt
  end.

Definition git_merge_rbranch (accept_missing : bool) : M unit :=
  branch <- (b <- source_get "branch" ;; ret (default "master" b)) ;;
  st <- git_branch_status branch ;;
  let is_local := fst st in
  let is_remote := snd st in
  if negb is_local || negb is_remote
  then if accept_missing
       then logger INFO "No such branch %r" [branch]
       else logger ERROR "No such branch %r" [branch] ;;
            sys_exit 1
  else
    prefix <- _remote_branch_prefix ;;
    path <- getitem "path" ;;
    git_run ["merge"; prefix +:+ "/" +:+ branch] (Some path) ;;
    ret tt.

Definition git_switch_branch (accept_missing : bool) : M unit :=
  path <- getitem "path" ;;
  branch <- (b <- source_get "branch" ;; ret (default "master" b)) ;;
  st <- git_branch_status branch ;;
  let is_local := fst st in
  let is_remote := snd st in
  rev <- source_get "rev" ;;
  argv <-
    match rev with
    | Some rev =>
        output INFO ("Switching to rev '" +:+ rev +:+ "'.") [] ;;
        ret (Some ["checkout"; rev])
    | None =>
        if is_local then
          output INFO ("Switching to branch '" +:+ branch +:+ "'.") [] ;;
          ret (Some ["checkout"; branch])
        else if is_remote then
          prefix <- _remote_branch_prefix ;;
          let rbranch := prefix +:+ "/" +:+ branch in
          output INFO ("Switching to remote branch '" +:+ rbranch +:+ "'.") [] ;;
          ret (Some ["checkout"; "-b"; branch; rbranch])
        else if accept_missing then
          output INFO "No such branch %r" [branch] ;;
          ret None
        else raise (GitError ("No such branch " +:+ branch))
    end ;;
  match argv with
  | Some argv => git_run argv (Some path) ;; ret tt
  | None => ret tt
  end.

Definition git_set_pushurl : M unit :=
  pushurl <- getitem "pushurl" ;;
  path <- getitem "path" ;;
  git_run ["config"; "remote." +:+ _upstream_name +:+ ".pushurl"; pushurl]
    (Some path) ;;
  ret tt.

Definition git_init_submodules : M (list string) :=
  path <- getitem "path" ;;
  output <- git_run ["submodule"; "init"] (Some path) ;;
  ret (Re.findall submodule_re output).

(** The last line of the method reads [arv], a name bound nowhere. *)
Definition git_update_submodules (submodule : string) : M unit :=
  let argv := ["submodule"; "update"] in
  let argv := if negb (String.eqb submodule "all")
              then argv ++ [submodule] else argv in
  raise (NameError "arv").

(** [self.source.get('submodules', kwargs['submodules'])] *)
Definition submodules_policy (kwargs : Kwargs) : M string :=
  match kw_submodules kwargs with
  | None => raise (KeyError "submodules")
  | Some dflt => s <- source_get "submodules" ;; ret (default dflt s)
  end.

(** the loop over the submodules [git submodule init] has just registered *)
Definition sync_submodules (name : string) : M unit :=
  initialized <- git_init_submodules ;;
  for_each initialized
    (fun submodule =>
       git_update_submodules submodule ;;
       output INFO ("Initialized '" +:+ name +:+ "' submodule at '"
                    +:+ submodule +:+ "' with git.") []).

(** [if kwargs.get('verbose', False): return self.git_output()] *)
Definition verbose_result (kwargs : Kwargs) : M (option string) :=
  if kw_verbose kwargs then o <- git_output ;; ret (Some o) else ret None.

Definition git_checkout (kwargs : Kwargs) : M (option string) :=
  name <- getitem "name" ;;
  path <- getitem "path" ;;
  url <- getitem "url" ;;
  history <- gets spawned ;;
  if path_exists E history path
  then output INFO ("Skipped cloning of existing package '" +:+ name +:+ "'.") [] ;;
       ret None
  else
    branch <- source_get "branch" ;;
    let msg := "Cloned '" +:+ name +:+ "' with git" in
    let msg := match branch with
               | Some b => msg +:+ " using branch '" +:+ b +:+ "'"
               | None => msg
               end in
    let msg := msg +:+ " from '" +:+ url +:+ "'." in
    output INFO msg [] ;;
    let args := ["clone"; "--quiet"] in
    depth <- source_get "depth" ;;
    let args := match depth with
                | Some d => args ++ ["--depth"; d]
                | None => args
                end in
    let args := match branch with
                | Some b => args ++ ["-b"; b]
                | None => args
                end in
    let args := args ++ [url; path] in
    git_run args None ;;
    has_rev <- source_has "rev" ;;
    when has_rev (git_switch_branch false) ;;
    has_pushurl <- source_has "pushurl" ;;
    when has_pushurl git_set_pushurl ;;
    update_git_submodules <- submodules_policy kwargs ;;
    when (Py.mem update_git_submodules ["always"; "checkout"])
      (sync_submodules name) ;;
    verbose_result kwargs.

Definition git_update (kwargs : Kwargs) : M (option string) :=
  name <- getitem "name" ;;
  path <- getitem "path" ;;
  output INFO ("Updated '" +:+ name +:+ "' with git.") [] ;;
  git_run ["fetch"; "--prune"] (Some path) ;;
  has_rev <- source_has "rev" ;;
  has_branch <- source_has "branch" ;;
  (if has_rev then git_switch_branch false
   else if has_branch then git_switch_branch false ;; git_merge_rbranch false
   else git_switch_branch true ;; git_merge_rbranch true) ;;
  update_git_submodules <- submodules_policy kwargs ;;
  when (Py.mem update_git_submodules ["always"])
    (sync_submodules name) ;;
  verbose_result kwargs.

Definition status (kwargs : Kwargs) : M (string * option string) :=
  path <- getitem "path" ;;
  output <- git_run ["status"; "-s"; "-b"] (Some path) ;;
  let lines := Py.split_on Py.nl (Py.strip output) in
  let status :=
    if (length lines =? 1)%nat
    then if Py.contains "ahead" (default "" (lines !! 0%nat))
         then "ahead" else "clean"
    else "dirty" in
  if kw_verbose kwargs
  then o <- git_output ;; ret (status, Some o)
  else ret (status, None).

Definition matches : M bool :=
  name <- getitem "name" ;;
  path <- getitem "path" ;;
  output <- git_run ["remote"; "show"; "-n"; _upstream_name] (Some path) ;;
  url <- getitem "url" ;;
  ret (Py.mem url (Py.split_ws output)).

(** [self.status()]: no keyword arguments *)
Definition no_kwargs : Kwargs :=
  {| kw_submodules := None; kw_verbose := false; kw_force := false;
     kw_rest := ∅ |}.

Definition update (kwargs : Kwargs) : M (option string) :=
  name <- getitem "name" ;;
  m <- matches ;;
  when (negb m)
    (output WARNING ("Can't update package '" +:+ name +:+
                     "' because its URL doesn't match.") []) ;;
  st <- status no_kwargs ;;
  (if negb (String.eqb (fst st) "clean") && negb (kw_force kwargs)
   then raise (GitError ("Can't update package '" +:+ name +:+
                         "' because it's dirty."))
   else ret tt) ;;
  auto_select_branch ;;
  git_update kwargs.

Definition checkout (kwargs : Kwargs) : M (option string) :=
  name <- getitem "name" ;;
  path <- getitem "path" ;;
  auto_select_branch ;;
  upd <- gets (fun w => should_update E (source w) kwargs) ;;
  history <- gets spawned ;;
  if path_exists E history path
  then if upd then update kwargs
       else
         m <- matches ;;
         if m
         then output INFO ("Skipped checkout of existing package '" +:+ name
                           +:+ "'.") [] ;;
              ret None
         else url <- getitem "url" ;;
              output WARNING ("Checkout URL for existing package '" +:+ name
                              +:+ "' differs. Expected '" +:+ url +:+ "'.") [] ;;
              ret None
  else git_checkout kwargs.

Definition new_feature (kwargs : Kwargs) : M bool :=
  current <- git_current_branch None ;;
  preferred <- gets (fun w => preferred_branches (source w)) ;;
  match current, preferred with
  | Some current, Some preferred =>
      if Py.mem current preferred
      then logger ERROR "You are not on a feature branch." [] ;; ret false
      else if (length preferred =? 0)%nat
      then logger ERROR "Did you already setup your branch?" [] ;; ret false
      else
        name <- getitem "name" ;;
        path <- getitem "path" ;;
        history <- gets spawned ;;
        (if path_exists E history path
         then git_run ["fetch"; "--prune"] (Some path) ;; ret tt
         else git_checkout kwargs ;; ret tt) ;;
        st <- git_branch_status current ;;
        let is_local := fst st in
        let is_remote := snd st in
        when (negb is_local)
          (try_except
             (prefix <- _remote_branch_prefix ;;
              p0 <- index preferred 0 ;;
              git_run ["branch"; current; prefix +:+ "/" +:+ p0] (Some path) ;;
              logger INFO ("Created branch '" +:+ current +:+ "' for '" +:+
                           name +:+ "'.") [])
             any_exn
             (fun e =>
                logger ERROR ("Could not create branch '" +:+ current +:+
                              "' for '" +:+ name +:+ "'.") [] ;;
                raise e)) ;;
        now <- git_current_branch (Some path) ;;
        switched <-
          (if negb (bool_decide (Some current = now))
           then try_except
                  (git_run ["checkout"; current] (Some path) ;; ret true)
                  is_GitError
                  (fun _ =>
                     logger ERROR ("Could not checkout branch '" +:+ current
                                   +:+ "' for '" +:+ name +:+ "'.") [] ;;
                     ret false)
           else ret true) ;;
        if negb switched then ret false
        else if negb is_remote
        then pushed <-
               try_except
                 (git_run ["push"; "--set-upstream"; _upstream_name; current]
                    (Some path) ;; ret true)
                 is_GitError
                 (fun _ =>
                    logger ERROR ("Could not push branch '" +:+ current +:+
                                  "' for '" +:+ name +:+ "'.") [] ;;
                    ret false) ;;
             if negb pushed then ret false
             else logger INFO ("Push branch '" +:+ current +:+ "' for '" +:+
                               name +:+ "'.") [] ;;
                  ret true
        else ret true
  | _, _ => logger ERROR "You are not on a feature branch." [] ;; ret false
  end.

End GitWorkingCopy.

(** ** Observations on a run *)

(** the label [status] returns, when it returns *)
Definition label (r : outcome (string * option string) * WC) : option string :=
  match fst r with
  | Ret (s, _) => Some s
  | Raise _ => None
  end.

(** the invocations a run added to the history *)
Definition issued {A} (w : WC) (r : outcome A * WC) : list Invocation :=
  drop (length (spawned w)) (spawned (snd r)).

(** [git <args>] run in [dir] *)
Definition git_in (w : WC) (args : list string) (dir : option string) : Invocation :=
  {| argv := git_executable w :: args; cwd := dir |}.

(** the working copy right after a process has run *)
Definition ran (i : Invocation) (out : string) (w : WC) : WC :=
  with_git_stdout (fun l => l ++ [out]) (with_spawned i w).

(** the descriptor after the constructor has renamed ['revision'] to ['rev'] *)
Definition renamed (v : string) (w : WC) : WC :=
  with_source (del_entry "revision") (with_source (set_entry "rev" v) w).

(** a method that only adds to the history of processes *)
Definition appends {A} (m : M A) : Prop :=
  forall w, exists more, spawned (snd (m w)) = spawned w ++ more.

(** a run that ends the process *)
Definition exits {A} (r : outcome A * WC) : Prop :=
  exists code, fst r = Raise (SystemExit code).

(** the groups a match of [version_re] can leave behind *)
Inductive version_groups : Re.captures -> Prop :=
| groups2 d1 d2 :
    Py.is_number d1 -> Py.is_number d2 ->
    version_groups [(2%nat, d2); (1%nat, d1)]
| groups3 d1 d2 d3 :
    Py.is_number d1 -> Py.is_number d2 -> Py.is_number d3 ->
    version_groups [(3%nat, "." +:+ d3); (2%nat, d2); (1%nat, d1)]
| groups4 d1 d2 d3 d4 :
    Py.is_number d1 -> Py.is_number d2 -> Py.is_number d3 -> Py.is_number d4 ->
    version_groups [(4%nat, "." +:+ d4); (3%nat, "." +:+ d3); (2%nat, d2);
                    (1%nat, d1)].

(** ** What is logged before the process is ended *)

(** by the constructor, on a branch together with a rev *)
Definition conflict_line (branch rev name : string) : LogLine :=
  {| lvl := ERROR;
     msg := "Cannot specify both branch (%s) and rev/revision (%s) in source for %s";
     margs := [branch; rev; name] |}.

(** by [git_version], on a version below 1.5 *)
Definition unsupported_line (v : list Z) : LogLine :=
  {| lvl := ERROR; msg := "Git version %s is unsupported, please upgrade";
     margs := [String.concat "." (Py.str <$> v)] |}.

(** by [git_version], on an output the pattern does not match *)
Definition unparsable_lines (out : string) : list LogLine :=
  [ {| lvl := ERROR; msg := "Unable to parse git version output"; margs := [] |};
    {| lvl := ERROR; msg := "'git --version' output was:" +:+ Py.NL +:+ out;
       margs := [] |} ].

(** by [git_version], when [git --version] fails with the message [m] *)
Definition undetermined_lines (m : string) : list LogLine :=
  [ {| lvl := ERROR; msg := "Could not determine git version"; margs := [] |};
    {| lvl := ERROR; msg := m; margs := [] |} ].

(** by [git_merge_rbranch], on a branch that is not both local and remote *)
Definition no_such_branch_line (branch : string) : LogLine :=
  {| lvl := ERROR; msg := "No such branch %r"; margs := [branch] |}.

(** the log ends with the given lines *)
Definition ends_with (last : list LogLine) (l : list LogLine) : Prop :=
  exists l0, l = l0 ++ last.

Definition version_failure (l : list LogLine) : Prop :=
  (exists m, ends_with (undetermined_lines m) l) \/
  (exists out, ends_with (unparsable_lines out) l) \/
  (exists v, ends_with [unsupported_line v] l).

Definition rev_branch_conflict (l : list LogLine) : Prop :=
  exists b r n, ends_with [conflict_line b r n] l.

(** the process is ended, if at all, with status 1 and for one of the two
    reasons the specification gives *)
Definition exit_as_specified {A} (r : outcome A * WC) : Prop :=
  forall code,
    fst r = Raise (SystemExit code) ->
    code = 1%Z /\
    (version_failure (logged (snd r)) \/ rev_branch_conflict (logged (snd r))).

(** ** Scenarios *)

(** a process that exits with status 0 *)
Definition ok (out : string) : ExecResult :=
  {| stdout := out; stderr := ""; returncode := 0 |}.

(** a process that exits with a non-zero status *)
Definition failed (err : string) : ExecResult :=
  {| stdout := ""; stderr := err; returncode := 1 |}.

(** a descriptor from its entries *)
Definition descriptor (kvs : list (string * string))
    (preferred : option (list string)) : Source :=
  {| entries := list_to_map kvs; preferred_branches := preferred |}.

(** the descriptor of the package [pkg] at [/tmp/pkg] with further entries *)
Definition pkg (more : list (string * string))
    (preferred : option (list string)) : Source :=
  descriptor (("name", "pkg") :: ("path", "/tmp/pkg")
              :: ("url", "https://example/repo.git") :: more) preferred.

(** an instance that has run nothing yet *)
Definition instance (s : Source) : WC :=
  {| source := s; git_executable := "git"; _git_stdout := [];
     _memoize_git_version := None; _output := []; logged := [];
     spawned := [] |}.

(** the keyword arguments of a plain call: submodules policy "never" *)
Definition plain : Kwargs :=
  {| kw_submodules := Some "never"; kw_verbose := false; kw_force := false;
     kw_rest := ∅ |}.

(** an environment that answers by the arguments after the executable and
    by the working directory; the path is there or not throughout *)
Definition scripted (answer : list string -> option string -> ExecResult)
    (present upd : bool) : Env :=
  {| which_git := "git";
     run := fun _ inv => answer (List.tl (argv inv)) (cwd inv);
     path_exists := fun _ _ => present;
     should_update := fun _ _ => upd |}.

Definition args_are (args expected : list string) : bool :=
  bool_decide (args = expected).

(** every process succeeds silently, the path is not there *)
Definition quiet : Env := scripted (fun _ _ => ok "") false false.

(** the working tree has a modified file *)
Definition dirty_out : string := "## master" +:+ Py.NL +:+ " M setup.py".

Definition dirty_env : Env :=
  scripted (fun args _ =>
              if args_are args ["status"; "-s"; "-b"] then ok dirty_out
              else if args_are args ["--version"] then ok "git version 2.30.1"
              else ok "")
    true false.

(** the branch [dev] exists locally and not on the remote *)
Definition local_only_env : Env :=
  scripted (fun args _ =>
              if args_are args ["--version"] then ok "git version 2.30.1"
              else if args_are args ["status"; "-s"; "-b"] then ok "## dev"
              else if args_are args ["branch"; "-a"] then ok ("* dev" +:+ Py.NL)
              else ok "")
    true false.

(** [git submodule init] registers two submodules *)
Definition two_submodules_out : string :=
  "Submodule 'a' (https://x/a.git) registered for path 'a'" +:+ Py.NL +:+
  "Submodule 'b' (https://x/b.git) registered for path 'b'" +:+ Py.NL.

Definition two_submodules : Env :=
  scripted (fun args _ =>
              if args_are args ["submodule"; "init"]
              then ok two_submodules_out else ok "")
    false false.

(** the process runs on the branch [feature-x], which exists nowhere yet,
    the checkout at the path is on [main]; the step given by [failing]
    fails, every other process succeeds *)
Definition feature_answers (branches : string) (failing : list string)
    (args : list string) (dir : option string) : ExecResult :=
  if args_are args failing then failed "fatal"
  else if args_are args ["--version"] then ok "git version 2.30.1"
  else if args_are args ["symbolic-ref"; "--short"; "HEAD"]
       then match dir with
            | None => ok ("feature-x" +:+ Py.NL)
            | Some _ => ok ("main" +:+ Py.NL)
            end
  else if args_are args ["branch"; "-a"] then ok branches
  else ok "".

Definition only_main : string :=
  "* main" +:+ Py.NL +:+ "  remotes/origin/main" +:+ Py.NL.

Definition feature_env (failing : list string) : Env :=
  scripted (feature_answers only_main failing) true false.

(** every process fails *)
Definition broken : Env := scripted (fun _ _ => failed "boom") true false.

(** [git --version] answers 2.30.1, every other process succeeds silently *)
Definition modern : Env :=
  scripted (fun args _ =>
              if args_are args ["--version"] then ok "git version 2.30.1"
              else ok "")
    true false.

(** the line an error is logged as *)
Definition error_line (m : string) : LogLine :=
  {| lvl := ERROR; msg := m; margs := [] |}.

(** the arguments of the clone [git_checkout] runs *)
Definition clone_args (depth branch : option string) (url path : string)
  : list string :=
  ["clone"; "--quiet"]
  ++ match depth with Some d => ["--depth"; d] | None => [] end
  ++ match branch with Some b => ["-b"; b] | None => [] end
  ++ [url; path].

(** the line [git_checkout] queues before it clones *)
Definition cloned_line (name url : string) (branch : option string) : LogLine :=
  {| lvl := INFO;
     msg := (match branch with
             | Some b => ("Cloned '" +:+ name +:+ "' with git")
                         +:+ " using branch '" +:+ b +:+ "'"
             | None => "Cloned '" +:+ name +:+ "' with git"
             end) +:+ " from '" +:+ url +:+ "'.";
     margs := [] |}.

(** the keyword arguments of a call that passes no [submodules] *)
Definition bare : Kwargs :=
  {| kw_submodules := None; kw_verbose := false; kw_force := false;
     kw_rest := ∅ |}.

(** the label [status] gives an output of [git status -s -b] *)
Definition label_of (out : string) : string :=
  let lines := Py.split_on Py.nl (Py.strip out) in
  if (length lines =? 1)%nat
  then if Py.contains "ahead" (default "" (lines !! 0%nat))
       then "ahead" else "clean"
  else "dirty".

(** the branch is one commit ahead of its remote *)
Definition ahead_env : Env :=
  scripted (fun args _ =>
              if args_are args ["status"; "-s"; "-b"]
              then ok "## master...origin/master [ahead 1]"
              else if args_are args ["--version"] then ok "git version 2.30.1"
              else ok "")
    true false.

(** ** The effects of a method *)

(** the git subcommand of an invocation: the argument after the executable *)
Definition subcommand (i : Invocation) : string := default "" (argv i !! 1%nat).

(** the outputs of the processes of a history, each answered by the
    environment after the processes before it *)
Fixpoint transcript_from (E : Env) (done todo : list Invocation) : list string :=
  match todo with
  | [] => []
  | i :: rest => stdout (run E done i) :: transcript_from E (done ++ [i]) rest
  end.

Definition transcript (E : Env) (h : list Invocation) : list string :=
  transcript_from E [] h.

(** [_git_stdout] holds the output of every process run, in order *)
Definition faithful (E : Env) (w : WC) : Prop :=
  _git_stdout w = transcript E (spawned w).

(** the class of an exception *)
Definition kind (e : exn) : string :=
  match e with
  | GitError _ => "GitError"
  | ValueError _ => "ValueError"
  | KeyError _ => "KeyError"
  | NameError _ => "NameError"
  | TypeError => "TypeError"
  | IndexError => "IndexError"
  | SystemExit _ => "SystemExit"
  end.

Definition all_kinds : list string :=
  ["GitError"; "ValueError"; "KeyError"; "NameError"; "TypeError";
   "IndexError"; "SystemExit"].

(** from [w] to [w']: only subcommands in [cmds] were run, only the entries
    in [keys] of the descriptor were written, the executable and the list of
    preferred branches are the same, and the transcript stayed faithful *)
Record effect (E : Env) (cmds keys : list string) (w w' : WC) : Prop := {
  eff_runs : exists more, spawned w' = spawned w ++ more /\
                          Forall (fun i => subcommand i ∈ cmds) more;
  eff_exe : git_executable w' = git_executable w;
  eff_preferred : preferred_branches (source w') = preferred_branches (source w);
  eff_keys : forall k, k ∉ keys ->
             entries (source w') !! k = entries (source w) !! k;
  eff_transcript : faithful E w -> faithful E w'
}.

(** every run of [m] has the effect above and raises only exceptions of the
    classes in [kinds] *)
Definition framed {A} (E : Env) (cmds keys kinds : list string) (m : M A) : Prop :=
  forall w,
    effect E cmds keys w (snd (m w)) /\
    (forall e, fst (m w) = Raise e -> kind e ∈ kinds).

(** [l] is included in [l'], as a computation *)
Definition included (l l' : list string) : bool :=
  forallb (fun x => bool_decide (x ∈ l')) l.

(** the prefix of remote-tracking branches for a version *)
Definition prefix_of (v : list Z) : string :=
  if Py.tuple_lt v [1; 6; 3]%Z then _upstream_name
  else "remotes/" +:+ _upstream_name.

(** the listing of branches shows [dev] locally and on the remote *)
Definition both_env : Env :=
  scripted (fun args _ =>
              if args_are args ["--version"] then ok "git version 2.30.1"
              else if args_are args ["branch"; "-a"]
                   then ok ("* dev" +:+ Py.NL +:+ "  remotes/origin/dev" +:+ Py.NL)
              else ok "")
    true false.

(** ** Words and lines *)

(** [u] stands in [s] between separators: it starts at the start of [s] or
    right after a byte of the class [sep], and it ends at the end of [s] or
    right before such a byte *)
Definition delimited (sep : ascii -> bool) (u s : string) : Prop :=
  exists pre post, s = pre +:+ u +:+ post /\
    (pre = "" \/ exists q c, pre = q +:+ String c "" /\ sep c = true) /\
    (post = "" \/ exists c q, post = String c q /\ sep c = true).

Definition is_newline (c : ascii) : bool := Ascii.eqb c Py.nl.

(** [u] is a whole line of [s] *)
Definition whole_line (u s : string) : Prop := delimited is_newline u s.

Definition not_space (c : ascii) : bool := negb (Py.is_space c).

Definition not_quote (c : ascii) : bool := negb (Py.is_quote c).

(** [u] is one of the words of [s]: not empty, free of white space, and
    with white space or an end of [s] on either side *)
Definition word (u s : string) : Prop :=
  u <> "" /\ Py.all_of not_space u = true /\ delimited Py.is_space u s.

(** where [^] matches under [re.M], by the byte before *)
Definition at_bol (prev : option ascii) : bool :=
  match prev with None => true | Some c => Ascii.eqb c Py.nl end.

(** where [$] matches under [re.M], by the text after *)
Definition at_eol (s : string) : Prop :=
  s = "" \/ exists c q, s = String c q /\ is_newline c = true.

(** [git remote show -n origin] shows the URL of the descriptor *)
Definition remote_env : Env :=
  scripted (fun args _ =>
              if args_are args ["remote"; "show"; "-n"; "origin"]
              then ok ("* remote origin" +:+ Py.NL +:+
                       "  Fetch URL: https://example/repo.git" +:+ Py.NL)
              else ok "")
    true false.

(** ** The lines of an output *)

(** the number of newline bytes in [s] *)
Fixpoint newlines (s : string) : nat :=
  match s with
  | EmptyString => 0
  | String c s' => (if Ascii.eqb c Py.nl then 1 else 0) + newlines s'
  end.

(** the number of lines of [s]: one more than it has newline bytes *)
Definition line_count (s : string) : nat := S (newlines s).

(** [sub] occurs somewhere in [s] *)
Definition occurs (sub s : string) : Prop :=
  exists pre post, s = pre +:+ sub +:+ post.

(** nothing but white space *)
Definition blank (s : string) : Prop := Py.all_of Py.is_space s = true.

(** neither the first nor the last byte is white space *)
Definition trimmed (s : string) : Prop :=
  (forall c s', s = String c s' -> Py.is_space c = false) /\
  (forall s' c, s = s' +:+ String c "" -> Py.is_space c = false).

(** [core] is [out] without the white space around it *)
Definition stripped (out core : string) : Prop :=
  exists lead trail,
    out = lead +:+ core +:+ trail /\ blank lead /\ blank trail /\ trimmed core.

(** [git status -s -b] answers [out] *)
Definition status_env (out : string) : Env := scripted (fun _ _ => ok out) true false.

(** ** Why the process is ended *)

(** a run that ends the process does so with status 1 and in a state of
    the class [C] *)
Definition ends_only {A} (C : WC -> Prop) (r : outcome A * WC) : Prop :=
  forall code, fst r = Raise (SystemExit code) -> code = 1%Z /\ C (snd r).

Definition exits_only {A} (C : WC -> Prop) (m : M A) : Prop :=
  forall w, ends_only C (m w).

(** the class of no state: a run held to it never ends the process *)
Definition never (w : WC) : Prop := False.

(** the message of the [GitError] of a process that failed *)
Definition git_error_message (i : Invocation) (r : ExecResult) : string :=
  "'" +:+ String.concat " " (argv i) +:+ "'" +:+ Py.NL +:+ stdout r +:+ Py.NL
  +:+ stderr r.

(** the version the groups of a match stand for *)
Definition read_version (m : Re.captures) : option (list Z) :=
  let number (i : nat) := Re.group m i ≫= Py.int in
  let dotted (i : nat) := Re.group m i ≫= (fun s => Py.int (Py.tail s)) in
  match Re.group m 4, Re.group m 3 with
  | Some _, _ =>
      a ← number 1%nat; b ← number 2%nat; c ← dotted 3%nat; d ← dotted 4%nat;
      Some [a; b; c; d]
  | None, Some _ =>
      a ← number 1%nat; b ← number 2%nat; c ← dotted 3%nat; Some [a; b; c]
  | None, None => a ← number 1%nat; b ← number 2%nat; Some [a; b]
  end.

(** the version could not be detected: the last process run is
    [git --version], no version is kept, and the log ends with what
    [git_version] says of that process: it failed, its output is not
    understood, or the version it shows is below 1.5 *)
Definition version_undetected (E : Env) (w : WC) : Prop :=
  exists pre,
    let i := git_in w ["--version"] None in
    let r := run E pre i in
    spawned w = pre ++ [i] /\
    _memoize_git_version w = None /\
    ((returncode r <> 0%Z /\
      ends_with (undetermined_lines (git_error_message i r)) (logged w)) \/
     (returncode r = 0%Z /\ Re.search version_re (stdout r) = None /\
      ends_with (unparsable_lines (stdout r)) (logged w)) \/
     (returncode r = 0%Z /\
      exists m v, Re.search version_re (stdout r) = Some m /\
                  read_version m = Some v /\
                  Py.tuple_lt v [1; 5]%Z = true /\
                  ends_with [unsupported_line v] (logged w))).

(** the descriptor has a branch and a rev, and the log ends with the line
    of the constructor that names both *)
Definition descriptor_conflict (w : WC) : Prop :=
  exists b r n,
    entries (source w) !! "branch" = Some b /\
    entries (source w) !! "rev" = Some r /\
    entries (source w) !! "name" = Some n /\
    ends_with [conflict_line b r n] (logged w).

(** the branch [git_switch_branch] and [git_merge_rbranch] work on *)
Definition wanted_branch (w : WC) : string :=
  default "master" (entries (source w) !! "branch").

(** [b] is listed as a local branch and as a branch of the remote *)
Definition on_both_sides (v : list Z) (b out : string) : Prop :=
  (whole_line ("* " +:+ b) out \/ whole_line ("  " +:+ b) out) /\
  whole_line ("  " +:+ prefix_of v +:+ "/" +:+ b) out.

(** the merge was refused: the last thing asked of git, but for the
    version, is the listing of branches; the listing does not show the
    wanted branch on both sides; and the log ends with the line of
    [git_merge_rbranch] that names the branch *)
Definition merge_refused (E : Env) (w : WC) : Prop :=
  exists pre asked path v,
    let i := git_in w ["branch"; "-a"] (Some path) in
    let r := run E pre i in
    spawned w = pre ++ i :: asked /\
    Forall (fun j => subcommand j ∈ ["--version"]) asked /\
    entries (source w) !! "path" = Some path /\
    _memoize_git_version w = Some v /\
    returncode r = 0%Z /\
    ~ on_both_sides v (wanted_branch w) (stdout r) /\
    ends_with [no_such_branch_line (wanted_branch w)] (logged w).

(** the merge was refused in an update: the descriptor names a branch and
    no rev, and the listing was asked right after the checkout that
    switched to the branch *)
Definition update_refused (E : Env) (w : WC) : Prop :=
  merge_refused E w /\
  is_Some (entries (source w) !! "branch") /\
  entries (source w) !! "rev" = None /\
  exists pre i0 i, spawned w = pre ++ [i0; i] /\ subcommand i0 = "checkout".

(** * Properties *)

(** ** Appending byte strings *)

Lemma append_cons (c : ascii) (a b : string) :
  String c a +:+ b = String c (a +:+ b).
Proof. reflexivity. Qed.

Lemma append_nil (b : string) : "" +:+ b = b.
Proof. reflexivity. Qed.

Lemma append_empty_r (a : string) : a +:+ "" = a.
Proof.
  induction a as [|x a IH]; [reflexivity|]. rewrite append_cons, IH. reflexivity.
Qed.

(** ** Running one process *)

Lemma git_run_eq (E : Env) (args : list string) (dir : option string) (w : WC) :
  git_run E args dir w =
  let cmd := run E (spawned w) (git_in w args dir) in
  let w' := with_git_stdout (fun l => l ++ [stdout cmd])
              (with_spawned (git_in w args dir) w) in
  if (returncode cmd =? 0)%Z
  then (Ret (stdout cmd), w')
  else (Raise (GitError ("'" +:+ String.concat " " (git_executable w :: args)
                         +:+ "'" +:+ Py.NL +:+ stdout cmd +:+ Py.NL
                         +:+ stderr cmd)), w').
Proof.
  unfold git_run, bind, gets, modify, git_in; simpl.
  destruct (returncode _ =? 0)%Z; reflexivity.
Qed.

Lemma split_on_nonempty (sep : ascii) (s : string) :
  (1 <= length (Py.split_on sep s))%nat.
Proof.
  induction s as [|c s IH]; simpl; [lia|].
  destruct (Ascii.eqb c sep); simpl; [lia|].
  destruct (Py.split_on sep s); simpl; lia.
Qed.

(** ** The status label *)

Lemma lstrip_blank_app (lead x : string) :
  blank lead -> Py.lstrip (lead +:+ x) = Py.lstrip x.
Proof.
  unfold blank. induction lead as [|a lead IH]; intros H; [reflexivity|].
  simpl in H. apply andb_true_iff in H. destruct H as [Ha H].
  rewrite append_cons. simpl. rewrite Ha. apply IH, H.
Qed.

Lemma lstrip_blank (t : string) : blank t -> Py.lstrip t = "".
Proof.
  intros H. rewrite <- (append_empty_r t). rewrite lstrip_blank_app by exact H.
  reflexivity.
Qed.

Lemma rstrip_blank (t : string) : blank t -> Py.rstrip t = "".
Proof.
  unfold blank. induction t as [|a t IH]; intros H; [reflexivity|].
  simpl in H. apply andb_true_iff in H. destruct H as [Ha H].
  simpl. rewrite (IH H), Ha. reflexivity.
Qed.

Lemma rstrip_app_blank (q : string) (z : ascii) (trail : string) :
  Py.is_space z = false -> blank trail ->
  Py.rstrip ((q +:+ String z "") +:+ trail) = q +:+ String z "".
Proof.
  intros Hz Ht. induction q as [|a q IH].
  - rewrite append_nil, append_cons, append_nil. simpl.
    rewrite (rstrip_blank _ Ht), Hz. reflexivity.
  - rewrite !append_cons. simpl. rewrite IH.
    destruct q; reflexivity.
Qed.

Lemma last_byte (c : ascii) (s : string) :
  exists q z, String c s = q +:+ String z "".
Proof.
  revert c. induction s as [|a s IH]; intros c.
  - exists "", c. reflexivity.
  - destruct (IH a) as (q & z & Hq). exists (String c q), z.
    rewrite append_cons, <- Hq. reflexivity.
Qed.

Lemma strip_stripped (out core : string) :
  stripped out core -> Py.strip out = core.
Proof.
  intros (lead & trail & -> & Hlead & Htrail & Hfirst & Hlast).
  unfold Py.strip. rewrite lstrip_blank_app by exact Hlead.
  destruct core as [|c core].
  - rewrite append_nil, (lstrip_blank _ Htrail). reflexivity.
  - rewrite append_cons. simpl Py.lstrip. rewrite (Hfirst c core eq_refl).
    rewrite <- append_cons.
    destruct (last_byte c core) as (q & z & Hq). rewrite Hq.
    apply rstrip_app_blank; [|exact Htrail].
    apply (Hlast q z). exact Hq.
Qed.

Lemma lstrip_decomp (s : string) :
  exists lead, s = lead +:+ Py.lstrip s /\ blank lead /\
    forall c t, Py.lstrip s = String c t -> Py.is_space c = false.
Proof.
  induction s as [|a s (lead & Hs & Hb & Hf)].
  - exists "". repeat split. intros c t H. discriminate H.
  - simpl. destruct (Py.is_space a) eqn:Ha.
    + exists (String a lead). rewrite append_cons, <- Hs.
      split; [reflexivity|]. split; [|exact Hf].
      unfold blank in *. simpl. rewrite Ha, Hb. reflexivity.
    + exists "". split; [reflexivity|]. split; [reflexivity|].
      intros c t H. inversion H; subst. exact Ha.
Qed.

Lemma rstrip_decomp (s : string) :
  exists trail, s = Py.rstrip s +:+ trail /\ blank trail.
Proof.
  induction s as [|a s (trail & Hs & Hb)].
  - exists "". split; reflexivity.
  - simpl. destruct (Py.rstrip s) as [|b t].
    + rewrite append_nil in Hs. subst trail.
      destruct (Py.is_space a) eqn:Ha.
      * exists (String a s). split; [reflexivity|].
        unfold blank in *. simpl. rewrite Ha, Hb. reflexivity.
      * exists s. split; [reflexivity | exact Hb].
    + exists trail. rewrite append_cons, <- Hs. split; [reflexivity | exact Hb].
Qed.

Lemma rstrip_last (s : string) : forall s' c,
  Py.rstrip s = s' +:+ String c "" -> Py.is_space c = false.
Proof.
  induction s as [|a s IH]; intros s' c H.
  - destruct s'; discriminate H.
  - simpl in H. destruct (Py.rstrip s) as [|b t].
    + destruct (Py.is_space a) eqn:Ha; [destruct s'; discriminate H|].
      destruct s' as [|x s']; [inversion H; subst; exact Ha|].
      rewrite append_cons in H. inversion H. destruct s'; discriminate.
    + destruct s' as [|x s']; [discriminate H|].
      rewrite append_cons in H. inversion H. eapply IH. eassumption.
Qed.

Lemma rstrip_first (s : string) (c : ascii) (t : string) :
  (forall c0 t0, s = String c0 t0 -> Py.is_space c0 = false) ->
  Py.rstrip s = String c t -> Py.is_space c = false.
Proof.
  intros Hs. destruct s as [|a s]; [discriminate|].
  simpl. pose proof (Hs a s eq_refl) as Ha. rewrite Ha.
  destruct (Py.rstrip s); intros H; inversion H; subst; exact Ha.
Qed.

Lemma stripped_strip (out : string) : stripped out (Py.strip out).
Proof.
  destruct (lstrip_decomp out) as (lead & Ho & Hlead & Hfirst).
  destruct (rstrip_decomp (Py.lstrip out)) as (trail & Hl & Htrail).
  exists lead, trail. unfold Py.strip. rewrite <- Hl.
  split; [exact Ho|]. split; [exact Hlead|]. split; [exact Htrail|]. split.
  - intros c t H. exact (rstrip_first _ _ _ Hfirst H).
  - intros s' c H. exact (rstrip_last _ _ _ H).
Qed.

Lemma split_on_lines (s : string) :
  length (Py.split_on Py.nl s) = line_count s.
Proof.
  unfold line_count. induction s as [|c s IH]; [reflexivity|].
  simpl. destruct (Ascii.eqb c Py.nl); simpl; [rewrite IH; reflexivity|].
  destruct (Py.split_on Py.nl s); simpl in *; lia.
Qed.

Lemma split_on_one_line (s : string) :
  line_count s = 1%nat -> Py.split_on Py.nl s = [s].
Proof.
  unfold line_count. induction s as [|c s IH]; [reflexivity|].
  simpl. destruct (Ascii.eqb c Py.nl); simpl; [discriminate|].
  intros H. rewrite (IH H). reflexivity.
Qed.

Lemma prefix_app (sub s : string) :
  String.prefix sub s = true <-> exists post, s = sub +:+ post.
Proof.
  revert s. induction sub as [|a sub IH]; intros s.
  - split; [intros _; exists s; reflexivity | intros _; destruct s; reflexivity].
  - destruct s as [|b s]; simpl.
    + split; [discriminate | intros [post H]; discriminate H].
    + destruct (ascii_dec a b) as [->|Hab].
      * rewrite IH. split; intros [post H]; exists post.
        -- rewrite append_cons, <- H. reflexivity.
        -- rewrite append_cons in H. inversion H. reflexivity.
      * split; [discriminate|]. intros [post H].
        rewrite append_cons in H. inversion H. congruence.
Qed.

Lemma contains_occurs (sub s : string) :
  Py.contains sub s = true <-> occurs sub s.
Proof.
  unfold occurs. split.
  - induction s as [|c s IH]; cbn [Py.contains]; intros H.
    + apply orb_true_iff in H. destruct H as [H|H]; [|discriminate].
      apply prefix_app in H. destruct H as [post H]. exists "", post. exact H.
    + apply orb_true_iff in H. destruct H as [H|H].
      * apply prefix_app in H. destruct H as [post H]. exists "", post. exact H.
      * destruct (IH H) as (pre & post & ->). exists (String c pre), post.
        reflexivity.
  - intros (pre & post & ->). induction pre as [|c pre IH].
    + rewrite append_nil.
      assert (H : String.prefix sub (sub +:+ post) = true)
        by (apply prefix_app; eauto).
      destruct (sub +:+ post); cbn [Py.contains]; rewrite H; reflexivity.
    + rewrite append_cons. cbn [Py.contains]. rewrite IH. apply orb_true_r.
Qed.

Lemma append_last_inj (a b : string) (x y : ascii) :
  a +:+ String x "" = b +:+ String y "" -> x = y.
Proof.
  revert b. induction a as [|c a IH]; intros b H.
  - destruct b as [|d b]; [inversion H; reflexivity|].
    rewrite append_nil, append_cons in H. inversion H. destruct b; discriminate.
  - destruct b as [|d b].
    + rewrite append_nil, append_cons in H. inversion H. destruct a; discriminate.
    + rewrite !append_cons in H. inversion H. eapply IH. eassumption.
Qed.

Lemma trimmed_between (c z : ascii) (m : string) :
  Py.is_space c = false -> Py.is_space z = false ->
  trimmed (String c (m +:+ String z "")).
Proof.
  intros Hc Hz. split.
  - intros c0 s' H. inversion H; subst. exact Hc.
  - intros s' c0 H. rewrite <- append_cons in H.
    apply append_last_inj in H. subst c0. exact Hz.
Qed.

(** C1: the label [status] returns is decided by the lines of the output of
    [git status -s -b] once the white space around it is taken away: one line
    in which "ahead" does not occur is "clean", one line in which it occurs is
    "ahead", two lines or more are "dirty".  Every output has such a core, so
    the three cases cover every output text. *)
Theorem status_classifies (E : Env) (kwargs : Kwargs) (w : WC)
    (path out err : string) :
  entries (source w) !! "path" = Some path ->
  run E (spawned w) (git_in w ["status"; "-s"; "-b"] (Some path))
    = {| stdout := out; stderr := err; returncode := 0 |} ->
  let r := status E kwargs w in
  (exists core, stripped out core) /\
  forall core, stripped out core ->
    (line_count core = 1%nat -> ~ occurs "ahead" core ->
     label r = Some "clean") /\
    (line_count core = 1%nat -> occurs "ahead" core ->
     label r = Some "ahead") /\
    ((2 <= line_count core)%nat -> label r = Some "dirty").
Proof.
  intros Hpath Hrun r.
  split; [exists (Py.strip out); apply stripped_strip|].
  intros core Hcore. apply strip_stripped in Hcore.
  assert (Hr : label r =
               Some (if (length (Py.split_on Py.nl core) =? 1)%nat
                     then if Py.contains "ahead"
                               (default "" (Py.split_on Py.nl core !! 0%nat))
                          then "ahead" else "clean"
                     else "dirty")).
  { subst r core. unfold status, label, bind at 1, getitem. rewrite Hpath.
    unfold bind at 1. rewrite git_run_eq, Hrun. cbn [returncode stdout].
    change (0 =? 0)%Z with true. cbv iota.
    destruct (kw_verbose kwargs); reflexivity. }
  rewrite split_on_lines in Hr.
  split; [|split].
  - intros H1 Hno. rewrite Hr, H1, (split_on_one_line _ H1). cbn.
    destruct (Py.contains "ahead" core) eqn:Hc; [|reflexivity].
    destruct Hno. apply contains_occurs. exact Hc.
  - intros H1 Hyes. rewrite Hr, H1, (split_on_one_line _ H1). cbn.
    apply contains_occurs in Hyes. rewrite Hyes. reflexivity.
  - intros H2. rewrite Hr.
    destruct (Nat.eqb_spec (line_count core) 1); [lia | reflexivity].
Qed.

Lemma status_classifies_witness :
  let w := instance (descriptor [("path", "/tmp/pkg")] None) in
  label (status (status_env (Py.NL +:+ "## master" +:+ Py.NL)) no_kwargs w)
  = Some "clean" /\
  label (status (status_env ("## master...origin/master [ahead 1]" +:+ Py.NL))
           no_kwargs w)
  = Some "ahead" /\
  label (status (status_env ("## master" +:+ Py.NL +:+ " M setup.py" +:+ Py.NL))
           no_kwargs w)
  = Some "dirty".
Proof.
  intros w. split; [|split].
  - destruct (status_classifies (status_env (Py.NL +:+ "## master" +:+ Py.NL))
                no_kwargs w "/tmp/pkg" (Py.NL +:+ "## master" +:+ Py.NL) ""
                eq_refl eq_refl) as [_ H].
    destruct (H "## master") as (Hclean & _ & _).
    + exists Py.NL, Py.NL. split; [reflexivity|]. split; [reflexivity|].
      split; [reflexivity|].
      exact (trimmed_between "#" "r" "# maste" eq_refl eq_refl).
    + apply Hclean; [reflexivity|]. intros Hocc.
      apply contains_occurs in Hocc. vm_compute in Hocc. discriminate Hocc.
  - destruct (status_classifies
                (status_env ("## master...origin/master [ahead 1]" +:+ Py.NL))
                no_kwargs w "/tmp/pkg"
                ("## master...origin/master [ahead 1]" +:+ Py.NL) ""
                eq_refl eq_refl) as [_ H].
    destruct (H "## master...origin/master [ahead 1]") as (_ & Hahead & _).
    + exists "", Py.NL. split; [reflexivity|]. split; [reflexivity|].
      split; [reflexivity|].
      exact (trimmed_between "#" "]" "# master...origin/master [ahead 1"
               eq_refl eq_refl).
    + apply Hahead; [reflexivity|].
      exists "## master...origin/master [", " 1]". reflexivity.
  - destruct (status_classifies
                (status_env ("## master" +:+ Py.NL +:+ " M setup.py" +:+ Py.NL))
                no_kwargs w "/tmp/pkg"
                ("## master" +:+ Py.NL +:+ " M setup.py" +:+ Py.NL) ""
                eq_refl eq_refl) as [_ H].
    destruct (H ("## master" +:+ Py.NL +:+ " M setup.py")) as (_ & _ & Hdirty).
    + exists "", Py.NL. split; [reflexivity|]. split; [reflexivity|].
      split; [reflexivity|].
      exact (trimmed_between "#" "y" ("# master" +:+ Py.NL +:+ " M setup.p")
               eq_refl eq_refl).
    + apply Hdirty. vm_compute. lia.
Defined.

(** ** The constructor *)

Lemma has_Some {A} (o : option A) (v : A) :
  o = Some v -> bool_decide (is_Some o) = true.
Proof. intros ->. apply bool_decide_eq_true_2. eauto. Qed.

Lemma has_None {A} (o : option A) :
  o = None -> bool_decide (is_Some o) = false.
Proof. intros ->. apply bool_decide_eq_false_2. intros [? ?]; discriminate. Qed.

Lemma init_duplicate (E : Env) (w : WC) (v v' n : string) :
  entries (source w) !! "rev" = Some v ->
  entries (source w) !! "revision" = Some v' ->
  entries (source w) !! "name" = Some n ->
  __init__ E w =
  (Raise (ValueError ("The source definition of '" +:+ n +:+
                      "' contains duplicate revision options.")),
   with_git_executable (which_git E) w).
Proof.
  intros Hrev Hrevision Hname.
  unfold __init__, bind, modify, source_has, gets, getitem, raise; simpl.
  rewrite (has_Some _ _ Hrev), (has_Some _ _ Hrevision); simpl.
  rewrite Hname. reflexivity.
Qed.

Lemma init_conflict (E : Env) (w : WC) (r b n : string) :
  entries (source w) !! "rev" = Some r ->
  entries (source w) !! "revision" = None ->
  entries (source w) !! "branch" = Some b ->
  entries (source w) !! "name" = Some n ->
  __init__ E w =
  (Raise (SystemExit 1),
   with_logged (conflict_line b r n) (with_git_executable (which_git E) w)).
Proof.
  intros Hrev Hrevision Hbranch Hname.
  unfold __init__, bind, modify, source_has, gets, getitem, raise; simpl.
  repeat (first [ rewrite (has_Some _ _ Hrev) | rewrite (has_None _ Hrevision)
                 | rewrite (has_Some _ _ Hbranch)
                 | rewrite Hbranch | rewrite Hrev | rewrite Hname ]; simpl).
  reflexivity.
Qed.

Lemma init_alias (E : Env) (w : WC) (v : string) :
  entries (source w) !! "revision" = Some v ->
  entries (source w) !! "rev" = None ->
  let w1 := renamed v (with_git_executable (which_git E) w) in
  (entries (source w) !! "branch" = None ->
   __init__ E w = (Ret tt, with_git_stdout (fun _ => []) w1)) /\
  (forall b n,
     entries (source w) !! "branch" = Some b ->
     entries (source w) !! "name" = Some n ->
     __init__ E w = (Raise (SystemExit 1), with_logged (conflict_line b v n) w1)).
Proof.
  intros Hrevision Hrev w1.
  assert (Hpre :
    __init__ E w =
    (has_branch <- source_has "branch" ;;
     has_rev <- source_has "rev" ;;
     (if has_branch && has_rev
      then branch <- getitem "branch" ;;
           rev <- getitem "rev" ;;
           name <- getitem "name" ;;
           logger ERROR
             "Cannot specify both branch (%s) and rev/revision (%s) in source for %s"
             [branch; rev; name] ;;
           sys_exit 1
      else ret tt) ;;
     modify (with_git_stdout (fun _ => [])) ;;
     BaseWorkingCopy__init__) w1).
  { unfold __init__, bind at 1, modify at 1.
    unfold bind at 1, source_has at 1, gets at 1.
    unfold bind at 1, source_has at 1, gets at 1.
    cbn [source with_git_executable].
    rewrite (has_None _ Hrev), (has_Some _ _ Hrevision). cbn [andb].
    unfold bind at 1, ret at 1.
    unfold bind at 1, source_has at 1, gets at 1.
    cbn [source with_git_executable].
    rewrite (has_Some _ _ Hrevision).
    unfold bind at 1, when, bind at 1, getitem at 1.
    cbn [source with_git_executable]. rewrite Hrevision.
    unfold bind at 1, setitem, modify at 1, delitem.
    cbn [source with_source set_entry entries].
    rewrite lookup_insert_ne by discriminate.
    cbn [source with_git_executable]. rewrite Hrevision.
    reflexivity. }
  assert (Hb : entries (source w1) !! "branch" = entries (source w) !! "branch").
  { subst w1. unfold renamed. cbn.
    rewrite lookup_delete_ne by discriminate.
    rewrite lookup_insert_ne by discriminate. reflexivity. }
  assert (Hr : entries (source w1) !! "rev" = Some v).
  { subst w1. unfold renamed. cbn.
    rewrite lookup_delete_ne by discriminate.
    apply lookup_insert_eq. }
  assert (Hn : entries (source w1) !! "name" = entries (source w) !! "name").
  { subst w1. unfold renamed. cbn.
    rewrite lookup_delete_ne by discriminate.
    rewrite lookup_insert_ne by discriminate. reflexivity. }
  rewrite Hpre. clearbody w1. clear Hpre.
  split.
  - intros Hbranch. rewrite Hbranch in Hb.
    unfold bind, source_has, gets, modify, BaseWorkingCopy__init__, ret.
    rewrite (has_None _ Hb). reflexivity.
  - intros b n Hbranch Hname. rewrite Hbranch in Hb. rewrite Hname in Hn.
    unfold bind, source_has, gets, getitem, logger, modify, sys_exit, raise.
    rewrite (has_Some _ _ Hb), (has_Some _ _ Hr). cbn [andb].
    rewrite Hb, Hr, Hn. reflexivity.
Qed.

(** C10: ['revision'] is accepted as an alias of ['rev'].  When only
    ['revision'] is present the constructor renames it to ['rev'] in the
    caller's descriptor, and it does so before the branch/rev check: without
    a branch construction succeeds on the renamed descriptor, with a branch
    the process exits on the conflict of the branch with the renamed value.
    When both ['rev'] and ['revision'] are present a [ValueError] is raised,
    not the exit, and the descriptor is left as it was. *)
Theorem revision_is_alias_of_rev (E : Env) (w : WC) :
  (forall v,
     entries (source w) !! "revision" = Some v ->
     entries (source w) !! "rev" = None ->
     let r := __init__ E w in
     let renamed_entries := delete "revision" (<["rev" := v]> (entries (source w))) in
     (entries (source w) !! "branch" = None ->
      fst r = Ret tt /\ entries (source (snd r)) = renamed_entries) /\
     (forall b n,
        entries (source w) !! "branch" = Some b ->
        entries (source w) !! "name" = Some n ->
        fst r = Raise (SystemExit 1) /\
        entries (source (snd r)) = renamed_entries /\
        logged (snd r) = logged w ++ [conflict_line b v n])) /\
  (forall v v' n,
     entries (source w) !! "rev" = Some v ->
     entries (source w) !! "revision" = Some v' ->
     entries (source w) !! "name" = Some n ->
     let r := __init__ E w in
     fst r = Raise (ValueError ("The source definition of '" +:+ n +:+
                                "' contains duplicate revision options.")) /\
     source (snd r) = source w /\
     logged (snd r) = logged w /\
     spawned (snd r) = spawned w).
Proof.
  split.
  - intros v Hrevision Hrev r renamed_entries.
    destruct (init_alias E w v Hrevision Hrev) as [Hnone Hsome].
    split.
    + intros Hbranch. subst r. rewrite (Hnone Hbranch). split; reflexivity.
    + intros b n Hbranch Hname. subst r. rewrite (Hsome b n Hbranch Hname).
      repeat split; reflexivity.
  - intros v v' n Hrev Hrevision Hname r. subst r.
    rewrite (init_duplicate E w v v' n Hrev Hrevision Hname).
    repeat split; reflexivity.
Qed.

Lemma revision_is_alias_of_rev_witness :
  let w := instance (descriptor [("name", "pkg"); ("revision", "1.0")] None) in
  fst (__init__ quiet w) = Ret tt /\
  entries (source (snd (__init__ quiet w))) !! "rev" = Some "1.0".
Proof.
  intros w.
  destruct (proj1 (revision_is_alias_of_rev quiet w) "1.0" eq_refl eq_refl)
    as [Hnone _].
  destruct (Hnone eq_refl) as [Hret Hsrc].
  split; [exact Hret|]. rewrite Hsrc. reflexivity.
Defined.

(** C4, as stated, fails on a descriptor that also carries ['revision']: the
    constructor raises [ValueError] and the process is not ended. *)
Lemma rev_branch_revision_no_exit :
  let w := instance (descriptor [("name", "pkg"); ("rev", "1.0");
                                 ("revision", "1.0"); ("branch", "dev")] None) in
  is_Some (entries (source w) !! "rev") /\
  is_Some (entries (source w) !! "branch") /\
  ~ exits (__init__ quiet w).
Proof.
  intros w. split; [eexists; reflexivity|]. split; [eexists; reflexivity|].
  intros [code Hcode]. vm_compute in Hcode. discriminate Hcode.
Qed.

(** C4, amended: a descriptor with both ['rev'] and ['branch'] (and a name)
    never gets constructed and no process is run: the process exits with
    status 1 after the conflict is logged, unless the descriptor carries
    ['revision'] as well, in which case [ValueError] is raised and nothing
    is logged. *)
Theorem rev_and_branch_fail_before_any_invocation (E : Env) (w : WC)
    (r b n : string) :
  entries (source w) !! "rev" = Some r ->
  entries (source w) !! "branch" = Some b ->
  entries (source w) !! "name" = Some n ->
  let res := __init__ E w in
  spawned (snd res) = spawned w /\
  match entries (source w) !! "revision" with
  | None =>
      fst res = Raise (SystemExit 1) /\
      logged (snd res) = logged w ++ [conflict_line b r n]
  | Some _ =>
      fst res = Raise (ValueError ("The source definition of '" +:+ n +:+
                                   "' contains duplicate revision options.")) /\
      logged (snd res) = logged w
  end.
Proof.
  intros Hrev Hbranch Hname res. subst res.
  destruct (entries (source w) !! "revision") as [v'|] eqn:Hrevision.
  - rewrite (init_duplicate E w r v' n Hrev Hrevision Hname).
    repeat split; reflexivity.
  - rewrite (init_conflict E w r b n Hrev Hrevision Hbranch Hname).
    repeat split; reflexivity.
Qed.

Lemma rev_and_branch_fail_before_any_invocation_witness :
  let w := instance (descriptor [("name", "pkg"); ("rev", "1.0");
                                 ("branch", "dev")] None) in
  fst (__init__ quiet w) = Raise (SystemExit 1) /\
  spawned (snd (__init__ quiet w)) = [].
Proof.
  intros w.
  destruct (rev_and_branch_fail_before_any_invocation quiet w "1.0" "dev" "pkg"
              eq_refl eq_refl eq_refl) as [Hs Hm].
  change (entries (source w) !! "revision") with (@None string) in Hm.
  destruct Hm as [Hexit _]. split; [exact Hexit | exact Hs].
Defined.

(** ** Auto-selection of the branch *)

Lemma git_current_branch_eq (E : Env) (dir : option string) (w : WC) :
  git_current_branch E dir w =
  let cmd := run E (spawned w) (git_in w ["symbolic-ref"; "--short"; "HEAD"] dir) in
  let w' := with_git_stdout (fun l => l ++ [stdout cmd])
              (with_spawned (git_in w ["symbolic-ref"; "--short"; "HEAD"] dir) w) in
  (Ret (if (returncode cmd =? 0)%Z then Some (Py.strip (stdout cmd)) else None),
   w').
Proof.
  unfold git_current_branch, try_except, bind. rewrite git_run_eq.
  cbv zeta. destruct (returncode _ =? 0)%Z; reflexivity.
Qed.

(** C7, as stated, fails on a descriptor that pins a rev: the branch is
    selected all the same and written into the descriptor. *)
Lemma pinned_rev_is_not_respected :
  let w := instance (descriptor [("rev", "1.0")] (Some ["main"; "release"])) in
  let E := scripted (fun _ _ => ok ("feature-x" +:+ Py.NL)) true false in
  entries (source w) !! "rev" = Some "1.0" /\
  entries (source w) !! "branch" = None /\
  entries (source (snd (auto_select_branch E w))) !! "branch" = Some "main" /\
  source (snd (auto_select_branch E w)) <> source w.
Proof.
  intros w E. split; [reflexivity|]. split; [reflexivity|].
  split; [vm_compute; reflexivity|].
  intros Heq.
  assert (H : entries (source (snd (auto_select_branch E w))) !! "branch"
              = entries (source w) !! "branch") by (rewrite Heq; reflexivity).
  vm_compute in H. discriminate H.
Qed.

(** C7, amended: auto-selection leaves the working copy as it is when the
    descriptor has a branch or has no preferred-branches list, and leaves the
    descriptor as it is when the current branch cannot be read; a pinned rev
    does not stop it.  Otherwise it writes the ['branch'] entry: the first
    preferred entry when the current branch is not among a non-empty
    preferred list, the current branch itself when it is among them or the
    list is empty. *)
Theorem auto_select_branch_spec (E : Env) (w : WC) :
  let r := auto_select_branch E w in
  let cmd := run E (spawned w)
               (git_in w ["symbolic-ref"; "--short"; "HEAD"] None) in
  let current := Py.strip (stdout cmd) in
  (is_Some (entries (source w) !! "branch") \/
   preferred_branches (source w) = None -> r = (Ret tt, w)) /\
  (forall preferred,
     entries (source w) !! "branch" = None ->
     preferred_branches (source w) = Some preferred ->
     (returncode cmd <> 0%Z -> fst r = Ret tt /\ source (snd r) = source w) /\
     (forall first rest,
        returncode cmd = 0%Z ->
        preferred = first :: rest -> current ∉ preferred ->
        fst r = Ret tt /\
        source (snd r) = set_entry "branch" first (source w)) /\
     (returncode cmd = 0%Z ->
      preferred = [] \/ current ∈ preferred ->
      fst r = Ret tt /\
      source (snd r) = set_entry "branch" current (source w))).
Proof.
  intros r cmd current. split.
  - intros H. subst r. unfold auto_select_branch, bind, source_get, gets.
    destruct H as [[b Hb]|Hp].
    + rewrite Hb. reflexivity.
    + rewrite Hp. destruct (entries (source w) !! "branch"); reflexivity.
  - intros preferred Hb Hp.
    set (w1 := with_git_stdout (fun l => l ++ [stdout cmd])
                 (with_spawned
                    (git_in w ["symbolic-ref"; "--short"; "HEAD"] None) w)).
    assert (Hr : r =
      if (returncode cmd =? 0)%Z
      then (current <- (if negb (Py.mem current preferred)
                           && negb (length preferred =? 0)%nat
                        then index preferred 0
                        else ret current) ;;
            output INFO ("Auto-selecting branch " +:+ current) [] ;;
            setitem "branch" current) w1
      else (Ret tt, w1)).
    { subst r. unfold auto_select_branch, bind at 1, source_get, gets at 1.
      unfold bind at 1, gets at 1. rewrite Hb, Hp.
      unfold bind at 1. rewrite git_current_branch_eq. cbv zeta.
      fold cmd. fold current. fold w1.
      destruct (returncode cmd =? 0)%Z; reflexivity. }
    rewrite Hr. clearbody r. clear Hr.
    split; [|split].
    + intros Hrc. apply Z.eqb_neq in Hrc. rewrite Hrc.
      split; reflexivity.
    + intros first rest Hrc Hpref Hnotin. apply Z.eqb_eq in Hrc. rewrite Hrc.
      unfold Py.mem. rewrite (bool_decide_eq_false_2 _ Hnotin).
      rewrite Hpref. cbn [length Nat.eqb negb andb].
      split; reflexivity.
    + intros Hrc Hcase. apply Z.eqb_eq in Hrc. rewrite Hrc.
      assert (Hcond : negb (Py.mem current preferred)
                      && negb (length preferred =? 0)%nat = false).
      { destruct Hcase as [-> | Hin].
        - apply andb_false_r.
        - unfold Py.mem. rewrite (bool_decide_eq_true_2 _ Hin). reflexivity. }
      rewrite Hcond. split; reflexivity.
Qed.

Lemma auto_select_branch_spec_witness :
  let w := instance (descriptor [("name", "pkg")] (Some ["main"; "release"])) in
  let E := scripted (fun _ _ => ok ("feature-x" +:+ Py.NL)) true false in
  entries (source (snd (auto_select_branch E w))) !! "branch" = Some "main".
Proof.
  intros w E.
  destruct (proj2 (auto_select_branch_spec E w) ["main"; "release"]
              eq_refl eq_refl) as [_ [Hfirst _]].
  destruct (Hfirst "main" ["release"] eq_refl eq_refl) as [_ Hsrc].
  - vm_compute. intros H. repeat (apply elem_of_cons in H as [H|H]; [discriminate H|]).
    apply elem_of_nil in H. exact H.
  - rewrite Hsrc. reflexivity.
Defined.

(** ** Checkout of an existing path *)

Lemma auto_select_branch_noop (E : Env) (w : WC) :
  is_Some (entries (source w) !! "branch") \/
  preferred_branches (source w) = None ->
  auto_select_branch E w = (Ret tt, w).
Proof.
  intros H. unfold auto_select_branch, bind, source_get, gets.
  destruct H as [[b Hb]|Hp].
  - rewrite Hb. reflexivity.
  - rewrite Hp. destruct (entries (source w) !! "branch"); reflexivity.
Qed.

Lemma matches_eq (E : Env) (w : WC) (name path url : string) :
  entries (source w) !! "name" = Some name ->
  entries (source w) !! "path" = Some path ->
  entries (source w) !! "url" = Some url ->
  matches E w =
  (x <- git_run E ["remote"; "show"; "-n"; _upstream_name] (Some path) ;;
   ret (Py.mem url (Py.split_ws x))) w.
Proof.
  intros Hname Hpath Hurl.
  unfold matches, bind at 1, getitem at 1. rewrite Hname.
  unfold bind at 1, getitem at 1. rewrite Hpath.
  unfold bind. rewrite git_run_eq. cbv zeta.
  destruct (returncode _ =? 0)%Z; [|reflexivity].
  unfold getitem. cbn [source with_git_stdout with_spawned]. rewrite Hurl.
  reflexivity.
Qed.

Lemma issued_app {A} (w : WC) (r : outcome A * WC) (l : list Invocation) :
  spawned (snd r) = spawned w ++ l -> issued w r = l.
Proof. intros H. unfold issued. rewrite H. apply drop_app_length. Qed.

(** C6, as stated, fails: [checkout] on an existing path with no update due
    asks the tool for the remote. *)
Lemma checkout_of_existing_path_runs_git :
  let w := instance (pkg [] None) in
  let E := scripted (fun _ _ => ok "") true false in
  path_exists E (spawned w) "/tmp/pkg" = true /\
  issued w (checkout E plain w)
  = [git_in w ["remote"; "show"; "-n"; "origin"] (Some "/tmp/pkg")].
Proof. intros w E. split; vm_compute; reflexivity. Qed.

(** C6, amended: on a path that exists already the clone step [git_checkout]
    runs no process and changes nothing but the queue of log lines, to which
    it adds one; [checkout] itself, when no update is due and no branch is to
    be auto-selected, runs exactly one process, the query for the remote, and
    clones nothing. *)
Theorem existing_path_is_not_cloned (E : Env) (kwargs : Kwargs) (w : WC)
    (name path url : string) :
  entries (source w) !! "name" = Some name ->
  entries (source w) !! "path" = Some path ->
  entries (source w) !! "url" = Some url ->
  path_exists E (spawned w) path = true ->
  git_checkout E kwargs w
  = (Ret None,
     with_output {| lvl := INFO;
                    msg := "Skipped cloning of existing package '" +:+ name +:+ "'.";
                    margs := [] |} w) /\
  (should_update E (source w) kwargs = false ->
   is_Some (entries (source w) !! "branch") \/
   preferred_branches (source w) = None ->
   issued w (checkout E kwargs w)
   = [git_in w ["remote"; "show"; "-n"; "origin"] (Some path)]).
Proof.
  intros Hname Hpath Hurl Hexists. split.
  - unfold git_checkout, bind, getitem, gets, output, modify, ret.
    rewrite Hname, Hpath, Hurl, Hexists. reflexivity.
  - intros Hupd Hsel. apply issued_app.
    unfold checkout, bind at 1, getitem at 1. rewrite Hname.
    unfold bind at 1, getitem at 1. rewrite Hpath.
    unfold bind at 1. rewrite (auto_select_branch_noop E w Hsel).
    unfold bind at 1, gets at 1. rewrite Hupd.
    unfold bind at 1, gets at 1. rewrite Hexists.
    unfold bind at 1. rewrite (matches_eq E w name path url Hname Hpath Hurl).
    unfold bind at 1. rewrite git_run_eq. cbv zeta.
    destruct (returncode _ =? 0)%Z; [|reflexivity].
    unfold ret at 1.
    destruct (Py.mem url _).
    + reflexivity.
    + unfold bind, getitem. cbn [source with_git_stdout with_spawned].
      rewrite Hurl. reflexivity.
Qed.

Lemma existing_path_is_not_cloned_witness :
  let w := instance (pkg [] None) in
  let E := scripted (fun _ _ => ok "") true false in
  spawned (snd (git_checkout E plain w)) = [].
Proof.
  intros w E.
  rewrite (proj1 (existing_path_is_not_cloned E plain w "pkg" "/tmp/pkg"
                    "https://example/repo.git" eq_refl eq_refl eq_refl eq_refl)).
  reflexivity.
Defined.

(** ** What a match of the version pattern captures *)

Lemma length_append (a b : string) :
  String.length (a +:+ b) = (String.length a + String.length b)%nat.
Proof.
  induction a as [|c a IH]; [reflexivity|].
  rewrite append_cons. simpl. rewrite IH. reflexivity.
Qed.

Lemma substring_prefix (a b : string) :
  String.substring 0 (String.length a) (a +:+ b) = a.
Proof.
  induction a as [|c a IH].
  - rewrite append_nil. destruct b; reflexivity.
  - rewrite append_cons. simpl. rewrite IH. reflexivity.
Qed.

Lemma consumed_append (pre rest : string) :
  Re.consumed (pre +:+ rest) rest = pre.
Proof.
  unfold Re.consumed. rewrite length_append.
  replace (String.length pre + String.length rest - String.length rest)%nat
    with (String.length pre) by lia.
  apply substring_prefix.
Qed.

Section MatcherFacts.
Context {T : Type}.
Implicit Types (k : option ascii -> string -> option T) (x : T).

Lemma lit_inv l prev s k x :
  Re.lit l prev s k = Some x ->
  exists pv rest, s = l +:+ rest /\ k pv rest = Some x.
Proof.
  revert prev s. induction l as [|a l IH]; intros prev s H; simpl in H.
  - exists prev, s. split; [reflexivity | exact H].
  - destruct s as [|c s]; [discriminate|].
    destruct (Ascii.eqb_spec a c) as [->|]; [|discriminate].
    destruct (IH _ _ H) as (pv & rest & -> & Hk).
    exists pv, rest. split; [reflexivity | exact Hk].
Qed.

Lemma greedy_inv p prev s k x :
  Re.greedy p prev s k = Some x ->
  exists pre pv rest,
    s = pre +:+ rest /\ Py.all_of p pre = true /\ k pv rest = Some x.
Proof.
  revert prev. induction s as [|c s IH]; intros prev H; simpl in H.
  - exists EmptyString, prev, EmptyString. repeat split. exact H.
  - destruct (p c) eqn:Hp.
    + destruct (Re.greedy p (Some c) s k) as [y|] eqn:Hg.
      * inversion H; subst y.
        destruct (IH _ Hg) as (pre & pv & rest & -> & Hall & Hk).
        exists (String c pre), pv, rest. simpl. rewrite Hp, Hall.
        repeat split. exact Hk.
      * exists EmptyString, prev, (String c s). repeat split. exact H.
    + exists EmptyString, prev, (String c s). repeat split. exact H.
Qed.

Lemma greedy_total p prev s k :
  (forall pv rest, k pv rest <> None) -> Re.greedy p prev s k <> None.
Proof.
  intros Hk. revert prev. induction s as [|c s IH]; intros prev; simpl.
  - apply Hk.
  - destruct (p c); [|apply Hk].
    destruct (Re.greedy p (Some c) s k) eqn:Hg; [discriminate|].
    destruct (IH _ Hg).
Qed.

(** [(\d+)] as group [i] *)
Lemma number_group_inv i prev s cs (k : Re.cont) x :
  Re.rmatch (Re.Group i (Re.Plus Py.is_digit)) prev s cs k = Some x ->
  exists d pv rest,
    Py.is_number d /\ k pv rest ((i, d) :: cs) = Some x.
Proof.
  simpl. destruct s as [|c s]; [discriminate|].
  destruct (Py.is_digit c) eqn:Hc; [|discriminate].
  intros H. destruct (greedy_inv _ _ _ _ _ H) as (pre & pv & rest & -> & Hall & Hk).
  exists (String c pre), pv, rest. split.
  - split; [discriminate|]. simpl. rewrite Hc, Hall. reflexivity.
  - change (String c (pre +:+ rest)) with (String c pre +:+ rest) in Hk.
    rewrite consumed_append in Hk. exact Hk.
Qed.

(** [(\.\d+)] as group [i] *)
Lemma dot_number_group_inv i prev s cs (k : Re.cont) x :
  Re.rmatch (Re.Group i dot_number) prev s cs k = Some x ->
  exists d pv rest,
    Py.is_number d /\ k pv rest ((i, "." +:+ d) :: cs) = Some x.
Proof.
  unfold dot_number. destruct s as [|c0 s]; [discriminate|].
  cbn -[Ascii.eqb Re.consumed].
  destruct (Ascii.eqb_spec "." c0) as [<-|]; [|discriminate].
  destruct s as [|c s]; [discriminate|].
  destruct (Py.is_digit c) eqn:Hc; [|discriminate].
  intros H. destruct (greedy_inv _ _ _ _ _ H) as (pre & pv & rest & -> & Hall & Hk).
  exists (String c pre), pv, rest. split.
  - split; [discriminate|]. simpl. rewrite Hc, Hall. reflexivity.
  - change (String "." (String c (pre +:+ rest)))
      with (("." +:+ String c pre) +:+ rest) in Hk.
    rewrite consumed_append in Hk. exact Hk.
Qed.

(** when a group [(\.\d+)] followed by something that always matches
    fails, the text does not start with a dot and a digit, and the same
    group fails there whatever follows *)
Lemma dot_number_group_none i j prev s cs cs' (k k' : @Re.cont T) :
  (forall pv rest c, k pv rest c <> None) ->
  Re.rmatch (Re.Group i dot_number) prev s cs k = None ->
  Re.rmatch (Re.Group j dot_number) prev s cs' k' = None.
Proof.
  intros Hk. unfold dot_number. destruct s as [|c0 s]; [reflexivity|].
  cbn -[Ascii.eqb Re.consumed].
  destruct (Ascii.eqb "." c0); [|reflexivity].
  destruct s as [|c s]; [reflexivity|].
  destruct (Py.is_digit c); [|reflexivity].
  intros H. exfalso. revert H. apply greedy_total. intros pv rest. apply Hk.
Qed.
End MatcherFacts.

Section VersionPattern.
Context {T : Type}.

Lemma rmatch_seq r1 r2 prev s cs (k : @Re.cont T) :
  Re.rmatch (Re.Seq r1 r2) prev s cs k
  = Re.rmatch r1 prev s cs (fun pv rest cs' => Re.rmatch r2 pv rest cs' k).
Proof. reflexivity. Qed.

Lemma rmatch_lit l prev s cs (k : @Re.cont T) :
  Re.rmatch (Re.Lit l) prev s cs k
  = Re.lit l prev s (fun pv rest => k pv rest cs).
Proof. reflexivity. Qed.

Lemma rmatch_opt r prev s cs (k : @Re.cont T) :
  Re.rmatch (Re.Opt r) prev s cs k
  = match Re.rmatch r prev s cs k with
    | Some x => Some x
    | None => k prev s cs
    end.
Proof. reflexivity. Qed.
End VersionPattern.

Lemma match_version_groups (prev : option ascii) (s rest : string)
    (m : Re.captures) :
  Re.match_here version_re prev s = Some (rest, m) -> version_groups m.
Proof.
  unfold Re.match_here, version_re. intros H.
  rewrite rmatch_seq, rmatch_lit in H.
  apply lit_inv in H as (pv0 & s0 & _ & H).
  rewrite rmatch_seq in H.
  apply number_group_inv in H as (d1 & pv1 & s1 & Hd1 & H).
  rewrite rmatch_seq, rmatch_lit in H.
  apply lit_inv in H as (pv2 & s2 & _ & H).
  rewrite rmatch_seq in H.
  apply number_group_inv in H as (d2 & pv3 & s3 & Hd2 & H).
  rewrite rmatch_seq, rmatch_opt in H.
  match type of H with
  | match ?a with _ => _ end = _ => destruct a as [y|] eqn:H3
  end.
  - apply dot_number_group_inv in H3 as (d3 & pv4 & s4 & Hd3 & H3).
    rewrite rmatch_opt in H3.
    match type of H3 with
    | match ?a with _ => _ end = _ => destruct a as [z|] eqn:H4
    end.
    + apply dot_number_group_inv in H4 as (d4 & pv5 & s5 & Hd4 & H4).
      assert (m = [(4%nat, "." +:+ d4); (3%nat, "." +:+ d3); (2%nat, d2);
                   (1%nat, d1)]) as -> by congruence.
      apply groups4; assumption.
    + assert (m = [(3%nat, "." +:+ d3); (2%nat, d2); (1%nat, d1)]) as ->
        by congruence.
      apply groups3; assumption.
  - rewrite rmatch_opt in H.
    erewrite dot_number_group_none in H; [| |exact H3].
    + assert (m = [(2%nat, d2); (1%nat, d1)]) as -> by congruence.
      apply groups2; assumption.
    + intros pv rst c. cbv beta. rewrite rmatch_opt.
      destruct (Re.rmatch (Re.Group 4 dot_number) pv rst c _); discriminate.
Qed.

Lemma search_from_eq (r : Re.regex) (prev : option ascii) (s : string) :
  Re.search_from r prev s
  = match Re.match_here r prev s with
    | Some (_, cs) => Some cs
    | None =>
        match s with
        | String c s' => Re.search_from r (Some c) s'
        | EmptyString => None
        end
    end.
Proof. destruct s; reflexivity. Qed.

Lemma search_version_groups (s : string) (m : Re.captures) :
  Re.search version_re s = Some m -> version_groups m.
Proof.
  unfold Re.search. generalize (@None ascii) as prev.
  induction s as [|c s IH]; intros prev H; rewrite search_from_eq in H;
    destruct (Re.match_here version_re prev _) as [[rest m']|] eqn:Hm.
  - inversion H; subst m'. eapply match_version_groups, Hm.
  - discriminate.
  - inversion H; subst m'. eapply match_version_groups, Hm.
  - eapply IH, H.
Qed.

Lemma digits_val_total (s : string) (acc : Z) :
  Py.all_of Py.is_digit s = true -> exists z, Py.digits_val acc s = Some z.
Proof.
  revert acc. induction s as [|c s IH]; intros acc H; simpl in *.
  - eauto.
  - apply andb_true_iff in H as [Hc Hs]. rewrite Hc. apply IH, Hs.
Qed.

Lemma int_number (d : string) :
  Py.is_number d -> exists z, Py.int d = Some z.
Proof.
  intros [Hne Hall]. unfold Py.int. destruct d as [|c d]; [congruence|].
  apply digits_val_total, Hall.
Qed.

(** ** Version detection *)

Lemma git_version_cached (E : Env) (w : WC) (v : list Z) :
  _memoize_git_version w = Some v -> git_version E w = (Ret v, w).
Proof.
  intros H. unfold git_version, memoize, bind at 1, gets at 1. rewrite H.
  reflexivity.
Qed.

Lemma memoize_after_version_query (E : Env) (w : WC) (out err : string)
    (k : string -> M (list Z)) :
  _memoize_git_version w = None ->
  run E (spawned w) (git_in w ["--version"] None)
    = {| stdout := out; stderr := err; returncode := 0 |} ->
  memoize (output <- try_except (git_run E ["--version"] None) is_GitError
                       (fun error =>
                          logger ERROR "Could not determine git version" [] ;;
                          logger ERROR
                            (match error with GitError m => m | _ => "" end) [] ;;
                          sys_exit 1) ;;
           k output) w
  = match k out (ran (git_in w ["--version"] None) out w) with
    | (Ret v, w') => (Ret v, with_memo (Some v) w')
    | (Raise e, w') => (Raise e, w')
    end.
Proof.
  intros Hmemo Hrun. unfold memoize, bind at 1, gets at 1. rewrite Hmemo.
  unfold bind at 1, bind at 1, try_except. rewrite git_run_eq, Hrun.
  cbn [returncode stdout]. change (0 =? 0)%Z with true. cbv iota zeta.
  unfold ran. destruct (k out _) as [[v|e] w']; reflexivity.
Qed.

Lemma git_version_parsed (E : Env) (w : WC) (out err : string) :
  _memoize_git_version w = None ->
  run E (spawned w) (git_in w ["--version"] None)
    = {| stdout := out; stderr := err; returncode := 0 |} ->
  let w1 := ran (git_in w ["--version"] None) out w in
  match Re.search version_re out with
  | None =>
      git_version E w
      = (Raise (SystemExit 1),
         with_logged (nth 1 (unparsable_lines out) (unsupported_line []))
           (with_logged (nth 0 (unparsable_lines out) (unsupported_line [])) w1))
  | Some m =>
      exists v,
        (2 <= length v <= 4)%nat /\
        git_version E w
        = if Py.tuple_lt v [1; 5]%Z
          then (Raise (SystemExit 1), with_logged (unsupported_line v) w1)
          else (Ret v, with_memo (Some v) w1)
  end.
Proof.
  intros Hmemo Hrun w1.
  unfold git_version. rewrite (memoize_after_version_query E w out err _ Hmemo Hrun).
  fold w1.
  destruct (Re.search version_re out) as [m|] eqn:Hsearch; [|reflexivity].
  pose proof (search_version_groups _ _ Hsearch) as Hshape.
  destruct Hshape as [d1 d2 H1 H2 | d1 d2 d3 H1 H2 H3 | d1 d2 d3 d4 H1 H2 H3 H4].
  - destruct (int_number _ H1) as [a Ha], (int_number _ H2) as [b Hb].
    exists [a; b]. split; [simpl; lia|].
    cbn [Re.group List.find fst snd Nat.eqb fmap option_fmap option_map].
    unfold bind, int_of, int, tail_of, ret. rewrite Ha, Hb. cbv beta iota.
    destruct (Py.tuple_lt [a; b] [1; 5]%Z); reflexivity.
  - destruct (int_number _ H1) as [a Ha], (int_number _ H2) as [b Hb],
      (int_number _ H3) as [c Hc].
    exists [a; b; c]. split; [simpl; lia|].
    cbn [Re.group List.find fst snd Nat.eqb fmap option_fmap option_map].
    change (Py.tail ("." +:+ d3)) with d3.
    unfold bind, int_of, int, tail_of, ret. rewrite Ha, Hb, Hc. cbv beta iota.
    destruct (Py.tuple_lt [a; b; c] [1; 5]%Z); reflexivity.
  - destruct (int_number _ H1) as [a Ha], (int_number _ H2) as [b Hb],
      (int_number _ H3) as [c Hc], (int_number _ H4) as [d Hd].
    exists [a; b; c; d]. split; [simpl; lia|].
    cbn [Re.group List.find fst snd Nat.eqb fmap option_fmap option_map].
    change (Py.tail ("." +:+ d4)) with d4.
    unfold bind, int_of, int, tail_of, ret.
    change (Py.tail ("." +:+ d3)) with d3.
    rewrite Ha, Hb, Hc, Hd. cbv beta iota.
    destruct (Py.tuple_lt [a; b; c; d] [1; 5]%Z); reflexivity.
Qed.



(** ** Submodules *)

(** C8: the code does not get as far as one [git submodule update].  With
    two submodules registered by [git submodule init], the first call of
    [git_update_submodules] raises [NameError] for the unbound name [arv],
    so the checkout fails after the clone and the init, and no update is
    run for either submodule. *)
Theorem registered_submodules_are_not_updated :
  let w := instance (pkg [("submodules", "always")] None) in
  let r := git_checkout two_submodules plain w in
  Re.findall submodule_re two_submodules_out = ["a"; "b"] /\
  fst r = Raise (NameError "arv") /\
  issued w r
  = [git_in w ["clone"; "--quiet"; "https://example/repo.git"; "/tmp/pkg"] None;
     git_in w ["submodule"; "init"] (Some "/tmp/pkg")] /\
  (forall (E : Env) (submodule : string) (w' : WC),
     git_update_submodules submodule w' = (Raise (NameError "arv"), w')).
Proof.
  intros w r. split; [vm_compute; reflexivity|].
  split; [vm_compute; reflexivity|].
  split; [vm_compute; reflexivity|].
  intros E submodule w'. reflexivity.
Qed.

(** ** The feature branch *)

(** C9: a failure of the branch-create step is logged and raised again, so
    it reaches the caller instead of [False]; a failure of the checkout
    step or of the push step is logged and turned into [False]. *)
Theorem branch_create_failure_propagates :
  let w := instance (pkg [] (Some ["main"])) in
  let create := ["branch"; "feature-x"; "remotes/origin/main"] in
  let r := new_feature (feature_env create) plain w in
  (exists m, fst r = Raise (GitError m)) /\
  logged (snd r)
  = [ {| lvl := ERROR;
         msg := "Could not create branch 'feature-x' for 'pkg'.";
         margs := [] |} ] /\
  fst (new_feature (feature_env ["checkout"; "feature-x"]) plain w)
  = Ret false /\
  fst (new_feature (feature_env ["push"; "--set-upstream"; "origin"; "feature-x"])
         plain w)
  = Ret false /\
  fst (new_feature (feature_env []) plain w) = Ret true.
Proof.
  intros w create r.
  split; [eexists; vm_compute; reflexivity|].
  repeat split; vm_compute; reflexivity.
Qed.

(** ** Methods only add to the history *)

Create HintDb appends.

Section Appends.
Context {A B : Type}.

Lemma appends_ret (a : A) : appends (ret a).
Proof. intros w. exists []. simpl. rewrite app_nil_r. reflexivity. Qed.

Lemma appends_raise (e : exn) : appends (@raise A e).
Proof. intros w. exists []. simpl. rewrite app_nil_r. reflexivity. Qed.

Lemma appends_gets (f : WC -> A) : appends (gets f).
Proof. intros w. exists []. simpl. rewrite app_nil_r. reflexivity. Qed.

Lemma appends_bind (m : M A) (f : A -> M B) :
  appends m -> (forall a, appends (f a)) -> appends (bind m f).
Proof.
  intros Hm Hf w. unfold bind. destruct (Hm w) as [l1 H1].
  destruct (m w) as [[a|e] w1]; simpl in H1.
  - destruct (Hf a w1) as [l2 H2]. exists (l1 ++ l2).
    rewrite H2, H1, app_assoc. reflexivity.
  - exists l1. exact H1.
Qed.

Lemma appends_try (body : M A) (catches : exn -> bool) (handler : exn -> M A) :
  appends body -> (forall e, appends (handler e)) ->
  appends (try_except body catches handler).
Proof.
  intros Hm Hh w. unfold try_except. destruct (Hm w) as [l1 H1].
  destruct (body w) as [[a|e] w1]; simpl in H1.
  - exists l1. exact H1.
  - destruct (catches e).
    + destruct (Hh e w1) as [l2 H2]. exists (l1 ++ l2).
      rewrite H2, H1, app_assoc. reflexivity.
    + exists l1. exact H1.
Qed.
End Appends.

Lemma appends_modify (f : WC -> WC) :
  (forall w, spawned (f w) = spawned w) -> appends (modify f).
Proof. intros H w. exists []. simpl. rewrite H, app_nil_r. reflexivity. Qed.

Lemma appends_when (b : bool) (m : M unit) : appends m -> appends (when b m).
Proof. intros H. destruct b; [exact H | apply appends_ret]. Qed.

Lemma appends_for_each {A} (l : list A) (body : A -> M unit) :
  (forall x, appends (body x)) -> appends (for_each l body).
Proof.
  intros H. induction l as [|x l IH]; simpl.
  - apply appends_ret.
  - apply appends_bind; [apply H | intros _; exact IH].
Qed.

Lemma appends_getitem (k : string) : appends (getitem k).
Proof.
  intros w. exists []. unfold getitem.
  destruct (entries (source w) !! k); simpl; rewrite app_nil_r; reflexivity.
Qed.

Lemma appends_git_run (E : Env) (args : list string) (dir : option string) :
  appends (git_run E args dir).
Proof.
  intros w. exists [git_in w args dir]. rewrite git_run_eq. cbv zeta.
  destruct (returncode _ =? 0)%Z; reflexivity.
Qed.

Lemma appends_logger l m args : appends (logger l m args).
Proof. apply appends_modify. reflexivity. Qed.

Lemma appends_output l m args : appends (output l m args).
Proof. apply appends_modify. reflexivity. Qed.

Lemma appends_setitem k v : appends (setitem k v).
Proof. apply appends_modify. reflexivity. Qed.

#[local] Hint Resolve appends_getitem appends_git_run appends_logger
  appends_output appends_setitem : appends.

Ltac appends_step :=
  first
    [ solve [auto with appends]
    | apply appends_ret | apply appends_raise | apply appends_gets
    | apply appends_bind; [|intros ?]
    | apply appends_try; [|intros ?]
    | apply appends_when
    | apply appends_for_each; intros ?
    | apply appends_modify; reflexivity
    | match goal with
      | |- appends (match ?x with _ => _ end) => destruct x
      | |- appends (let _ := _ in _) => cbv zeta
      end ].

Ltac appends := repeat appends_step.

Lemma appends_git_version (E : Env) : appends (git_version E).
Proof.
  unfold git_version, memoize, sys_exit, int_of, int, tail_of. appends.
Qed.
#[local] Hint Resolve appends_git_version : appends.

Lemma appends_remote_branch_prefix (E : Env) : appends (_remote_branch_prefix E).
Proof. unfold _remote_branch_prefix. appends. Qed.
#[local] Hint Resolve appends_remote_branch_prefix : appends.

Lemma appends_git_current_branch (E : Env) dir : appends (git_current_branch E dir).
Proof. unfold git_current_branch. appends. Qed.
#[local] Hint Resolve appends_git_current_branch : appends.

Lemma appends_git_branch_status (E : Env) b : appends (git_branch_status E b).
Proof. unfold git_branch_status. appends. Qed.
#[local] Hint Resolve appends_git_branch_status : appends.

Lemma appends_git_merge_rbranch (E : Env) a : appends (git_merge_rbranch E a).
Proof. unfold git_merge_rbranch, source_get, sys_exit. appends. Qed.

Lemma appends_git_switch_branch (E : Env) a : appends (git_switch_branch E a).
Proof. unfold git_switch_branch, source_get. appends. Qed.
#[local] Hint Resolve appends_git_merge_rbranch appends_git_switch_branch : appends.

Lemma appends_sync_submodules (E : Env) name : appends (sync_submodules E name).
Proof.
  unfold sync_submodules, git_init_submodules, git_update_submodules. appends.
Qed.

Lemma appends_submodules_policy kwargs : appends (submodules_policy kwargs).
Proof. unfold submodules_policy, source_get. appends. Qed.

Lemma appends_verbose_result kwargs : appends (verbose_result kwargs).
Proof. unfold verbose_result, git_output. appends. Qed.
#[local] Hint Resolve appends_sync_submodules appends_submodules_policy
  appends_verbose_result : appends.

(** ** Update *)

Lemma auto_select_branch_frame (E : Env) (w : WC) :
  exists w' pre,
    auto_select_branch E w = (Ret tt, w') /\
    spawned w' = spawned w ++ pre /\
    (pre = [] \/ pre = [git_in w ["symbolic-ref"; "--short"; "HEAD"] None]) /\
    git_executable w' = git_executable w /\
    (forall k, k <> "branch" ->
       entries (source w') !! k = entries (source w) !! k).
Proof.
  unfold auto_select_branch, bind at 1, source_get, gets at 1.
  unfold bind at 1, gets at 1.
  destruct (entries (source w) !! "branch") as [b|];
    [exists w, []; rewrite app_nil_r; auto|].
  destruct (preferred_branches (source w)) as [preferred|];
    [|exists w, []; rewrite app_nil_r; auto].
  unfold bind at 1. rewrite git_current_branch_eq. cbv zeta.
  set (i := git_in w ["symbolic-ref"; "--short"; "HEAD"] None).
  set (w1 := with_git_stdout _ _).
  destruct (returncode _ =? 0)%Z.
  - set (current := Py.strip _).
    assert (Hx : exists x,
      (if negb (Py.mem current preferred) && negb (length preferred =? 0)%nat
       then index preferred 0 else ret current) w1 = (Ret x, w1)).
    { destruct preferred as [|p0 ps].
      - rewrite andb_false_r. eexists; reflexivity.
      - destruct (negb _ && _); eexists; reflexivity. }
    destruct Hx as [x Hx]. unfold bind at 1. rewrite Hx.
    eexists _, [i]. split; [reflexivity|]. split; [reflexivity|].
    split; [auto|]. split; [reflexivity|].
    intros k Hk. cbn. apply lookup_insert_ne. congruence.
  - exists w1, [i]. repeat split; auto.
Qed.

Lemma git_update_starts_with_fetch (E : Env) (kwargs : Kwargs) (w : WC)
    (name path : string) :
  entries (source w) !! "name" = Some name ->
  entries (source w) !! "path" = Some path ->
  exists more,
    spawned (snd (git_update E kwargs w))
    = spawned w ++ git_in w ["fetch"; "--prune"] (Some path) :: more.
Proof.
  intros Hname Hpath.
  unfold git_update, bind at 1, getitem at 1. rewrite Hname.
  unfold bind at 1, getitem at 1. rewrite Hpath.
  unfold bind at 1, output at 1, modify at 1.
  unfold bind at 1. rewrite git_run_eq. cbv zeta.
  destruct (returncode _ =? 0)%Z; [|exists []; reflexivity].
  match goal with
  | |- context [snd (?K ?w2)] =>
      assert (HK : appends K) by (unfold source_has; appends);
      destruct (HK w2) as [more Hmore]; exists more; rewrite Hmore
  end.
  cbn. rewrite <- app_assoc. reflexivity.
Qed.

Lemma update_reaches_dirty_check (E : Env) (kwargs : Kwargs) (w : WC)
    (name path url out1 err1 out2 err2 : string) :
  entries (source w) !! "name" = Some name ->
  entries (source w) !! "path" = Some path ->
  entries (source w) !! "url" = Some url ->
  let show := git_in w ["remote"; "show"; "-n"; "origin"] (Some path) in
  let query := git_in w ["status"; "-s"; "-b"] (Some path) in
  run E (spawned w) show
    = {| stdout := out1; stderr := err1; returncode := 0 |} ->
  run E (spawned w ++ [show]) query
    = {| stdout := out2; stderr := err2; returncode := 0 |} ->
  (2 <= length (Py.split_on Py.nl (Py.strip out2)))%nat ->
  exists w2,
    spawned w2 = spawned w ++ [show; query] /\
    git_executable w2 = git_executable w /\
    entries (source w2) = entries (source w) /\
    update E kwargs w
    = ((if negb (kw_force kwargs)
        then raise (GitError ("Can't update package '" +:+ name +:+
                              "' because it's dirty."))
        else ret tt) ;;
       auto_select_branch E ;;
       git_update E kwargs) w2.
Proof.
  intros Hname Hpath Hurl show query Hshow Hquery Hdirty.
  subst show query.
  set (show := git_in w ["remote"; "show"; "-n"; "origin"] (Some path)) in *.
  set (query := git_in w ["status"; "-s"; "-b"] (Some path)) in *.
  unfold update, bind at 1, getitem at 1. rewrite Hname.
  unfold bind at 1. rewrite (matches_eq E w name path url Hname Hpath Hurl).
  unfold bind at 1. rewrite git_run_eq. unfold _upstream_name. fold show.
  rewrite Hshow.
  cbn [returncode stdout]. change (0 =? 0)%Z with true. cbv iota zeta.
  unfold ret at 1.
  set (w1 := with_git_stdout _ (with_spawned show w)).
  assert (Hwhen : exists w1',
    when (negb (Py.mem url (Py.split_ws out1)))
      (output WARNING ("Can't update package '" +:+ name +:+
                       "' because its URL doesn't match.") []) w1
    = (Ret tt, w1') /\
    spawned w1' = spawned w ++ [show] /\
    git_executable w1' = git_executable w /\
    entries (source w1') = entries (source w)).
  { destruct (Py.mem url (Py.split_ws out1)); eexists; repeat split. }
  destruct Hwhen as (w1' & Hwhen & Hsp & Hexe & Hsrc).
  unfold bind at 1. rewrite Hwhen. clearbody w1. clear Hwhen.
  unfold bind at 1, status, bind at 1, getitem at 1.
  rewrite Hsrc, Hpath.
  unfold bind at 1. rewrite git_run_eq. unfold git_in at 1 2. rewrite Hsp, Hexe.
  fold (git_in w ["status"; "-s"; "-b"] (Some path)). fold query.
  rewrite Hquery.
  cbn [returncode stdout]. change (0 =? 0)%Z with true. cbv iota zeta.
  destruct (Nat.eqb_spec (length (Py.split_on Py.nl (Py.strip out2))) 1) as [He|_];
    [lia|].
  cbn [kw_verbose no_kwargs]. unfold ret at 1. cbn [fst].
  change (negb ("dirty" =? "clean")%string) with true. cbn [andb].
  eexists. split; [|split; [|split; [|reflexivity]]].
  - cbn. rewrite Hsp, <- app_assoc. reflexivity.
  - cbn. exact Hexe.
  - cbn. exact Hsrc.
Qed.

(** C2: when the status query reports a dirty tree (two lines or more),
    [update] without force raises [GitError] after the remote query and the
    status query and runs nothing else, in particular no fetch; with force
    it goes on and runs [git fetch --prune], preceded at most by the query
    for the current branch that auto-selection makes. *)
Theorem update_on_dirty_tree (E : Env) (kwargs : Kwargs) (w : WC)
    (name path url out1 err1 out2 err2 : string) :
  entries (source w) !! "name" = Some name ->
  entries (source w) !! "path" = Some path ->
  entries (source w) !! "url" = Some url ->
  let show := git_in w ["remote"; "show"; "-n"; "origin"] (Some path) in
  let query := git_in w ["status"; "-s"; "-b"] (Some path) in
  let fetch := git_in w ["fetch"; "--prune"] (Some path) in
  let current := git_in w ["symbolic-ref"; "--short"; "HEAD"] None in
  run E (spawned w) show
    = {| stdout := out1; stderr := err1; returncode := 0 |} ->
  run E (spawned w ++ [show]) query
    = {| stdout := out2; stderr := err2; returncode := 0 |} ->
  (2 <= length (Py.split_on Py.nl (Py.strip out2)))%nat ->
  let r := update E kwargs w in
  (kw_force kwargs = false ->
   fst r = Raise (GitError ("Can't update package '" +:+ name +:+
                            "' because it's dirty.")) /\
   issued w r = [show; query]) /\
  (kw_force kwargs = true ->
   exists pre more,
     issued w r = [show; query] ++ pre ++ fetch :: more /\
     (pre = [] \/ pre = [current])).
Proof.
  intros Hname Hpath Hurl show query fetch current Hshow Hquery Hdirty r.
  destruct (update_reaches_dirty_check E kwargs w name path url out1 err1
              out2 err2 Hname Hpath Hurl Hshow Hquery Hdirty)
    as (w2 & Hsp & Hexe & Hsrc & Hupd).
  fold show query in Hsp.
  assert (Hr : r = update E kwargs w) by reflexivity. clearbody r.
  rewrite Hupd in Hr. clear Hupd. split.
  - intros Hforce. rewrite Hforce in Hr. subst r. split; [reflexivity|].
    apply issued_app. exact Hsp.
  - intros Hforce. rewrite Hforce in Hr. cbn [negb] in Hr.
    unfold bind at 1, ret at 1 in Hr. unfold bind at 1 in Hr.
    destruct (auto_select_branch_frame E w2)
      as (w3 & pre & Hauto & Hsp3 & Hpre & Hexe3 & Hsrc3).
    rewrite Hauto in Hr.
    destruct (git_update_starts_with_fetch E kwargs w3 name path) as [more Hmore].
    { rewrite Hsrc3 by discriminate. rewrite Hsrc. exact Hname. }
    { rewrite Hsrc3 by discriminate. rewrite Hsrc. exact Hpath. }
    exists pre, more. split.
    + apply issued_app. subst r. rewrite Hmore, Hsp3, Hsp.
      unfold git_in. rewrite Hexe3, Hexe. fold fetch.
      rewrite <- !app_assoc. reflexivity.
    + unfold git_in in Hpre. rewrite Hexe in Hpre. exact Hpre.
Qed.

Lemma update_on_dirty_tree_witness :
  let w := instance (pkg [] None) in
  fst (update dirty_env plain w)
  = Raise (GitError "Can't update package 'pkg' because it's dirty.").
Proof.
  intros w.
  assert (Hdirty : (2 <= length (Py.split_on Py.nl (Py.strip dirty_out)))%nat)
    by (vm_compute; lia).
  exact (proj1 (proj1 (update_on_dirty_tree dirty_env plain w "pkg" "/tmp/pkg"
                         "https://example/repo.git" "" "" dirty_out ""
                         eq_refl eq_refl eq_refl eq_refl eq_refl Hdirty)
                  eq_refl)).
Defined.

(** ** The version is kept *)

Lemma git_version_memo (E : Env) (w w' : WC) (v : list Z) :
  git_version E w = (Ret v, w') -> _memoize_git_version w' = Some v.
Proof.
  unfold git_version, memoize, bind at 1, gets at 1.
  destruct (_memoize_git_version w) as [v0|] eqn:Hmemo.
  - intros H. inversion H; subst. exact Hmemo.
  - unfold bind at 1.
    match goal with |- context [?f w] => destruct (f w) as [[v1|e] w1] end.
    + intros H. inversion H; subst. reflexivity.
    + discriminate.
Qed.

Lemma git_branch_status_memo (E : Env) (b : string) (w w' : WC) st :
  git_branch_status E b w = (Ret st, w') -> is_Some (_memoize_git_version w').
Proof.
  unfold git_branch_status, bind at 1, getitem.
  destruct (entries (source w) !! "path") as [path|]; [|discriminate].
  unfold bind at 1. rewrite git_run_eq. cbv zeta.
  destruct (returncode _ =? 0)%Z; [|discriminate].
  unfold bind at 1, _remote_branch_prefix, bind at 1.
  match goal with
  | |- context [git_version E ?w1] =>
      destruct (git_version E w1) as [[v|e] w2] eqn:Hv
  end; [|discriminate].
  apply git_version_memo in Hv.
  destruct (Py.tuple_lt v _); intros H; inversion H; subst; eauto.
Qed.

(** * Further properties *)

(** ** The version query *)

(** X2: when [git --version] itself fails, the process is ended with status
    1 after two lines are logged, the second being the message of the
    [GitError]; the failed query is the only process run and nothing is
    cached. *)
Theorem git_version_query_failure (E : Env) (w : WC) (r : ExecResult) :
  _memoize_git_version w = None ->
  run E (spawned w) (git_in w ["--version"] None) = r ->
  returncode r <> 0%Z ->
  let res := git_version E w in
  fst res = Raise (SystemExit 1) /\
  logged (snd res)
  = logged w ++
    undetermined_lines ("'" +:+ String.concat " " [git_executable w; "--version"]
                        +:+ "'" +:+ Py.NL +:+ stdout r +:+ Py.NL +:+ stderr r) /\
  issued w res = [git_in w ["--version"] None] /\
  _memoize_git_version (snd res) = None.
Proof.
  intros Hmemo Hrun Hrc res.
  apply Z.eqb_neq in Hrc.
  set (m := "'" +:+ String.concat " " [git_executable w; "--version"]
            +:+ "'" +:+ Py.NL +:+ stdout r +:+ Py.NL +:+ stderr r).
  assert (Hres : res =
    (Raise (SystemExit 1),
     with_logged {| lvl := ERROR; msg := m; margs := [] |}
       (with_logged {| lvl := ERROR; msg := "Could not determine git version";
                       margs := [] |}
          (ran (git_in w ["--version"] None) (stdout r) w)))).
  { subst res. unfold git_version, memoize, bind at 1, gets at 1.
    rewrite Hmemo.
    unfold bind at 1, bind at 1, try_except. rewrite git_run_eq, Hrun.
    cbv zeta. rewrite Hrc. reflexivity. }
  rewrite Hres. clearbody res.
  split; [reflexivity|]. split.
  - unfold undetermined_lines. cbn. rewrite <- app_assoc. reflexivity.
  - split; [|cbn; exact Hmemo]. apply issued_app. reflexivity.
Qed.

Lemma git_version_query_failure_witness :
  let w := instance (pkg [] None) in
  fst (git_version broken w) = Raise (SystemExit 1).
Proof.
  intros w.
  refine (proj1 (git_version_query_failure broken w (failed "boom")
                   eq_refl eq_refl _)).
  discriminate.
Defined.

(** ** Refusals of the feature branch bootstrap *)

(** X4: [new_feature] gives up with [False] after the one query for the
    current branch, without fetching or cloning and without touching the
    descriptor, when the current branch cannot be read, when there is no
    preferred-branches list or when the current branch is one of the
    preferred ones ("You are not on a feature branch."), and when the
    preferred list is empty ("Did you already setup your branch?"). *)
Theorem new_feature_refuses (E : Env) (kwargs : Kwargs) (w : WC) :
  let query := git_in w ["symbolic-ref"; "--short"; "HEAD"] None in
  let cmd := run E (spawned w) query in
  let current := Py.strip (stdout cmd) in
  let r := new_feature E kwargs w in
  let refused (m : string) :=
    fst r = Ret false /\ issued w r = [query] /\
    source (snd r) = source w /\
    logged (snd r) = logged w ++ [error_line m] in
  (returncode cmd <> 0%Z \/
   preferred_branches (source w) = None \/
   (exists p, preferred_branches (source w) = Some p /\ current ∈ p) ->
   refused "You are not on a feature branch.") /\
  (returncode cmd = 0%Z -> preferred_branches (source w) = Some [] ->
   refused "Did you already setup your branch?").
Proof.
  intros query cmd current r refused.
  assert (Hr : r = new_feature E kwargs w) by reflexivity. clearbody r.
  unfold new_feature, bind at 1 in Hr. rewrite git_current_branch_eq in Hr.
  cbv zeta in Hr. fold query cmd current in Hr.
  unfold bind at 1, gets at 1 in Hr.
  cbn [source with_git_stdout with_spawned] in Hr.
  subst refused. cbv beta. split.
  - intros Hcase.
    assert (Hr' : r = (Ret false,
                       with_logged (error_line "You are not on a feature branch.")
                         (ran query (stdout cmd) w))).
    { destruct (returncode cmd =? 0)%Z eqn:Hrc.
      - destruct Hcase as [Hne | [Hnone | (p & Hp & Hin)]].
        + apply Z.eqb_eq in Hrc. contradiction.
        + rewrite Hnone in Hr. exact Hr.
        + rewrite Hp in Hr. unfold Py.mem in Hr.
          rewrite (bool_decide_eq_true_2 _ Hin) in Hr. exact Hr.
      - destruct (preferred_branches (source w)); exact Hr. }
    rewrite Hr'. split; [reflexivity|]. split; [apply issued_app; reflexivity|].
    split; reflexivity.
  - intros Hrc Hp. apply Z.eqb_eq in Hrc. rewrite Hrc, Hp in Hr.
    rewrite Hr. split; [reflexivity|]. split; [apply issued_app; reflexivity|].
    split; reflexivity.
Qed.

Lemma new_feature_refuses_witness :
  let w := instance (pkg [] (Some ["main"])) in
  fst (new_feature broken plain w) = Ret false.
Proof.
  intros w.
  refine (proj1 (proj1 (new_feature_refuses broken plain w) _)).
  left. discriminate.
Defined.

(** ** The clone *)

Lemma git_checkout_to_clone (E : Env) (kwargs : Kwargs) (w : WC)
    (name path url : string) :
  entries (source w) !! "name" = Some name ->
  entries (source w) !! "path" = Some path ->
  entries (source w) !! "url" = Some url ->
  path_exists E (spawned w) path = false ->
  let branch := entries (source w) !! "branch" in
  let depth := entries (source w) !! "depth" in
  let clone := git_in w (clone_args depth branch url path) None in
  let cmd := run E (spawned w) clone in
  let w1 := ran clone (stdout cmd) (with_output (cloned_line name url branch) w) in
  git_checkout E kwargs w
  = if (returncode cmd =? 0)%Z
    then (has_rev <- source_has "rev" ;;
          when has_rev (git_switch_branch E false) ;;
          has_pushurl <- source_has "pushurl" ;;
          when has_pushurl (git_set_pushurl E) ;;
          update_git_submodules <- submodules_policy kwargs ;;
          when (Py.mem update_git_submodules ["always"; "checkout"])
            (sync_submodules E name) ;;
          verbose_result kwargs) w1
    else (Raise (GitError ("'" +:+ String.concat " "
                                    (git_executable w
                                     :: clone_args depth branch url path)
                           +:+ "'" +:+ Py.NL +:+ stdout cmd +:+ Py.NL
                           +:+ stderr cmd)), w1).
Proof.
  intros Hname Hpath Hurl Hexists branch depth clone cmd w1.
  unfold git_checkout, bind at 1, getitem at 1. rewrite Hname.
  unfold bind at 1, getitem at 1. rewrite Hpath.
  unfold bind at 1, getitem at 1. rewrite Hurl.
  unfold bind at 1, gets at 1. rewrite Hexists.
  unfold bind at 1, source_get at 1, gets at 1. fold branch.
  unfold bind at 1, output at 1, modify at 1.
  unfold bind at 1, source_get at 1, gets at 1.
  cbn [source with_output]. fold depth.
  unfold bind at 1. rewrite git_run_eq. cbv zeta.
  assert (Hargs :
    (match branch with
     | Some b =>
         match depth with
         | Some d => ["clone"; "--quiet"] ++ ["--depth"; d]
         | None => ["clone"; "--quiet"]
         end ++ ["-b"; b]
     | None =>
         match depth with
         | Some d => ["clone"; "--quiet"] ++ ["--depth"; d]
         | None => ["clone"; "--quiet"]
         end
     end ++ [url; path]) = clone_args depth branch url path).
  { unfold clone_args. destruct branch, depth; reflexivity. }
  rewrite Hargs. unfold git_in. cbn [spawned with_output git_executable].
  subst w1 cmd clone. unfold ran, git_in, cloned_line.
  destruct (returncode _ =? 0)%Z; reflexivity.
Qed.

(** X5: on a path that does not exist yet, with no rev, no push URL and a
    submodules policy other than "always" and "checkout", [git_checkout]
    runs exactly one process, [git clone --quiet [--depth d] [-b branch] url
    path], outside any working directory; it queues the "Cloned ..." line and
    leaves the descriptor alone.  It returns [None], or the transcript when
    verbose, if the clone succeeds, and raises [GitError] if it fails. *)
Theorem fresh_checkout_is_one_clone (E : Env) (kwargs : Kwargs) (w : WC)
    (name path url dflt : string) :
  entries (source w) !! "name" = Some name ->
  entries (source w) !! "path" = Some path ->
  entries (source w) !! "url" = Some url ->
  path_exists E (spawned w) path = false ->
  entries (source w) !! "rev" = None ->
  entries (source w) !! "pushurl" = None ->
  kw_submodules kwargs = Some dflt ->
  Py.mem (default dflt (entries (source w) !! "submodules"))
    ["always"; "checkout"] = false ->
  let branch := entries (source w) !! "branch" in
  let depth := entries (source w) !! "depth" in
  let clone := git_in w (clone_args depth branch url path) None in
  let cmd := run E (spawned w) clone in
  let r := git_checkout E kwargs w in
  issued w r = [clone] /\
  _output (snd r) = _output w ++ [cloned_line name url branch] /\
  source (snd r) = source w /\
  (returncode cmd = 0%Z ->
   fst r = Ret (if kw_verbose kwargs
                then Some (String.concat "" (_git_stdout w ++ [stdout cmd]))
                else None)) /\
  (returncode cmd <> 0%Z -> exists m, fst r = Raise (GitError m)).
Proof.
  intros Hname Hpath Hurl Hexists Hrev Hpush Hkw Hpolicy branch depth clone cmd r.
  assert (Hr : r = git_checkout E kwargs w) by reflexivity. clearbody r.
  rewrite (git_checkout_to_clone E kwargs w name path url Hname Hpath Hurl Hexists)
    in Hr.
  cbv zeta in Hr. fold branch depth in Hr. fold clone in Hr. fold cmd in Hr.
  destruct (returncode cmd =? 0)%Z eqn:Hrc.
  - unfold bind at 1, source_has at 1, gets at 1 in Hr.
    cbn [source ran with_git_stdout with_spawned with_output] in Hr.
    rewrite (has_None _ Hrev) in Hr.
    unfold bind at 1, when at 1, ret at 1 in Hr.
    unfold bind at 1, source_has at 1, gets at 1 in Hr.
    cbn [source ran with_git_stdout with_spawned with_output] in Hr.
    rewrite (has_None _ Hpush) in Hr.
    unfold bind at 1, when at 1, ret at 1 in Hr.
    unfold bind at 1, submodules_policy in Hr. rewrite Hkw in Hr.
    unfold bind at 1, source_get, gets at 1 in Hr.
    cbn [source ran with_git_stdout with_spawned with_output] in Hr.
    unfold ret at 1 in Hr. rewrite Hpolicy in Hr.
    unfold bind at 1, when at 1, ret at 1 in Hr.
    unfold verbose_result, git_output in Hr.
    apply Z.eqb_eq in Hrc.
    destruct (kw_verbose kwargs); rewrite Hr;
      (split; [apply issued_app; reflexivity|]);
      (split; [reflexivity|]); (split; [reflexivity|]);
      (split; [reflexivity | intros Hne; contradiction]).
  - apply Z.eqb_neq in Hrc. rewrite Hr.
    split; [apply issued_app; reflexivity|].
    split; [reflexivity|]. split; [reflexivity|].
    split; [intros Heq; contradiction | eexists; reflexivity].
Qed.

Lemma fresh_checkout_is_one_clone_witness :
  let w := instance (pkg [("branch", "dev")] None) in
  issued w (git_checkout quiet plain w)
  = [git_in w ["clone"; "--quiet"; "-b"; "dev"; "https://example/repo.git";
               "/tmp/pkg"] None].
Proof.
  intros w.
  exact (proj1 (fresh_checkout_is_one_clone quiet plain w "pkg" "/tmp/pkg"
                  "https://example/repo.git" "never"
                  eq_refl eq_refl eq_refl eq_refl eq_refl eq_refl eq_refl
                  eq_refl)).
Defined.

(** X6: the default policy [kwargs['submodules']] is read only after the
    clone: a call that passes no [submodules] keyword clones the repository
    and then raises [KeyError], even when the descriptor names a submodules
    policy of its own. *)
Theorem missing_submodules_keyword_fails_after_clone (E : Env) (kwargs : Kwargs)
    (w : WC) (name path url : string) :
  entries (source w) !! "name" = Some name ->
  entries (source w) !! "path" = Some path ->
  entries (source w) !! "url" = Some url ->
  path_exists E (spawned w) path = false ->
  entries (source w) !! "rev" = None ->
  entries (source w) !! "pushurl" = None ->
  kw_submodules kwargs = None ->
  let branch := entries (source w) !! "branch" in
  let depth := entries (source w) !! "depth" in
  let clone := git_in w (clone_args depth branch url path) None in
  returncode (run E (spawned w) clone) = 0%Z ->
  let r := git_checkout E kwargs w in
  fst r = Raise (KeyError "submodules") /\ issued w r = [clone].
Proof.
  intros Hname Hpath Hurl Hexists Hrev Hpush Hkw branch depth clone Hrc r.
  assert (Hr : r = git_checkout E kwargs w) by reflexivity. clearbody r.
  rewrite (git_checkout_to_clone E kwargs w name path url Hname Hpath Hurl Hexists)
    in Hr.
  cbv zeta in Hr. fold branch depth in Hr. fold clone in Hr.
  apply Z.eqb_eq in Hrc. rewrite Hrc in Hr.
  unfold bind at 1, source_has at 1, gets at 1 in Hr.
  cbn [source ran with_git_stdout with_spawned with_output] in Hr.
  rewrite (has_None _ Hrev) in Hr.
  unfold bind at 1, when at 1, ret at 1 in Hr.
  unfold bind at 1, source_has at 1, gets at 1 in Hr.
  cbn [source ran with_git_stdout with_spawned with_output] in Hr.
  rewrite (has_None _ Hpush) in Hr.
  unfold bind at 1, when at 1, ret at 1 in Hr.
  unfold bind at 1, submodules_policy in Hr. rewrite Hkw in Hr.
  rewrite Hr. split; [reflexivity | apply issued_app; reflexivity].
Qed.

Lemma missing_submodules_keyword_fails_after_clone_witness :
  let w := instance (pkg [("submodules", "always")] None) in
  fst (git_checkout quiet bare w) = Raise (KeyError "submodules").
Proof.
  intros w.
  exact (proj1 (missing_submodules_keyword_fails_after_clone quiet bare w "pkg"
                  "/tmp/pkg" "https://example/repo.git"
                  eq_refl eq_refl eq_refl eq_refl eq_refl eq_refl eq_refl
                  eq_refl)).
Defined.

(** ** When update goes ahead *)

Lemma update_after_status (E : Env) (kwargs : Kwargs) (w : WC)
    (name path url out1 err1 out2 err2 : string) :
  entries (source w) !! "name" = Some name ->
  entries (source w) !! "path" = Some path ->
  entries (source w) !! "url" = Some url ->
  let show := git_in w ["remote"; "show"; "-n"; "origin"] (Some path) in
  let query := git_in w ["status"; "-s"; "-b"] (Some path) in
  run E (spawned w) show
    = {| stdout := out1; stderr := err1; returncode := 0 |} ->
  run E (spawned w ++ [show]) query
    = {| stdout := out2; stderr := err2; returncode := 0 |} ->
  exists w2,
    spawned w2 = spawned w ++ [show; query] /\
    git_executable w2 = git_executable w /\
    entries (source w2) = entries (source w) /\
    update E kwargs w
    = ((if negb (String.eqb (label_of out2) "clean") && negb (kw_force kwargs)
        then raise (GitError ("Can't update package '" +:+ name +:+
                              "' because it's dirty."))
        else ret tt) ;;
       auto_select_branch E ;;
       git_update E kwargs) w2.
Proof.
  intros Hname Hpath Hurl show query Hshow Hquery.
  subst show query.
  set (show := git_in w ["remote"; "show"; "-n"; "origin"] (Some path)) in *.
  set (query := git_in w ["status"; "-s"; "-b"] (Some path)) in *.
  unfold update, bind at 1, getitem at 1. rewrite Hname.
  unfold bind at 1. rewrite (matches_eq E w name path url Hname Hpath Hurl).
  unfold bind at 1. rewrite git_run_eq. unfold _upstream_name. fold show.
  rewrite Hshow.
  cbn [returncode stdout]. change (0 =? 0)%Z with true. cbv iota zeta.
  unfold ret at 1.
  set (w1 := with_git_stdout _ (with_spawned show w)).
  assert (Hwhen : exists w1',
    when (negb (Py.mem url (Py.split_ws out1)))
      (output WARNING ("Can't update package '" +:+ name +:+
                       "' because its URL doesn't match.") []) w1
    = (Ret tt, w1') /\
    spawned w1' = spawned w ++ [show] /\
    git_executable w1' = git_executable w /\
    entries (source w1') = entries (source w)).
  { destruct (Py.mem url (Py.split_ws out1)); eexists; repeat split. }
  destruct Hwhen as (w1' & Hwhen & Hsp & Hexe & Hsrc).
  unfold bind at 1. rewrite Hwhen. clearbody w1. clear Hwhen.
  unfold bind at 1, status, bind at 1, getitem at 1.
  rewrite Hsrc, Hpath.
  unfold bind at 1. rewrite git_run_eq. unfold git_in at 1 2. rewrite Hsp, Hexe.
  fold (git_in w ["status"; "-s"; "-b"] (Some path)). fold query.
  rewrite Hquery.
  cbn [returncode stdout]. change (0 =? 0)%Z with true. cbv iota zeta.
  cbn [kw_verbose no_kwargs]. unfold ret at 1. cbn [fst].
  fold (label_of out2).
  eexists. split; [|split; [|split; [|reflexivity]]].
  - cbn. rewrite Hsp, <- app_assoc. reflexivity.
  - cbn. exact Hexe.
  - cbn. exact Hsrc.
Qed.

(** X7: without force, [update] goes on to the fetch exactly when the label
    of the status query is "clean".  A tree that is merely ahead of its
    remote is refused like a dirty one, with the same "it's dirty" error and
    with nothing run after the status query. *)
Theorem update_without_force_needs_clean (E : Env) (kwargs : Kwargs) (w : WC)
    (name path url out1 err1 out2 err2 : string) :
  entries (source w) !! "name" = Some name ->
  entries (source w) !! "path" = Some path ->
  entries (source w) !! "url" = Some url ->
  let show := git_in w ["remote"; "show"; "-n"; "origin"] (Some path) in
  let query := git_in w ["status"; "-s"; "-b"] (Some path) in
  let fetch := git_in w ["fetch"; "--prune"] (Some path) in
  run E (spawned w) show
    = {| stdout := out1; stderr := err1; returncode := 0 |} ->
  run E (spawned w ++ [show]) query
    = {| stdout := out2; stderr := err2; returncode := 0 |} ->
  kw_force kwargs = false ->
  let r := update E kwargs w in
  (label_of out2 = "clean" ->
   exists pre more, issued w r = [show; query] ++ pre ++ fetch :: more) /\
  (label_of out2 <> "clean" ->
   fst r = Raise (GitError ("Can't update package '" +:+ name +:+
                            "' because it's dirty.")) /\
   issued w r = [show; query]).
Proof.
  intros Hname Hpath Hurl show query fetch Hshow Hquery Hforce r.
  destruct (update_after_status E kwargs w name path url out1 err1 out2 err2
              Hname Hpath Hurl Hshow Hquery)
    as (w2 & Hsp & Hexe & Hsrc & Hupd).
  fold show query in Hsp.
  assert (Hr : r = update E kwargs w) by reflexivity. clearbody r.
  rewrite Hupd, Hforce in Hr. clear Hupd. cbn [negb] in Hr.
  rewrite andb_true_r in Hr. split.
  - intros Hclean. rewrite Hclean in Hr.
    change (negb ("clean" =? "clean")%string) with false in Hr.
    unfold bind at 1, ret at 1 in Hr. unfold bind at 1 in Hr.
    destruct (auto_select_branch_frame E w2)
      as (w3 & pre & Hauto & Hsp3 & Hpre & Hexe3 & Hsrc3).
    rewrite Hauto in Hr.
    destruct (git_update_starts_with_fetch E kwargs w3 name path) as [more Hmore].
    { rewrite Hsrc3 by discriminate. rewrite Hsrc. exact Hname. }
    { rewrite Hsrc3 by discriminate. rewrite Hsrc. exact Hpath. }
    exists pre, more. apply issued_app. subst r. rewrite Hmore, Hsp3, Hsp.
    unfold git_in. rewrite Hexe3, Hexe. fold fetch.
    rewrite <- !app_assoc. reflexivity.
  - intros Hne. apply String.eqb_neq in Hne. rewrite Hne in Hr.
    subst r. split; [reflexivity|]. apply issued_app. exact Hsp.
Qed.

Lemma update_without_force_needs_clean_witness :
  let w := instance (pkg [] None) in
  fst (update ahead_env plain w)
  = Raise (GitError "Can't update package 'pkg' because it's dirty.").
Proof.
  intros w.
  refine (proj1 (proj2 (update_without_force_needs_clean ahead_env plain w "pkg"
                          "/tmp/pkg" "https://example/repo.git" "" ""
                          "## master...origin/master [ahead 1]" ""
                          eq_refl eq_refl eq_refl eq_refl eq_refl eq_refl) _)).
  vm_compute. discriminate.
Defined.

(** ** The effects of the methods *)

Lemma transcript_from_snoc (E : Env) (done a : list Invocation) (i : Invocation) :
  transcript_from E done (a ++ [i])
  = transcript_from E done a ++ [stdout (run E (done ++ a) i)].
Proof.
  revert done. induction a as [|x a IH]; intros done; simpl.
  - rewrite app_nil_r. reflexivity.
  - rewrite IH, <- app_assoc. reflexivity.
Qed.

Lemma faithful_ran (E : Env) (w : WC) (i : Invocation) :
  faithful E w -> faithful E (ran i (stdout (run E (spawned w) i)) w).
Proof.
  unfold faithful, transcript. intros H. cbn.
  rewrite transcript_from_snoc, H. reflexivity.
Qed.

Lemma included_elem (l l' : list string) (x : string) :
  included l l' = true -> x ∈ l -> x ∈ l'.
Proof.
  unfold included. intros H Hx. rewrite forallb_forall in H.
  apply list_elem_of_In in Hx. specialize (H x Hx).
  apply bool_decide_eq_true_1 in H. exact H.
Qed.

Section Effects.
Variable E : Env.
Variables cmds keys kinds : list string.

Lemma effect_refl (w : WC) : effect E cmds keys w w.
Proof.
  split; auto. exists []. rewrite app_nil_r. split; [reflexivity | constructor].
Qed.

Lemma effect_trans (w1 w2 w3 : WC) :
  effect E cmds keys w1 w2 -> effect E cmds keys w2 w3 ->
  effect E cmds keys w1 w3.
Proof.
  intros [[m1 [H1 F1]] He1 Hp1 Hk1 Ht1] [[m2 [H2 F2]] He2 Hp2 Hk2 Ht2].
  split.
  - exists (m1 ++ m2). rewrite H2, H1, app_assoc. split; [reflexivity|].
    apply Forall_app. split; assumption.
  - congruence.
  - congruence.
  - intros k Hk. rewrite Hk2, Hk1 by assumption. reflexivity.
  - auto.
Qed.

Lemma framed_ret {A} (a : A) : framed E cmds keys kinds (ret a).
Proof. intros w. split; [apply effect_refl | discriminate]. Qed.

Lemma framed_gets {A} (f : WC -> A) : framed E cmds keys kinds (gets f).
Proof. intros w. split; [apply effect_refl | discriminate]. Qed.

Lemma framed_raise {A} (e : exn) :
  kind e ∈ kinds -> framed E cmds keys kinds (@raise A e).
Proof.
  intros He w. split; [apply effect_refl|].
  intros e' H. inversion H; subst. exact He.
Qed.

Lemma framed_bind {A B} (m : M A) (f : A -> M B) :
  framed E cmds keys kinds m -> (forall a, framed E cmds keys kinds (f a)) ->
  framed E cmds keys kinds (bind m f).
Proof.
  intros Hm Hf w. unfold bind. destruct (Hm w) as [Hr Hj].
  destruct (m w) as [[a|e] w1]; simpl in *.
  - destruct (Hf a w1) as [Hr2 Hj2]. split; [|exact Hj2].
    eapply effect_trans; eassumption.
  - split; [exact Hr|]. intros e' H. inversion H; subst. apply Hj. reflexivity.
Qed.

Lemma framed_try_GitError {A} (body : M A) (handler : exn -> M A) :
  framed E cmds keys ("GitError" :: kinds) body ->
  (forall e, framed E cmds keys kinds (handler e)) ->
  framed E cmds keys kinds (try_except body is_GitError handler).
Proof.
  intros Hb Hh w. unfold try_except. destruct (Hb w) as [Hr Hj].
  destruct (body w) as [[a|e] w1]; simpl in *.
  - split; [exact Hr | discriminate].
  - destruct (is_GitError e) eqn:Hc.
    + destruct (Hh e w1) as [Hr2 Hj2]. split; [|exact Hj2].
      eapply effect_trans; eassumption.
    + split; [exact Hr|]. intros e' H. inversion H; subst e'.
      specialize (Hj e eq_refl). apply elem_of_cons in Hj as [Hj|Hj]; [|exact Hj].
      destruct e; simpl in *; discriminate.
Qed.

Lemma framed_try_any {A} (body : M A) (handler : exn -> M A) :
  framed E cmds keys kinds body ->
  (forall e, kind e ∈ kinds -> framed E cmds keys kinds (handler e)) ->
  framed E cmds keys kinds (try_except body any_exn handler).
Proof.
  intros Hb Hh w. unfold try_except. destruct (Hb w) as [Hr Hj].
  destruct (body w) as [[a|e] w1]; simpl in *.
  - split; [exact Hr | discriminate].
  - destruct (Hh e (Hj e eq_refl) w1) as [Hr2 Hj2]. split; [|exact Hj2].
    eapply effect_trans; eassumption.
Qed.

Lemma framed_when (b : bool) (m : M unit) :
  framed E cmds keys kinds m -> framed E cmds keys kinds (when b m).
Proof. intros H. destruct b; [exact H | apply framed_ret]. Qed.

Lemma framed_for_each {A} (l : list A) (body : A -> M unit) :
  (forall x, framed E cmds keys kinds (body x)) ->
  framed E cmds keys kinds (for_each l body).
Proof.
  intros H. induction l as [|x l IH]; simpl.
  - apply framed_ret.
  - apply framed_bind; [apply H | intros _; exact IH].
Qed.

Lemma framed_modify (f : WC -> WC) :
  (forall w, effect E cmds keys w (f w)) ->
  framed E cmds keys kinds (modify f).
Proof. intros H w. split; [apply H | discriminate]. Qed.

Lemma framed_getitem (k : string) :
  "KeyError" ∈ kinds -> framed E cmds keys kinds (getitem k).
Proof.
  intros Hk w. unfold getitem. destruct (entries (source w) !! k).
  - split; [apply effect_refl | discriminate].
  - split; [apply effect_refl|]. intros e H. inversion H; subst. exact Hk.
Qed.

Lemma framed_logger l m args : framed E cmds keys kinds (logger l m args).
Proof.
  apply framed_modify. intros w. split; auto.
  exists []. rewrite app_nil_r. split; [reflexivity | constructor].
Qed.

Lemma framed_output l m args : framed E cmds keys kinds (output l m args).
Proof.
  apply framed_modify. intros w. split; auto.
  exists []. rewrite app_nil_r. split; [reflexivity | constructor].
Qed.

Lemma framed_with_memo v : framed E cmds keys kinds (modify (with_memo v)).
Proof.
  apply framed_modify. intros w. split; auto.
  exists []. rewrite app_nil_r. split; [reflexivity | constructor].
Qed.

Lemma framed_setitem (k v : string) :
  k ∈ keys -> framed E cmds keys kinds (setitem k v).
Proof.
  intros Hk. apply framed_modify. intros w. split; auto.
  - exists []. rewrite app_nil_r. split; [reflexivity | constructor].
  - intros k' Hk'. cbn. apply lookup_insert_ne. intros ->. contradiction.
Qed.

Lemma framed_git_run (c : string) (rest : list string) (dir : option string) :
  c ∈ cmds -> "GitError" ∈ kinds ->
  framed E cmds keys kinds (git_run E (c :: rest) dir).
Proof.
  intros Hc Hg w. rewrite git_run_eq. cbv zeta.
  assert (He : effect E cmds keys w
                 (ran (git_in w (c :: rest) dir)
                    (stdout (run E (spawned w) (git_in w (c :: rest) dir))) w)).
  { split; auto.
    - exists [git_in w (c :: rest) dir]. split; [reflexivity|].
      constructor; [exact Hc | constructor].
    - apply faithful_ran. }
  destruct (returncode _ =? 0)%Z.
  - split; [exact He | discriminate].
  - split; [exact He|]. intros e H. inversion H; subst. exact Hg.
Qed.
End Effects.

Lemma framed_weaken {A} (E : Env) (cmds keys kinds cmds' keys' kinds' : list string)
    (m : M A) :
  framed E cmds keys kinds m ->
  included cmds cmds' = true -> included keys keys' = true ->
  included kinds kinds' = true ->
  framed E cmds' keys' kinds' m.
Proof.
  intros H Hc Hk Hx w. destruct (H w) as [[[more [Hs Hf]] He Hp Hks Ht] Hj].
  split.
  - split; auto.
    + exists more. split; [exact Hs|].
      eapply Forall_impl; [exact Hf|]. intros i Hi. eapply included_elem; eassumption.
    + intros k Hn. apply Hks. intros Hin. apply Hn.
      eapply included_elem; eassumption.
  - intros e He'. eapply included_elem; [exact Hx|]. apply Hj, He'.
Qed.

(** the classes of exceptions can be established apart from the effect *)
Lemma framed_kinds {A} (E : Env) (cmds keys kinds : list string) (m : M A) :
  framed E cmds keys all_kinds m ->
  (forall w e, fst (m w) = Raise e -> kind e ∈ kinds) ->
  framed E cmds keys kinds m.
Proof. intros H Hj w. split; [apply H | apply Hj]. Qed.

Lemma framed_ext {A} (E : Env) (cmds keys kinds : list string) (m m' : M A) :
  (forall w, m w = m' w) -> framed E cmds keys kinds m' ->
  framed E cmds keys kinds m.
Proof. intros Heq H w. rewrite Heq. apply H. Qed.

Create HintDb effects.

Ltac mem :=
  first [ assumption | refine (bool_decide_unpack _ _); vm_compute; exact I ].

Ltac framed_step :=
  first
    [ eapply framed_weaken;
      [ solve [eauto with effects nocore]
      | vm_compute; reflexivity | vm_compute; reflexivity
      | vm_compute; reflexivity ]
    | apply framed_ret | apply framed_gets
    | apply framed_logger | apply framed_output | apply framed_with_memo
    | apply framed_getitem; mem
    | match goal with
      | |- framed _ _ _ _ (git_run _ ?a _) =>
          match a with
          | context [match ?x with _ => _ end] => destruct x
          end
      | |- framed _ _ _ _ (git_run _ (_ ++ _) _) => progress cbn [app]
      end
    | apply framed_git_run; mem
    | apply framed_setitem; mem
    | apply framed_raise; mem
    | apply framed_bind; [|intros ?]
    | apply framed_try_GitError; [|intros ?]
    | apply framed_try_any; [|intros ? ?]
    | apply framed_when
    | apply framed_for_each; intros ?
    | match goal with
      | |- framed ?E ?c ?k ?x (index (?p :: _) 0%nat) =>
          change (framed E c k x (@ret string p)); apply framed_ret
      | |- framed _ _ _ _ (if (length ?l =? 0)%nat then _ else _) =>
          destruct l; cbn [length Nat.eqb]
      | |- framed _ _ _ _ (match ?x with _ => _ end) => destruct x
      | |- framed _ _ _ _ (let _ := _ in _) => cbv zeta
      end ].

Ltac framed := repeat framed_step.

Lemma effect_git_version (E : Env) :
  framed E ["--version"] [] all_kinds (git_version E).
Proof. unfold git_version, memoize, sys_exit, int_of, int, tail_of. framed. Qed.

Lemma git_version_of_failed_query (E : Env) (w : WC) :
  _memoize_git_version w = None ->
  returncode (run E (spawned w) (git_in w ["--version"] None)) <> 0%Z ->
  fst (git_version E w) = Raise (SystemExit 1).
Proof.
  intros Hmemo Hrc. apply Z.eqb_neq in Hrc.
  unfold git_version, memoize, bind at 1, gets at 1. rewrite Hmemo.
  unfold bind at 1, bind at 1, try_except. rewrite git_run_eq.
  cbv zeta. rewrite Hrc. reflexivity.
Qed.

Lemma git_version_raises_only_exit (E : Env) (w : WC) (e : exn) :
  fst (git_version E w) = Raise e -> kind e ∈ ["SystemExit"].
Proof.
  destruct (_memoize_git_version w) as [v|] eqn:Hmemo.
  - rewrite (git_version_cached E w v Hmemo). discriminate.
  - destruct (run E (spawned w) (git_in w ["--version"] None))
      as [out err rc] eqn:Hrun.
    destruct (Z.eq_dec rc 0%Z) as [->|Hrc].
    + pose proof (git_version_parsed E w out err Hmemo Hrun) as H.
      cbv zeta in H. destruct (Re.search version_re out).
      * destruct H as (v & _ & Hv). rewrite Hv.
        destruct (Py.tuple_lt v _); intros He; inversion He; subst; mem.
      * rewrite H. intros He; inversion He; subst; mem.
    + rewrite (git_version_of_failed_query E w Hmemo).
      * intros He; inversion He; subst; mem.
      * rewrite Hrun. exact Hrc.
Qed.

Lemma effect_git_version_exact (E : Env) :
  framed E ["--version"] [] ["SystemExit"] (git_version E).
Proof.
  apply framed_kinds; [apply effect_git_version|].
  apply git_version_raises_only_exit.
Qed.
#[local] Hint Resolve effect_git_version_exact : effects.

Lemma effect_remote_branch_prefix (E : Env) :
  framed E ["--version"] [] ["SystemExit"] (_remote_branch_prefix E).
Proof. unfold _remote_branch_prefix. framed. Qed.
#[local] Hint Resolve effect_remote_branch_prefix : effects.

Lemma effect_git_current_branch (E : Env) dir :
  framed E ["symbolic-ref"] [] [] (git_current_branch E dir).
Proof. unfold git_current_branch. framed. Qed.
#[local] Hint Resolve effect_git_current_branch : effects.

Lemma effect_git_branch_status (E : Env) b :
  framed E ["branch"; "--version"] [] ["GitError"; "KeyError"; "SystemExit"]
    (git_branch_status E b).
Proof. unfold git_branch_status. framed. Qed.
#[local] Hint Resolve effect_git_branch_status : effects.

Lemma effect_git_merge_rbranch (E : Env) a :
  framed E ["branch"; "--version"; "merge"] []
    ["GitError"; "KeyError"; "SystemExit"] (git_merge_rbranch E a).
Proof. unfold git_merge_rbranch, source_get, sys_exit. framed. Qed.
#[local] Hint Resolve effect_git_merge_rbranch : effects.

Lemma bind_ext {A B} (m : M A) (f g : A -> M B) (w : WC) :
  (forall a w', f a w' = g a w') -> bind m f w = bind m g w.
Proof.
  intros H. unfold bind. destruct (m w) as [[a|e] w']; [apply H | reflexivity].
Qed.

Lemma bind_assoc {A B C} (m : M A) (f : A -> M B) (g : B -> M C) (w : WC) :
  bind (bind m f) g w = bind m (fun a => bind (f a) g) w.
Proof. unfold bind. destruct (m w) as [[a|e] w']; reflexivity. Qed.

(** [git_switch_branch] with the checkout run in each arm of the decision *)
Lemma git_switch_branch_eq (E : Env) (accept_missing : bool) (w : WC) :
  git_switch_branch E accept_missing w
  = (path <- getitem "path" ;;
     branch <- (b <- source_get "branch" ;; ret (default "master" b)) ;;
     st <- git_branch_status E branch ;;
     rev <- source_get "rev" ;;
     match rev with
     | Some rev =>
         output INFO ("Switching to rev '" +:+ rev +:+ "'.") [] ;;
         git_run E ["checkout"; rev] (Some path) ;; ret tt
     | None =>
         if fst st then
           output INFO ("Switching to branch '" +:+ branch +:+ "'.") [] ;;
           git_run E ["checkout"; branch] (Some path) ;; ret tt
         else if snd st then
           prefix <- _remote_branch_prefix E ;;
           output INFO ("Switching to remote branch '" +:+
                        (prefix +:+ "/" +:+ branch) +:+ "'.") [] ;;
           git_run E ["checkout"; "-b"; branch; prefix +:+ "/" +:+ branch]
             (Some path) ;; ret tt
         else if accept_missing then
           output INFO "No such branch %r" [branch]
         else raise (GitError ("No such branch " +:+ branch))
     end) w.
Proof.
  unfold git_switch_branch.
  apply bind_ext; intros path w1.
  apply bind_ext; intros branch w2.
  apply bind_ext; intros st w3.
  apply bind_ext; intros rev w4.
  destruct rev as [rev|].
  - reflexivity.
  - destruct (fst st); [reflexivity|].
    destruct (snd st).
    + rewrite bind_assoc. apply bind_ext; intros prefix w5. reflexivity.
    + destruct accept_missing; reflexivity.
Qed.

Lemma effect_git_switch_branch (E : Env) a :
  framed E ["branch"; "--version"; "checkout"] []
    ["GitError"; "KeyError"; "SystemExit"] (git_switch_branch E a).
Proof.
  eapply framed_ext; [apply git_switch_branch_eq|].
  unfold source_get. framed.
Qed.
#[local] Hint Resolve effect_git_switch_branch : effects.

Lemma effect_git_set_pushurl (E : Env) :
  framed E ["config"] [] ["GitError"; "KeyError"] (git_set_pushurl E).
Proof. unfold git_set_pushurl. framed. Qed.

Lemma effect_sync_submodules (E : Env) name :
  framed E ["submodule"] [] ["GitError"; "KeyError"; "NameError"]
    (sync_submodules E name).
Proof.
  unfold sync_submodules, git_init_submodules, git_update_submodules. framed.
Qed.

Lemma effect_submodules_policy (E : Env) kwargs :
  framed E [] [] ["KeyError"] (submodules_policy kwargs).
Proof. unfold submodules_policy, source_get. framed. Qed.

Lemma effect_verbose_result (E : Env) kwargs :
  framed E [] [] [] (verbose_result kwargs).
Proof. unfold verbose_result, git_output. framed. Qed.
#[local] Hint Resolve effect_git_set_pushurl effect_sync_submodules
  effect_submodules_policy effect_verbose_result : effects.

Lemma effect_git_checkout (E : Env) kwargs :
  framed E ["clone"; "branch"; "--version"; "checkout"; "config"; "submodule"] []
    ["GitError"; "KeyError"; "SystemExit"; "NameError"] (git_checkout E kwargs).
Proof. unfold git_checkout, source_get, source_has. framed. Qed.

Lemma effect_git_update (E : Env) kwargs :
  framed E ["fetch"; "branch"; "--version"; "checkout"; "merge"; "submodule"] []
    ["GitError"; "KeyError"; "SystemExit"; "NameError"] (git_update E kwargs).
Proof. unfold git_update, source_has. framed. Qed.

Lemma effect_status (E : Env) kwargs :
  framed E ["status"] [] ["GitError"; "KeyError"] (status E kwargs).
Proof. unfold status, git_output. framed. Qed.

Lemma effect_matches (E : Env) :
  framed E ["remote"] [] ["GitError"; "KeyError"] (matches E).
Proof. unfold matches, _upstream_name. framed. Qed.
#[local] Hint Resolve effect_git_checkout effect_git_update effect_status
  effect_matches : effects.

Lemma effect_auto_select_branch (E : Env) :
  framed E ["symbolic-ref"] ["branch"] [] (auto_select_branch E).
Proof.
  apply framed_kinds.
  - unfold auto_select_branch, source_get, index. framed.
  - intros w e.
    destruct (auto_select_branch_frame E w) as (w' & pre & H & _).
    rewrite H. discriminate.
Qed.
#[local] Hint Resolve effect_auto_select_branch : effects.

Lemma effect_update (E : Env) kwargs :
  framed E ["remote"; "status"; "symbolic-ref"; "fetch"; "branch"; "--version";
            "checkout"; "merge"; "submodule"] ["branch"]
    ["GitError"; "KeyError"; "SystemExit"; "NameError"] (update E kwargs).
Proof. unfold update. framed. Qed.
#[local] Hint Resolve effect_update : effects.

Lemma effect_checkout (E : Env) kwargs :
  framed E ["remote"; "status"; "symbolic-ref"; "fetch"; "branch"; "--version";
            "checkout"; "merge"; "submodule"; "clone"; "config"] ["branch"]
    ["GitError"; "KeyError"; "SystemExit"; "NameError"] (checkout E kwargs).
Proof. unfold checkout. framed. Qed.

Lemma effect_new_feature (E : Env) kwargs :
  framed E ["symbolic-ref"; "fetch"; "clone"; "branch"; "--version"; "checkout";
            "config"; "submodule"; "push"] []
    ["GitError"; "KeyError"; "SystemExit"; "NameError"] (new_feature E kwargs).
Proof. unfold new_feature, _upstream_name. framed. Qed.

(** ** What the effects say about a run *)

Lemma source_ext (s s' : Source) :
  entries s = entries s' -> preferred_branches s = preferred_branches s' ->
  s = s'.
Proof. destruct s, s'. simpl. intros -> ->. reflexivity. Qed.

Section Readings.
Context {A : Type}.
Variables (E : Env) (cmds keys kinds : list string) (m : M A).
Hypothesis Hm : framed E cmds keys kinds m.

Lemma framed_issued (w : WC) :
  Forall (fun i => subcommand i ∈ cmds) (issued w (m w)).
Proof.
  destruct (Hm w) as [[[more [Hs Hf]] _ _ _ _] _].
  rewrite (issued_app w (m w) more Hs). exact Hf.
Qed.

Lemma framed_raises (w : WC) (e : exn) :
  fst (m w) = Raise e -> kind e ∈ kinds.
Proof. apply Hm. Qed.

Lemma framed_faithful (w : WC) : faithful E w -> faithful E (snd (m w)).
Proof. apply Hm. Qed.

Lemma framed_other_keys (w : WC) (k : string) :
  k ∉ keys -> entries (source (snd (m w))) !! k = entries (source w) !! k.
Proof. apply Hm. Qed.

Lemma framed_preferred (w : WC) :
  preferred_branches (source (snd (m w))) = preferred_branches (source w).
Proof. apply Hm. Qed.
End Readings.

Lemma framed_source {A} (E : Env) (cmds kinds : list string) (m : M A) (w : WC) :
  framed E cmds [] kinds m -> source (snd (m w)) = source w.
Proof.
  intros Hm. destruct (Hm w) as [[_ _ Hp Hk _] _]. apply source_ext; [|exact Hp].
  apply map_eq. intros k. apply Hk. apply not_elem_of_nil.
Qed.

(** X8: the two queries are read-only.  [status] runs nothing but
    [git status] and [matches] nothing but [git remote]; neither writes to
    the descriptor, logs or queues a line, and neither ever ends the
    process. *)
Theorem queries_are_read_only (E : Env) (kwargs : Kwargs) (w : WC) :
  (let r := status E kwargs w in
   Forall (fun i => subcommand i ∈ ["status"]) (issued w r) /\
   source (snd r) = source w /\
   logged (snd r) = logged w /\ _output (snd r) = _output w /\
   (forall code, fst r <> Raise (SystemExit code))) /\
  (let r := matches E w in
   Forall (fun i => subcommand i ∈ ["remote"]) (issued w r) /\
   source (snd r) = source w /\
   logged (snd r) = logged w /\ _output (snd r) = _output w /\
   (forall code, fst r <> Raise (SystemExit code))).
Proof.
  split; cbv zeta.
  - split; [apply (framed_issued E _ _ _ _ (effect_status E kwargs))|].
    split; [apply (framed_source E _ _ _ w (effect_status E kwargs))|].
    assert (Hquiet : logged (snd (status E kwargs w)) = logged w /\
                     _output (snd (status E kwargs w)) = _output w).
    { generalize (eq_refl (status E kwargs w)).
      generalize (status E kwargs w) at 1 3 4 as r. intros r Hr. revert Hr.
      unfold status, bind at 1, getitem.
      destruct (entries (source w) !! "path") as [path|];
        [|intros ->; split; reflexivity].
      unfold bind at 1. rewrite git_run_eq. cbv zeta.
      destruct (returncode _ =? 0)%Z; [|intros ->; split; reflexivity].
      destruct (kw_verbose kwargs); intros ->; split; reflexivity. }
    destruct Hquiet as [Hl Ho]. split; [exact Hl|]. split; [exact Ho|].
    intros code H.
    apply (framed_raises E _ _ _ _ (effect_status E kwargs)) in H.
    cbn [kind] in H.
    repeat (apply elem_of_cons in H; destruct H as [H|H]; [discriminate H|]).
    inversion H.
  - split; [apply (framed_issued E _ _ _ _ (effect_matches E))|].
    split; [apply (framed_source E _ _ _ w (effect_matches E))|].
    assert (Hquiet : logged (snd (matches E w)) = logged w /\
                     _output (snd (matches E w)) = _output w).
    { generalize (eq_refl (matches E w)).
      generalize (matches E w) at 1 3 4 as r. intros r Hr. revert Hr.
      unfold matches, bind at 1, getitem at 1.
      destruct (entries (source w) !! "name") as [name|];
        [|intros ->; split; reflexivity].
      unfold bind at 1, getitem at 1.
      destruct (entries (source w) !! "path") as [path|];
        [|intros ->; split; reflexivity].
      unfold bind at 1. rewrite git_run_eq. cbv zeta.
      destruct (returncode _ =? 0)%Z; [|intros ->; split; reflexivity].
      unfold bind, getitem. cbn [source with_git_stdout with_spawned].
      destruct (entries (source w) !! "url"); intros ->; split; reflexivity. }
    destruct Hquiet as [Hl Ho]. split; [exact Hl|]. split; [exact Ho|].
    intros code H.
    apply (framed_raises E _ _ _ _ (effect_matches E)) in H.
    cbn [kind] in H.
    repeat (apply elem_of_cons in H; destruct H as [H|H]; [discriminate H|]).
    inversion H.
Qed.

(** X9: nothing but branch auto-selection writes to the descriptor once the
    working copy is constructed: [git_checkout], [git_update],
    [git_switch_branch], [git_merge_rbranch] and [new_feature] leave it as it
    is, and [checkout] and [update] change at most its ['branch'] entry. *)
Theorem descriptor_is_written_only_by_auto_selection (E : Env) (kwargs : Kwargs)
    (w : WC) :
  source (snd (git_checkout E kwargs w)) = source w /\
  source (snd (git_update E kwargs w)) = source w /\
  source (snd (new_feature E kwargs w)) = source w /\
  (forall a, source (snd (git_switch_branch E a w)) = source w /\
             source (snd (git_merge_rbranch E a w)) = source w) /\
  (forall k, k <> "branch" ->
     entries (source (snd (checkout E kwargs w))) !! k = entries (source w) !! k /\
     entries (source (snd (update E kwargs w))) !! k = entries (source w) !! k) /\
  preferred_branches (source (snd (checkout E kwargs w)))
  = preferred_branches (source w) /\
  preferred_branches (source (snd (update E kwargs w)))
  = preferred_branches (source w).
Proof.
  split; [apply (framed_source E _ _ _ w (effect_git_checkout E kwargs))|].
  split; [apply (framed_source E _ _ _ w (effect_git_update E kwargs))|].
  split; [apply (framed_source E _ _ _ w (effect_new_feature E kwargs))|].
  split.
  { intros a. split.
    - apply (framed_source E _ _ _ w (effect_git_switch_branch E a)).
    - apply (framed_source E _ _ _ w (effect_git_merge_rbranch E a)). }
  split.
  { intros k Hk.
    assert (Hn : k ∉ ["branch"]).
    { intros Hin. apply list_elem_of_singleton in Hin. contradiction. }
    split.
    - apply (framed_other_keys E _ _ _ _ (effect_checkout E kwargs) w k Hn).
    - apply (framed_other_keys E _ _ _ _ (effect_update E kwargs) w k Hn). }
  split.
  - apply (framed_preferred E _ _ _ _ (effect_checkout E kwargs)).
  - apply (framed_preferred E _ _ _ _ (effect_update E kwargs)).
Qed.

(** X10: which git subcommands an operation can run.  [update] never
    clones, pushes or configures; [checkout] never pushes; [new_feature]
    never merges and never asks for the status or the remote. *)
Theorem subcommands_of_the_operations (E : Env) (kwargs : Kwargs) (w : WC) :
  Forall (fun i => subcommand i ∈
            ["remote"; "status"; "symbolic-ref"; "fetch"; "branch"; "--version";
             "checkout"; "merge"; "submodule"])
    (issued w (update E kwargs w)) /\
  Forall (fun i => subcommand i ∈
            ["remote"; "status"; "symbolic-ref"; "fetch"; "branch"; "--version";
             "checkout"; "merge"; "submodule"; "clone"; "config"])
    (issued w (checkout E kwargs w)) /\
  Forall (fun i => subcommand i ∈
            ["symbolic-ref"; "fetch"; "clone"; "branch"; "--version"; "checkout";
             "config"; "submodule"; "push"])
    (issued w (new_feature E kwargs w)).
Proof.
  split; [apply (framed_issued E _ _ _ _ (effect_update E kwargs))|].
  split; [apply (framed_issued E _ _ _ _ (effect_checkout E kwargs))|].
  apply (framed_issued E _ _ _ _ (effect_new_feature E kwargs)).
Qed.

(** X11: the transcript is faithful.  If [_git_stdout] holds the output of
    every process run so far, in order, it still does after any operation,
    whether the operation returns or raises; so the transcript a verbose
    [status] returns is the concatenation of the outputs of all the
    processes of the history, the status query last. *)
Theorem transcript_stays_faithful (E : Env) (kwargs : Kwargs) (w : WC) :
  faithful E w ->
  faithful E (snd (checkout E kwargs w)) /\
  faithful E (snd (update E kwargs w)) /\
  faithful E (snd (status E kwargs w)) /\
  faithful E (snd (new_feature E kwargs w)) /\
  faithful E (snd (git_checkout E kwargs w)) /\
  faithful E (snd (git_update E kwargs w)) /\
  (forall label out,
     fst (status E kwargs w) = Ret (label, Some out) ->
     out = String.concat "" (transcript E (spawned (snd (status E kwargs w))))).
Proof.
  intros Hf.
  pose proof (framed_faithful E _ _ _ _ (effect_status E kwargs) w Hf) as Hs.
  split; [apply (framed_faithful E _ _ _ _ (effect_checkout E kwargs) w Hf)|].
  split; [apply (framed_faithful E _ _ _ _ (effect_update E kwargs) w Hf)|].
  split; [exact Hs|].
  split; [apply (framed_faithful E _ _ _ _ (effect_new_feature E kwargs) w Hf)|].
  split; [apply (framed_faithful E _ _ _ _ (effect_git_checkout E kwargs) w Hf)|].
  split; [apply (framed_faithful E _ _ _ _ (effect_git_update E kwargs) w Hf)|].
  intros label out Hret. rewrite <- Hs. revert Hret. clear Hs Hf.
  generalize (eq_refl (status E kwargs w)).
  generalize (status E kwargs w) at 2 3 4 as r. intros r Hr.
  unfold status, bind at 1 in Hr.
  destruct (getitem "path" w) as [[path|e] w1]; [|subst r; discriminate].
  unfold bind at 1 in Hr.
  destruct (git_run E ["status"; "-s"; "-b"] (Some path) w1) as [[o|e] w2];
    [|subst r; discriminate].
  destruct (kw_verbose kwargs); [|subst r; discriminate].
  unfold bind, git_output, gets, ret in Hr. subst r. cbn.
  intros H. inversion H. reflexivity.
Qed.

Lemma transcript_stays_faithful_witness :
  let w := instance (pkg [] None) in
  faithful dirty_env (snd (update dirty_env plain w)).
Proof.
  intros w.
  exact (proj1 (proj2 (transcript_stays_faithful dirty_env plain w eq_refl))).
Defined.

(** ** A pinned revision *)

Lemma bind_ext_ret {A B} (m : M A) (f g : A -> M B) (w : WC) :
  (forall a w', m w = (Ret a, w') -> f a w' = g a w') ->
  bind m f w = bind m g w.
Proof.
  intros H. unfold bind. destruct (m w) as [[a|e] w'] eqn:Hm;
    [apply H; reflexivity | reflexivity].
Qed.

Lemma ret_source {A} (E : Env) (cmds kinds : list string) (m : M A)
    (w w' : WC) (a : A) :
  framed E cmds [] kinds m -> m w = (Ret a, w') -> source w' = source w.
Proof.
  intros Hm Hr. pose proof (framed_source E cmds kinds m w Hm) as H.
  rewrite Hr in H. exact H.
Qed.

Lemma git_update_pinned_eq (E : Env) (kwargs : Kwargs) (w : WC) (rv : string) :
  entries (source w) !! "rev" = Some rv ->
  git_update E kwargs w
  = (name <- getitem "name" ;;
     path <- getitem "path" ;;
     output INFO ("Updated '" +:+ name +:+ "' with git.") [] ;;
     git_run E ["fetch"; "--prune"] (Some path) ;;
     git_switch_branch E false ;;
     update_git_submodules <- submodules_policy kwargs ;;
     when (Py.mem update_git_submodules ["always"]) (sync_submodules E name) ;;
     verbose_result kwargs) w.
Proof.
  intros Hrev. unfold git_update.
  apply bind_ext_ret; intros name w1 H1.
  apply (ret_source E [] ["KeyError"]) in H1; [|framed].
  apply bind_ext_ret; intros path w2 H2.
  apply (ret_source E [] ["KeyError"]) in H2; [|framed].
  apply bind_ext_ret; intros u3 w3 H3.
  apply (ret_source E [] []) in H3; [|framed].
  apply bind_ext_ret; intros u4 w4 H4.
  apply (ret_source E ["fetch"] ["GitError"]) in H4; [|framed].
  unfold bind at 1, source_has at 1, gets at 1.
  unfold bind at 1, source_has at 1, gets at 1.
  rewrite H4, H3, H2, H1, (has_Some _ _ Hrev). reflexivity.
Qed.

Lemma getitem_inv (k : string) (w w' : WC) (a : string) :
  getitem k w = (Ret a, w') -> w' = w /\ entries (source w) !! k = Some a.
Proof.
  unfold getitem. destruct (entries (source w) !! k); intros H; inversion H.
  split; reflexivity.
Qed.

Lemma git_branch_status_frame (E : Env) (b : string) (w w1 : WC) st :
  git_branch_status E b w = (Ret st, w1) ->
  source w1 = source w /\ git_executable w1 = git_executable w /\
  exists v, _memoize_git_version w1 = Some v.
Proof.
  intros H. split; [|split].
  - eapply ret_source; [apply effect_git_branch_status | exact H].
  - destruct (effect_git_branch_status E b w) as [[_ He _ _ _] _].
    rewrite H in He. exact He.
  - apply git_branch_status_memo in H. destruct H as [v Hv]. eauto.
Qed.

Lemma bind_ret_inv {A B} (m : M A) (f : A -> M B) (w w' : WC) (b : B) :
  bind m f w = (Ret b, w') ->
  exists a w1, m w = (Ret a, w1) /\ f a w1 = (Ret b, w').
Proof.
  unfold bind. destruct (m w) as [[a|e] w1]; [eauto | discriminate].
Qed.

Lemma git_run_ret_inv (E : Env) (args : list string) (dir : option string)
    (w w' : WC) (out : string) :
  git_run E args dir w = (Ret out, w') ->
  w' = ran (git_in w args dir) out w /\
  out = stdout (run E (spawned w) (git_in w args dir)).
Proof.
  rewrite git_run_eq. cbv zeta. destruct (returncode _ =? 0)%Z; [|discriminate].
  intros H. inversion H. split; reflexivity.
Qed.

Lemma framed_runs {A} (E : Env) (cmds keys kinds : list string) (m : M A)
    (w w' : WC) (r : outcome A) :
  framed E cmds keys kinds m -> m w = (r, w') ->
  git_executable w' = git_executable w /\
  exists more, spawned w' = spawned w ++ more /\
               Forall (fun i => subcommand i ∈ cmds) more.
Proof.
  intros Hm Hr. destruct (Hm w) as [[Hruns Hexe _ _ _] _].
  rewrite Hr in Hruns, Hexe. split; [exact Hexe | exact Hruns].
Qed.

Lemma git_branch_status_issued (E : Env) (b path : string) (w w1 : WC)
    (st : bool * bool) :
  entries (source w) !! "path" = Some path ->
  git_branch_status E b w = (Ret st, w1) ->
  exists vq, spawned w1 = spawned w ++ git_in w ["branch"; "-a"] (Some path) :: vq /\
             Forall (fun i => subcommand i ∈ ["--version"]) vq.
Proof.
  intros Hpath. unfold git_branch_status, bind at 1, getitem. rewrite Hpath.
  unfold bind at 1. rewrite git_run_eq. cbv zeta.
  destruct (returncode _ =? 0)%Z; [|discriminate].
  intros H. apply bind_ret_inv in H. destruct H as (prefix & w2 & Hp & H).
  destruct (framed_runs E _ _ _ _ _ _ _ (effect_remote_branch_prefix E) Hp)
    as (_ & vq & Hvq & Hall).
  inversion H; subst w1. exists vq. split; [|exact Hall].
  rewrite Hvq. cbn. rewrite <- app_assoc. reflexivity.
Qed.

(** X13: with a rev in the descriptor, [git_update] fetches first, never
    merges, and cannot return without having switched to the rev: a run that
    returns has issued the fetch, the listing of branches, the version query
    if the version was not known yet, [git checkout <rev>], and after that
    nothing but submodule commands. *)
Theorem pinned_rev_is_never_merged (E : Env) (kwargs : Kwargs) (w : WC)
    (rv name path : string) :
  entries (source w) !! "rev" = Some rv ->
  entries (source w) !! "name" = Some name ->
  entries (source w) !! "path" = Some path ->
  let r := git_update E kwargs w in
  let fetch := git_in w ["fetch"; "--prune"] (Some path) in
  let listing := git_in w ["branch"; "-a"] (Some path) in
  let switch := git_in w ["checkout"; rv] (Some path) in
  Forall (fun i => subcommand i ∈
            ["fetch"; "branch"; "--version"; "checkout"; "submodule"])
    (issued w r) /\
  (exists more, issued w r = fetch :: more) /\
  (forall x, fst r = Ret x ->
     exists asked more,
       issued w r = fetch :: listing :: asked ++ switch :: more /\
       Forall (fun i => subcommand i ∈ ["--version"]) asked /\
       Forall (fun i => subcommand i ∈ ["submodule"]) more).
Proof.
  intros Hrev Hname Hpath r fetch listing switch.
  split; [|split].
  - subst r. rewrite (git_update_pinned_eq E kwargs w rv Hrev).
    apply (framed_issued E _ [] all_kinds). framed.
  - destruct (git_update_starts_with_fetch E kwargs w name path Hname Hpath)
      as [more Hmore].
    exists more. apply issued_app. exact Hmore.
  - intros x Hx.
    subst r. destruct (git_update E kwargs w) as [o w'] eqn:Hr.
    cbn [fst] in Hx. subst o.
    rewrite (git_update_pinned_eq E kwargs w rv Hrev) in Hr.
    apply bind_ret_inv in Hr. destruct Hr as (name' & w1 & H1 & Hr).
    apply getitem_inv in H1. destruct H1 as [-> _].
    apply bind_ret_inv in Hr. destruct Hr as (path' & w1 & H1 & Hr).
    apply getitem_inv in H1. destruct H1 as [-> Hp'].
    assert (path' = path) by congruence. subst path'. clear Hp'.
    apply bind_ret_inv in Hr. destruct Hr as (u & w1 & H1 & Hr).
    inversion H1; subst w1; clear H1.
    apply bind_ret_inv in Hr. destruct Hr as (out & w1 & H1 & Hr).
    apply git_run_ret_inv in H1. destruct H1 as [-> _].
    apply bind_ret_inv in Hr. destruct Hr as (u' & w5 & Hsw & Hr).
    rewrite git_switch_branch_eq in Hsw.
    apply bind_ret_inv in Hsw. destruct Hsw as (path' & w1 & H1 & Hsw).
    apply getitem_inv in H1. destruct H1 as [-> Hp'].
    cbn in Hp'. assert (path' = path) by congruence. subst path'. clear Hp'.
    apply bind_ret_inv in Hsw. destruct Hsw as (b & w1 & H1 & Hsw).
    inversion H1; subst w1; clear H1.
    apply bind_ret_inv in Hsw. destruct Hsw as (st & w2 & Hst & Hsw).
    destruct (fun H => git_branch_status_issued E _ path _ _ _ H Hst)
      as (asked & Hasked & Hall); [exact Hpath|].
    destruct (git_branch_status_frame E _ _ _ _ Hst) as (Hsrc & Hexe & _).
    apply bind_ret_inv in Hsw. destruct Hsw as (rev' & w1 & H1 & Hsw).
    unfold source_get, gets in H1. rewrite Hsrc in H1. cbn in H1. rewrite Hrev in H1.
    inversion H1; subst rev' w1; clear H1.
    apply bind_ret_inv in Hsw. destruct Hsw as (u2 & w1 & H1 & Hsw).
    inversion H1; subst w1; clear H1.
    apply bind_ret_inv in Hsw. destruct Hsw as (out2 & w1 & H1 & Hsw).
    apply git_run_ret_inv in H1. destruct H1 as [-> _].
    inversion Hsw; subst w5; clear Hsw.
    eapply (framed_runs E ["submodule"] [] all_kinds) in Hr; [|framed].
    destruct Hr as (_ & more & Hmore & Hsub).
    exists asked, more. split; [|split; assumption].
    apply issued_app. cbn [snd]. rewrite Hmore. cbn in Hasked, Hexe |- *.
    rewrite Hasked. subst fetch listing switch. unfold git_in. cbn.
    rewrite Hexe. repeat (rewrite <- app_assoc; cbn [app]).
    reflexivity.
Qed.

Lemma pinned_rev_is_never_merged_witness :
  let w := instance (pkg [("rev", "1.0")] None) in
  let r := git_update modern plain w in
  exists asked more,
    issued w r
    = git_in w ["fetch"; "--prune"] (Some "/tmp/pkg")
      :: git_in w ["branch"; "-a"] (Some "/tmp/pkg")
      :: asked ++ git_in w ["checkout"; "1.0"] (Some "/tmp/pkg") :: more.
Proof.
  intros w r.
  destruct (pinned_rev_is_never_merged modern plain w "1.0" "pkg" "/tmp/pkg"
              eq_refl eq_refl eq_refl) as (_ & _ & H).
  destruct (H None) as (asked & more & Heq & _); [vm_compute; reflexivity|].
  exists asked, more. exact Heq.
Defined.

(** ** Checkout of an existing path, in general *)

Lemma bind_gets {A B} (f : WC -> A) (k : A -> M B) (w : WC) :
  bind (gets f) k w = k (f w) w.
Proof. reflexivity. Qed.

Lemma checkout_existing_eq (E : Env) (kwargs : Kwargs) (w : WC) (path : string) :
  entries (source w) !! "path" = Some path ->
  (forall h, path_exists E h path = true) ->
  (forall s, should_update E s kwargs = false) ->
  checkout E kwargs w
  = (name <- getitem "name" ;;
     path <- getitem "path" ;;
     auto_select_branch E ;;
     m <- matches E ;;
     if m
     then output INFO ("Skipped checkout of existing package '" +:+ name
                       +:+ "'.") [] ;;
          ret None
     else url <- getitem "url" ;;
          output WARNING ("Checkout URL for existing package '" +:+ name
                          +:+ "' differs. Expected '" +:+ url +:+ "'.") [] ;;
          ret None) w.
Proof.
  intros Hpath Hexists Hupd. unfold checkout.
  apply bind_ext_ret; intros name w1 H1.
  apply getitem_inv in H1 as [-> _].
  apply bind_ext_ret; intros p w2 H2.
  apply getitem_inv in H2 as [-> Hp].
  assert (p = path) as -> by congruence.
  apply bind_ext; intros u w3.
  rewrite bind_gets, bind_gets, Hupd, Hexists. reflexivity.
Qed.

(** X14: on a path that exists, and with no update due, [checkout] only
    asks: whatever the descriptor, the only subcommands it can run are
    [symbolic-ref] (for the auto-selection) and [remote]; it fails only
    with a [GitError] or a [KeyError] and returns [None] otherwise. *)
Theorem checkout_without_update_only_asks (E : Env) (kwargs : Kwargs) (w : WC)
    (path : string) :
  entries (source w) !! "path" = Some path ->
  (forall h, path_exists E h path = true) ->
  (forall s, should_update E s kwargs = false) ->
  let r := checkout E kwargs w in
  Forall (fun i => subcommand i ∈ ["symbolic-ref"; "remote"]) (issued w r) /\
  (forall e, fst r = Raise e -> kind e ∈ ["GitError"; "KeyError"]) /\
  (forall x, fst r = Ret x -> x = None).
Proof.
  intros Hpath Hexists Hupd r. subst r.
  rewrite (checkout_existing_eq E kwargs w path Hpath Hexists Hupd).
  match goal with
  | |- context [issued w (?m w)] =>
      assert (Hm : framed E ["symbolic-ref"; "remote"] ["branch"]
                     ["GitError"; "KeyError"] m) by framed;
      set (alt := m) in *
  end.
  split; [apply (framed_issued E _ _ _ _ Hm)|].
  split; [apply (framed_raises E _ _ _ _ Hm)|].
  intros x. subst alt. clear Hm.
  unfold bind at 1. destruct (getitem "name" w) as [[name|e] w1]; [|discriminate].
  unfold bind at 1. destruct (getitem "path" w1) as [[p|e] w2]; [|discriminate].
  unfold bind at 1.
  destruct (auto_select_branch E w2) as [[u|e] w3]; [|discriminate].
  unfold bind at 1. destruct (matches E w3) as [[m|e] w4]; [|discriminate].
  destruct m.
  - unfold bind, output, modify, ret. cbn. intros H. inversion H. reflexivity.
  - unfold bind at 1. destruct (getitem "url" w4) as [[url|e] w5]; [|discriminate].
    unfold bind, output, modify, ret. cbn. intros H. inversion H. reflexivity.
Qed.

Lemma checkout_without_update_only_asks_witness :
  let w := instance (pkg [] (Some ["main"])) in
  Forall (fun i => subcommand i ∈ ["symbolic-ref"; "remote"])
    (issued w (checkout modern plain w)).
Proof.
  intros w.
  refine (proj1 (checkout_without_update_only_asks modern plain w "/tmp/pkg"
                   eq_refl _ _)); reflexivity.
Defined.

(** ** Positioning on a branch *)

Lemma output_then_run (E : Env) (w : WC) l m a (args : list string)
    (dir : option string) :
  spawned (snd ((output l m a ;; git_run E args dir ;; ret tt) w))
  = spawned w ++ [git_in w args dir].
Proof.
  unfold bind at 1, output, modify. unfold bind at 1. rewrite git_run_eq.
  cbv zeta. destruct (returncode _ =? 0)%Z; reflexivity.
Qed.

(** X15: how [git_switch_branch] positions the working copy once the
    listing of branches is read.  A rev wins whatever the listing says; a
    local branch is checked out; a branch that is only on the remote is
    checked out as a new branch tracking [<prefix>/<branch>]; a branch
    that is nowhere is a no-op when missing is accepted and a [GitError],
    with nothing run, when it is not. *)
Theorem git_switch_branch_decides (E : Env) (accept_missing : bool) (w w1 : WC)
    (path : string) (st : bool * bool) :
  entries (source w) !! "path" = Some path ->
  let branch := default "master" (entries (source w) !! "branch") in
  git_branch_status E branch w = (Ret st, w1) ->
  let r := git_switch_branch E accept_missing w in
  let run_after := drop (length (spawned w1)) (spawned (snd r)) in
  match entries (source w) !! "rev" with
  | Some rv => run_after = [git_in w ["checkout"; rv] (Some path)]
  | None =>
      if fst st then run_after = [git_in w ["checkout"; branch] (Some path)]
      else if snd st then
        exists v, _memoize_git_version w1 = Some v /\
          run_after = [git_in w ["checkout"; "-b"; branch;
                                 prefix_of v +:+ "/" +:+ branch] (Some path)]
      else if accept_missing then fst r = Ret tt /\ run_after = []
      else fst r = Raise (GitError ("No such branch " +:+ branch)) /\
           run_after = []
  end.
Proof.
  intros Hpath branch Hst r run_after.
  destruct (git_branch_status_frame E branch w w1 st Hst) as (Hsrc & Hexe & v & Hv).
  assert (Hr : r =
    (rev <- source_get "rev" ;;
     match rev with
     | Some rev =>
         output INFO ("Switching to rev '" +:+ rev +:+ "'.") [] ;;
         git_run E ["checkout"; rev] (Some path) ;; ret tt
     | None =>
         if fst st then
           output INFO ("Switching to branch '" +:+ branch +:+ "'.") [] ;;
           git_run E ["checkout"; branch] (Some path) ;; ret tt
         else if snd st then
           prefix <- _remote_branch_prefix E ;;
           output INFO ("Switching to remote branch '" +:+
                        (prefix +:+ "/" +:+ branch) +:+ "'.") [] ;;
           git_run E ["checkout"; "-b"; branch; prefix +:+ "/" +:+ branch]
             (Some path) ;; ret tt
         else if accept_missing then
           output INFO "No such branch %r" [branch]
         else raise (GitError ("No such branch " +:+ branch))
     end) w1).
  { subst r. rewrite git_switch_branch_eq.
    unfold bind at 1, getitem at 1. rewrite Hpath.
    unfold bind at 1, bind at 1, source_get at 1, gets at 1, ret at 1.
    fold branch. unfold bind at 1. rewrite Hst. reflexivity. }
  subst run_after. rewrite Hr. clearbody r. clear Hr.
  unfold source_get. rewrite bind_gets, Hsrc.
  assert (Hg : forall args d, git_in w1 args d = git_in w args d)
    by (intros; unfold git_in; rewrite Hexe; reflexivity).
  destruct (entries (source w) !! "rev") as [rv|].
  - rewrite output_then_run, drop_app_length, Hg. reflexivity.
  - destruct (fst st).
    + rewrite output_then_run, drop_app_length, Hg. reflexivity.
    + destruct (snd st).
      * exists v. split; [exact Hv|].
        unfold bind at 1, _remote_branch_prefix, bind at 1.
        rewrite (git_version_cached E w1 v Hv).
        assert (Hp : (if Py.tuple_lt v [1; 6; 3]%Z then ret _upstream_name
                      else ret ("remotes/" +:+ _upstream_name)) w1
                     = (Ret (prefix_of v), w1)).
        { unfold prefix_of. destruct (Py.tuple_lt v _); reflexivity. }
        rewrite Hp. rewrite output_then_run, drop_app_length, Hg. reflexivity.
      * destruct accept_missing.
        -- split; [reflexivity|]. cbn. apply drop_all.
        -- split; [reflexivity|]. cbn. apply drop_all.
Qed.

Lemma git_switch_branch_decides_witness :
  let w := instance (pkg [("branch", "dev")] None) in
  let r := git_switch_branch both_env false w in
  drop (length (spawned (snd (git_branch_status both_env "dev" w))))
    (spawned (snd r))
  = [git_in w ["checkout"; "dev"] (Some "/tmp/pkg")].
Proof.
  intros w r.
  assert (Hst : git_branch_status both_env "dev" w
                = (Ret (true, true), snd (git_branch_status both_env "dev" w)))
    by (vm_compute; reflexivity).
  exact (git_switch_branch_decides both_env false w _ "/tmp/pkg" (true, true)
           eq_refl Hst).
Defined.

(** X16: how [git_merge_rbranch] acts once the listing of branches is read.
    When the branch is there both locally and on the remote it merges
    [<prefix>/<branch>]; otherwise it merges nothing, and either returns
    after an info line (missing accepted) or ends the process after an
    error line (missing not accepted). *)
Theorem git_merge_rbranch_decides (E : Env) (accept_missing : bool) (w w1 : WC)
    (path : string) (st : bool * bool) :
  entries (source w) !! "path" = Some path ->
  let branch := default "master" (entries (source w) !! "branch") in
  git_branch_status E branch w = (Ret st, w1) ->
  let r := git_merge_rbranch E accept_missing w in
  let run_after := drop (length (spawned w1)) (spawned (snd r)) in
  if fst st && snd st
  then exists v, _memoize_git_version w1 = Some v /\
         run_after = [git_in w ["merge"; prefix_of v +:+ "/" +:+ branch]
                        (Some path)]
  else run_after = [] /\
       if accept_missing
       then fst r = Ret tt /\
            logged (snd r)
            = logged w1 ++ [{| lvl := INFO; msg := "No such branch %r";
                               margs := [branch] |}]
       else fst r = Raise (SystemExit 1) /\
            logged (snd r) = logged w1 ++ [no_such_branch_line branch].
Proof.
  intros Hpath branch Hst r run_after.
  destruct (git_branch_status_frame E branch w w1 st Hst) as (Hsrc & Hexe & v & Hv).
  assert (Hr : r =
    (if negb (fst st) || negb (snd st)
     then if accept_missing
          then logger INFO "No such branch %r" [branch]
          else logger ERROR "No such branch %r" [branch] ;; sys_exit 1
     else
       prefix <- _remote_branch_prefix E ;;
       path <- getitem "path" ;;
       git_run E ["merge"; prefix +:+ "/" +:+ branch] (Some path) ;;
       ret tt) w1).
  { subst r. unfold git_merge_rbranch.
    unfold bind at 1, bind at 1, source_get at 1, gets at 1, ret at 1.
    fold branch. unfold bind at 1. rewrite Hst. reflexivity. }
  subst run_after. rewrite Hr. clearbody r. clear Hr.
  assert (Hg : forall args d, git_in w1 args d = git_in w args d)
    by (intros; unfold git_in; rewrite Hexe; reflexivity).
  destruct (fst st), (snd st); cbn [negb orb andb].
  - exists v. split; [exact Hv|].
    unfold bind at 1, _remote_branch_prefix, bind at 1.
    rewrite (git_version_cached E w1 v Hv).
    assert (Hp : (if Py.tuple_lt v [1; 6; 3]%Z then ret _upstream_name
                  else ret ("remotes/" +:+ _upstream_name)) w1
                 = (Ret (prefix_of v), w1)).
    { unfold prefix_of. destruct (Py.tuple_lt v _); reflexivity. }
    rewrite Hp. unfold bind at 1, getitem. rewrite Hsrc, Hpath.
    unfold bind at 1. rewrite git_run_eq. cbv zeta. rewrite Hg.
    destruct (returncode _ =? 0)%Z; cbn; rewrite drop_app_length; reflexivity.
  - split; [cbn; destruct accept_missing; apply drop_all|].
    destruct accept_missing; split; reflexivity.
  - split; [cbn; destruct accept_missing; apply drop_all|].
    destruct accept_missing; split; reflexivity.
  - split; [cbn; destruct accept_missing; apply drop_all|].
    destruct accept_missing; split; reflexivity.
Qed.

Lemma git_merge_rbranch_decides_witness :
  let w := instance (pkg [("branch", "dev")] None) in
  let r := git_merge_rbranch both_env false w in
  exists v,
    _memoize_git_version (snd (git_branch_status both_env "dev" w)) = Some v /\
    drop (length (spawned (snd (git_branch_status both_env "dev" w))))
      (spawned (snd r))
    = [git_in w ["merge"; prefix_of v +:+ "/" +:+ "dev"] (Some "/tmp/pkg")].
Proof.
  intros w r.
  assert (Hst : git_branch_status both_env "dev" w
                = (Ret (true, true), snd (git_branch_status both_env "dev" w)))
    by (vm_compute; reflexivity).
  exact (git_merge_rbranch_decides both_env false w _ "/tmp/pkg" (true, true)
           eq_refl Hst).
Defined.

(** ** What a constructed working copy looks like *)

Lemma init_plain (E : Env) (w : WC) :
  entries (source w) !! "revision" = None ->
  entries (source w) !! "branch" = None \/ entries (source w) !! "rev" = None ->
  __init__ E w
  = (Ret tt, with_git_stdout (fun _ => []) (with_git_executable (which_git E) w)).
Proof.
  intros Hrevision Hcase.
  unfold __init__, bind, modify, source_has, gets, getitem, raise, when, ret,
    BaseWorkingCopy__init__; simpl.
  rewrite (has_None _ Hrevision), andb_false_r. simpl.
  rewrite (has_None _ Hrevision). simpl.
  destruct Hcase as [H|H]; rewrite (has_None _ H); [|rewrite andb_false_r];
    reflexivity.
Qed.

Lemma init_rename (E : Env) (w : WC) (v : string) :
  entries (source w) !! "revision" = Some v ->
  entries (source w) !! "rev" = None ->
  __init__ E w =
  (has_branch <- source_has "branch" ;;
   has_rev <- source_has "rev" ;;
   (if has_branch && has_rev
    then branch <- getitem "branch" ;;
         rev <- getitem "rev" ;;
         name <- getitem "name" ;;
         logger ERROR
           "Cannot specify both branch (%s) and rev/revision (%s) in source for %s"
           [branch; rev; name] ;;
         sys_exit 1
    else ret tt) ;;
   modify (with_git_stdout (fun _ => [])) ;;
   BaseWorkingCopy__init__) (renamed v (with_git_executable (which_git E) w)).
Proof.
  intros Hrevision Hrev.
  unfold __init__, bind at 1, modify at 1.
  unfold bind at 1, source_has at 1, gets at 1.
  unfold bind at 1, source_has at 1, gets at 1.
  cbn [source with_git_executable].
  rewrite (has_None _ Hrev), (has_Some _ _ Hrevision). cbn [andb].
  unfold bind at 1, ret at 1.
  unfold bind at 1, source_has at 1, gets at 1.
  cbn [source with_git_executable].
  rewrite (has_Some _ _ Hrevision).
  unfold bind at 1, when, bind at 1, getitem at 1.
  cbn [source with_git_executable]. rewrite Hrevision.
  unfold bind at 1, setitem, modify at 1, delitem.
  cbn [source with_source set_entry entries].
  rewrite lookup_insert_ne by discriminate.
  cbn [source with_git_executable]. rewrite Hrevision.
  reflexivity.
Qed.

Lemma init_fails_on_conflict (E : Env) (w : WC) :
  is_Some (entries (source w) !! "branch") ->
  is_Some (entries (source w) !! "rev") \/
  is_Some (entries (source w) !! "revision") ->
  exists e, fst (__init__ E w) = Raise e.
Proof.
  intros [b Hb] Hcase.
  destruct (entries (source w) !! "rev") as [r|] eqn:Hrev;
    destruct (entries (source w) !! "revision") as [v|] eqn:Hrevision.
  - unfold __init__, bind, modify, source_has, gets, getitem, raise; simpl.
    rewrite (has_Some _ _ Hrev), (has_Some _ _ Hrevision); simpl.
    destruct (entries (source w) !! "name"); eexists; reflexivity.
  - unfold __init__, bind, modify, source_has, gets, getitem, raise; simpl.
    repeat (first [ rewrite (has_Some _ _ Hrev) | rewrite (has_None _ Hrevision)
                   | rewrite (has_Some _ _ Hb) | rewrite Hb | rewrite Hrev ];
            simpl).
    destruct (entries (source w) !! "name"); eexists; reflexivity.
  - rewrite (init_rename E w v Hrevision Hrev).
    set (w1 := renamed v _).
    assert (Hb1 : entries (source w1) !! "branch" = Some b).
    { subst w1. unfold renamed. cbn.
      rewrite lookup_delete_ne by discriminate.
      rewrite lookup_insert_ne by discriminate. exact Hb. }
    assert (Hr1 : entries (source w1) !! "rev" = Some v).
    { subst w1. unfold renamed. cbn.
      rewrite lookup_delete_ne by discriminate. apply lookup_insert_eq. }
    clearbody w1.
    unfold bind, source_has, gets, getitem, logger, modify, sys_exit, raise.
    rewrite (has_Some _ _ Hb1), (has_Some _ _ Hr1). cbn [andb].
    rewrite Hb1, Hr1.
    destruct (entries (source w1) !! "name"); eexists; reflexivity.
  - destruct Hcase as [[? H]|[? H]]; discriminate H.
Qed.

(** X17: a working copy that gets constructed is consistent.  When
    [__init__] returns, the descriptor has no ['revision'] entry and does not
    have both a ['branch'] and a ['rev']; its ['rev'] is the ['rev'] or the
    ['revision'] it came with; every other entry is as it was; no process
    has been run, the transcript is empty and the executable is the one
    found on the path. *)
Theorem constructed_working_copy_is_consistent (E : Env) (w w' : WC) :
  __init__ E w = (Ret tt, w') ->
  entries (source w') !! "revision" = None /\
  ~ (is_Some (entries (source w') !! "branch") /\
     is_Some (entries (source w') !! "rev")) /\
  entries (source w') !! "rev"
  = match entries (source w) !! "rev" with
    | Some r => Some r
    | None => entries (source w) !! "revision"
    end /\
  (forall k, k <> "rev" -> k <> "revision" ->
     entries (source w') !! k = entries (source w) !! k) /\
  spawned w' = spawned w /\ _git_stdout w' = [] /\
  git_executable w' = which_git E.
Proof.
  intros H.
  destruct (entries (source w) !! "revision") as [v|] eqn:Hrevision.
  - destruct (entries (source w) !! "rev") as [r|] eqn:Hrev.
    { destruct (entries (source w) !! "branch") as [b|] eqn:Hb.
      - destruct (init_fails_on_conflict E w) as [e He]; [eauto | eauto |].
        rewrite H in He. discriminate He.
      - exfalso. revert H.
        unfold __init__, bind, modify, source_has, gets, getitem, raise; simpl.
        rewrite (has_Some _ _ Hrev), (has_Some _ _ Hrevision); simpl.
        destruct (entries (source w) !! "name"); discriminate. }
    destruct (entries (source w) !! "branch") as [b|] eqn:Hb.
    { destruct (init_fails_on_conflict E w) as [e He]; [eauto | eauto |].
      rewrite H in He. discriminate He. }
    destruct (init_alias E w v Hrevision Hrev) as [Hnone _].
    rewrite (Hnone Hb) in H. inversion H; subst w'. clear H. cbn.
    split; [apply lookup_delete_eq|].
    split.
    { intros [[x Hx] _]. rewrite lookup_delete_ne in Hx by discriminate.
      rewrite lookup_insert_ne in Hx by discriminate. congruence. }
    split.
    { rewrite lookup_delete_ne by discriminate. apply lookup_insert_eq. }
    split; [|repeat split].
    intros k Hk1 Hk2. rewrite lookup_delete_ne by congruence.
    apply lookup_insert_ne. congruence.
  - destruct (entries (source w) !! "branch") as [b|] eqn:Hb;
      destruct (entries (source w) !! "rev") as [r|] eqn:Hrev.
    + destruct (init_fails_on_conflict E w) as [e He]; [eauto | eauto |].
      rewrite H in He. discriminate He.
    + rewrite (init_plain E w Hrevision (or_intror Hrev)) in H.
      inversion H; subst w'. cbn. rewrite Hrevision, Hrev.
      repeat split; auto. intros [_ [x Hx]]. discriminate Hx.
    + rewrite (init_plain E w Hrevision (or_introl Hb)) in H.
      inversion H; subst w'. cbn. rewrite Hrevision, Hrev, Hb.
      repeat split; auto. intros [[x Hx] _]. discriminate Hx.
    + rewrite (init_plain E w Hrevision (or_introl Hb)) in H.
      inversion H; subst w'. cbn. rewrite Hrevision, Hrev, Hb.
      repeat split; auto. intros [[x Hx] _]. discriminate Hx.
Qed.

Lemma constructed_working_copy_is_consistent_witness :
  let w := instance (pkg [("revision", "1.0")] None) in
  entries (source (snd (__init__ quiet w))) !! "rev" = Some "1.0" /\
  entries (source (snd (__init__ quiet w))) !! "revision" = None.
Proof.
  intros w.
  assert (H : __init__ quiet w = (Ret tt, snd (__init__ quiet w)))
    by (vm_compute; reflexivity).
  destruct (constructed_working_copy_is_consistent quiet w _ H)
    as (Hrevision & _ & Hrev & _).
  split; [exact Hrev | exact Hrevision].
Defined.

(** ** Words, lines and quotes *)

Lemma append_assoc3 (a b c : string) : (a +:+ b) +:+ c = a +:+ b +:+ c.
Proof.
  induction a as [|x a IH]; [reflexivity|].
  rewrite !append_cons, IH. reflexivity.
Qed.

Lemma all_of_app p (a b : string) :
  Py.all_of p (a +:+ b) = Py.all_of p a && Py.all_of p b.
Proof.
  induction a as [|x a IH]; [reflexivity|].
  rewrite append_cons. simpl. rewrite IH, andb_assoc. reflexivity.
Qed.

(** *** The words of a text *)

Lemma delimited_after sep (u s pre : string) :
  delimited sep u s ->
  (exists q c, pre = q +:+ String c "" /\ sep c = true) ->
  delimited sep u (pre +:+ s).
Proof.
  intros (p & post & -> & Hp & Hpost) (q & c & -> & Hc).
  exists ((q +:+ String c "") +:+ p), post. split; [|split].
  - rewrite !append_assoc3. reflexivity.
  - right. destruct Hp as [->|(q' & c' & -> & Hc')].
    + exists q, c. rewrite append_empty_r. auto.
    + exists ((q +:+ String c "") +:+ q'), c'. rewrite !append_assoc3. auto.
  - exact Hpost.
Qed.

Lemma split_ws_go_sound (s : string) : forall (cur : option string) (u : string),
  match cur with
  | Some w => w <> "" /\ Py.all_of not_space w = true
  | None => True
  end ->
  u ∈ Py.split_ws_go cur s ->
  u <> "" /\ Py.all_of not_space u = true /\
  delimited Py.is_space u (default "" cur +:+ s).
Proof.
  induction s as [|c s IH]; intros cur u Hcur Hu.
  - destruct cur as [w|]; simpl in Hu.
    + apply list_elem_of_singleton in Hu. subst u.
      destruct Hcur as [Hne Hall]. repeat split; auto.
      exists "", "". simpl. rewrite append_empty_r. auto.
    + inversion Hu.
  - simpl in Hu. destruct (Py.is_space c) eqn:Hc.
    + destruct cur as [w|].
      * destruct Hcur as [Hne Hall].
        apply elem_of_cons in Hu. destruct Hu as [->|Hu].
        { repeat split; auto. exists "", (String c s). simpl.
          split; [reflexivity|]. split; [auto|]. right. eauto. }
        destruct (IH None u I Hu) as (H1 & H2 & H3).
        repeat split; auto. simpl in H3. rewrite append_nil in H3.
        simpl. change (String c s) with (String c "" +:+ s).
        rewrite <- append_assoc3. apply delimited_after; [exact H3|].
        exists w, c. auto.
      * destruct (IH None u I Hu) as (H1 & H2 & H3).
        repeat split; auto. simpl in *. rewrite append_nil in *.
        change (String c s) with (String c "" +:+ s).
        apply delimited_after; [exact H3|]. exists "", c. auto.
    + assert (Hn : not_space c = true) by (unfold not_space; rewrite Hc; reflexivity).
      destruct cur as [w|].
      * destruct Hcur as [Hne Hall].
        destruct (IH (Some (w +:+ String c "")) u) as (H1 & H2 & H3); auto.
        { split.
          - destruct w; discriminate.
          - rewrite all_of_app, Hall. simpl. rewrite Hn. reflexivity. }
        repeat split; auto. simpl in *.
        rewrite append_assoc3 in H3. exact H3.
      * destruct (IH (Some (String c "")) u) as (H1 & H2 & H3); auto.
        { split; [discriminate|]. simpl. rewrite Hn. reflexivity. }
Qed.

Lemma split_ws_go_token (u : string) : forall (cur : option string) (post : string),
  Py.all_of not_space u = true ->
  (post = "" \/ exists c q, post = String c q /\ Py.is_space c = true) ->
  match cur with Some _ => True | None => u <> "" end ->
  (default "" cur +:+ u) ∈ Py.split_ws_go cur (u +:+ post).
Proof.
  induction u as [|a u IH]; intros cur post Hall Hpost Hcur.
  - destruct cur as [w|]; [|congruence]. simpl. rewrite append_empty_r, append_nil.
    destruct Hpost as [->|(c & q & -> & Hc)]; simpl.
    + apply list_elem_of_singleton. reflexivity.
    + rewrite Hc. apply elem_of_cons. auto.
  - simpl in Hall. apply andb_true_iff in Hall. destruct Hall as [Ha Hall].
    rewrite append_cons. simpl.
    unfold not_space in Ha. apply negb_true_iff in Ha. rewrite Ha.
    destruct cur as [w|]; simpl.
    + specialize (IH (Some (w +:+ String a "")) post Hall Hpost I).
      simpl in IH. rewrite append_assoc3 in IH. exact IH.
    + specialize (IH (Some (String a "")) post Hall Hpost I).
      simpl in IH. exact IH.
Qed.

Lemma split_ws_go_skip (pre : string) : forall (cur : option string) (u s : string),
  (exists q c, pre = q +:+ String c "" /\ Py.is_space c = true) ->
  u ∈ Py.split_ws_go None s ->
  u ∈ Py.split_ws_go cur (pre +:+ s).
Proof.
  induction pre as [|a pre IH]; intros cur u s (q & c & Hq & Hc) Hu.
  - destruct q; discriminate.
  - destruct q as [|a' q].
    + rewrite append_nil in Hq. inversion Hq; subst. rewrite append_cons, append_nil.
      simpl. rewrite Hc. destruct cur; [apply elem_of_cons; right|]; exact Hu.
    + rewrite append_cons in Hq. inversion Hq; subst a' pre.
      rewrite append_cons. simpl.
      destruct (Py.is_space a); [destruct cur; [apply elem_of_cons; right|]|];
        apply IH; eauto.
Qed.

Lemma split_ws_words (u s : string) : u ∈ Py.split_ws s <-> word u s.
Proof.
  split.
  - intros H. apply (split_ws_go_sound s None u I) in H. exact H.
  - intros (Hne & Hall & pre & post & -> & Hpre & Hpost). unfold Py.split_ws.
    assert (Hu : u ∈ Py.split_ws_go None (u +:+ post)).
    { apply (split_ws_go_token u None post Hall Hpost Hne). }
    destruct Hpre as [->|Hpre]; [exact Hu|].
    apply split_ws_go_skip; assumption.
Qed.

(** X18: [matches] compares whole words.  When the query of the remote
    succeeds, [matches] is true exactly when the URL of the descriptor is
    not empty, has no white space in it, and stands in the output of the
    query with white space or an end of the output on either side; a URL
    that is only a part of a word of the output does not match. *)
Theorem matches_compares_whole_words (E : Env) (w : WC) (name path url : string) :
  entries (source w) !! "name" = Some name ->
  entries (source w) !! "path" = Some path ->
  entries (source w) !! "url" = Some url ->
  let cmd := run E (spawned w)
               (git_in w ["remote"; "show"; "-n"; _upstream_name] (Some path)) in
  returncode cmd = 0%Z ->
  exists b, fst (matches E w) = Ret b /\ (b = true <-> word url (stdout cmd)).
Proof.
  intros Hname Hpath Hurl cmd Hrc.
  rewrite (matches_eq E w name path url Hname Hpath Hurl).
  unfold bind. rewrite git_run_eq. cbv zeta. subst cmd. rewrite Hrc. cbn.
  eexists. split; [reflexivity|].
  unfold Py.mem. rewrite bool_decide_eq_true. apply split_ws_words.
Qed.

Lemma matches_compares_whole_words_witness :
  word "https://example/repo.git"
    (stdout (run remote_env []
               (git_in (instance (pkg [] None))
                  ["remote"; "show"; "-n"; "origin"] (Some "/tmp/pkg")))).
Proof.
  destruct (matches_compares_whole_words remote_env (instance (pkg [] None))
              "pkg" "/tmp/pkg" "https://example/repo.git"
              eq_refl eq_refl eq_refl eq_refl) as (b & Hb & Hw).
  apply Hw. vm_compute in Hb. congruence.
Defined.

(** *** Whole lines *)

Lemma lit_app {T} l prev rest (k : option ascii -> string -> option T) :
  (forall pv pv' r, k pv r = k pv' r) ->
  Re.lit l prev (l +:+ rest) k = k prev rest.
Proof.
  intros Hk. revert prev. induction l as [|a l IH]; intros prev.
  - reflexivity.
  - rewrite append_cons. simpl. rewrite Ascii.eqb_refl, IH. apply Hk.
Qed.

Lemma eol_here (pv : option ascii) (s : string) (cs : Re.captures) :
  is_Some (Re.rmatch Re.Eol pv s cs (fun _ rest cs => Some (rest, cs)))
  <-> at_eol s.
Proof.
  unfold at_eol, is_newline. destruct s as [|c s]; simpl.
  - split; eauto.
  - destruct (Ascii.eqb c Py.nl) eqn:Hc.
    + split; eauto.
    + split.
      * intros [x Hx]. discriminate.
      * intros [H|(c' & q & H & Hc')]; [discriminate|].
        inversion H; subst. congruence.
Qed.

Lemma lit_eol_here (l : string) (pv : option ascii) (s : string) (cs : Re.captures) :
  is_Some (Re.rmatch (Re.Seq (Re.Lit l) Re.Eol) pv s cs
             (fun _ rest cs => Some (rest, cs)))
  <-> exists rest, s = l +:+ rest /\ at_eol rest.
Proof.
  rewrite rmatch_seq, rmatch_lit. split.
  - intros [x Hx]. apply lit_inv in Hx. destruct Hx as (pv' & rest & -> & Hk).
    exists rest. split; [reflexivity|]. apply (eol_here pv' rest cs). eauto.
  - intros (rest & -> & Heol). rewrite lit_app.
    + apply (eol_here pv rest cs). exact Heol.
    + intros pv1 pv2 r. destruct r as [|c r]; reflexivity.
Qed.

Lemma search_anchored (r : Re.regex) (Q : string -> Prop) :
  (forall prev s, is_Some (Re.match_here r prev s) <-> at_bol prev = true /\ Q s) ->
  forall s prev,
    is_Some (Re.search_from r prev s) <->
    (at_bol prev = true /\ Q s) \/
    exists q suf, s = q +:+ String Py.nl suf /\ Q suf.
Proof.
  intros Hr. induction s as [|c s IH]; intros prev.
  - rewrite search_from_eq. specialize (Hr prev "").
    destruct (Re.match_here r prev "") as [[rest cs]|].
    + split; [intros _; left; apply Hr; eauto | eauto].
    + split.
      * intros [x Hx]. discriminate.
      * intros [H|(q & suf & H & _)].
        { apply Hr in H. destruct H as [x Hx]. discriminate. }
        destruct q; discriminate.
  - rewrite search_from_eq. specialize (Hr prev (String c s)).
    destruct (Re.match_here r prev (String c s)) as [[rest cs]|].
    + split; [intros _; left; apply Hr; eauto | eauto].
    + rewrite IH. split.
      * intros [[Hb HQ]|(q & suf & -> & HQ)].
        { right. exists "", s. simpl in Hb. apply Ascii.eqb_eq in Hb. subst c.
          split; [reflexivity | exact HQ]. }
        right. exists (String c q), suf. split; [reflexivity | exact HQ].
      * intros [H|(q & suf & H & HQ)].
        { apply Hr in H. destruct H as [x Hx]. discriminate. }
        destruct q as [|c' q].
        { rewrite append_nil in H. inversion H; subst. left.
          split; [apply Ascii.eqb_refl | exact HQ]. }
        rewrite append_cons in H. inversion H; subst. right. eauto.
Qed.

Lemma delimited_lines (l s : string) :
  whole_line l s <->
  (exists rest, s = l +:+ rest /\ at_eol rest) \/
  exists q suf, s = q +:+ String Py.nl suf /\
    exists rest, suf = l +:+ rest /\ at_eol rest.
Proof.
  unfold whole_line, delimited, at_eol. split.
  - intros (pre & post & -> & [->|(q & c & -> & Hc)] & Hpost).
    + left. exists post. rewrite append_nil. auto.
    + right. exists q, (l +:+ post). unfold is_newline in Hc.
      apply Ascii.eqb_eq in Hc. subst c. split.
      * rewrite append_assoc3. reflexivity.
      * eauto.
  - intros [(rest & -> & Hrest)|(q & suf & -> & rest & -> & Hrest)].
    + exists "", rest. rewrite append_nil. auto.
    + exists (q +:+ String Py.nl ""), rest. split; [|split; [|exact Hrest]].
      * rewrite append_assoc3. reflexivity.
      * right. exists q, Py.nl. split; [reflexivity | apply Ascii.eqb_refl].
Qed.

Lemma remote_branch_lines (prefix b out : string) :
  is_Some (Re.search (remote_branch_re prefix b) out)
  <-> whole_line ("  " +:+ prefix +:+ "/" +:+ b) out.
Proof.
  unfold Re.search, remote_branch_re.
  rewrite (search_anchored _
             (fun s => exists rest, s = ("  " +:+ prefix +:+ "/" +:+ b) +:+ rest
                                    /\ at_eol rest)).
  - rewrite delimited_lines. simpl at_bol. intuition.
  - intros prev s. unfold Re.match_here. rewrite rmatch_seq.
    rewrite <- lit_eol_here with (pv := prev) (cs := []).
    destruct prev as [c|]; simpl Re.rmatch at 1; simpl at_bol.
    + destruct (Ascii.eqb c Py.nl).
      * intuition.
      * split; [intros [x Hx]; discriminate | intros [H _]; discriminate].
    + intuition.
Qed.

Lemma local_branch_here (b : string) (prev : option ascii) (s : string) :
  is_Some (Re.match_here (local_branch_re b) prev s) <->
  at_bol prev = true /\
  ((exists rest, s = ("* " +:+ b) +:+ rest /\ at_eol rest) \/
   (exists rest, s = ("  " +:+ b) +:+ rest /\ at_eol rest)).
Proof.
  unfold Re.match_here, local_branch_re. rewrite rmatch_seq.
  assert (Hbody : forall pv,
    is_Some (Re.rmatch
      (Re.Seq (Re.Group 1 (Re.Alt (Re.Lit "*") (Re.Lit " ")))
         (Re.Seq (Re.Lit (" " +:+ b)) Re.Eol)) pv s []
      (fun _ rest cs => Some (rest, cs))) <->
    ((exists rest, s = ("* " +:+ b) +:+ rest /\ at_eol rest) \/
     (exists rest, s = ("  " +:+ b) +:+ rest /\ at_eol rest))).
  { intros pv. rewrite rmatch_seq.
    remember (fun (pv0 : option ascii) (rest : string) (cs' : Re.captures) =>
                Re.rmatch (Re.Seq (Re.Lit (" " +:+ b)) Re.Eol) pv0 rest cs'
                  (fun _ rest0 cs => Some (rest0, cs))) as k eqn:Hk.
    assert (Hk' : forall pv0 rest cs',
               is_Some (k pv0 rest cs') <->
               exists r, rest = (" " +:+ b) +:+ r /\ at_eol r).
    { intros. subst k. apply lit_eol_here. }
    clear Hk.
    destruct s as [|c s].
    { cbn -[Ascii.eqb Re.consumed]. split.
      - intros [x Hx]. discriminate.
      - intros [(rest & H & _)|(rest & H & _)]; discriminate. }
    cbn -[Ascii.eqb Re.consumed String.append].
    destruct (Ascii.eqb_spec "*" c) as [<-|Hstar].
    - change (Ascii.eqb " " "*") with false. cbv iota.
      match goal with
      | |- is_Some (match ?m with Some x => Some x | None => _ end) <-> _ =>
          pose proof (Hk' (Some "*"%char) s [(1%nat, Re.consumed (String "*" s) s)]) as Hm;
          destruct m as [y|]
      end.
      + split; [intros _ | intros _; eexists; reflexivity]. left.
        destruct Hm as [Hm _]. destruct Hm as (rest & -> & Hr); [eauto|].
        exists rest. split; [reflexivity | exact Hr].
      + split.
        * intros [x Hx]. discriminate.
        * intros [(rest & H & Hr)|(rest & H & _)]; [|discriminate].
          exfalso. destruct Hm as [_ Hm].
          destruct Hm as [x Hx]; [|discriminate].
          exists rest. split; [|exact Hr].
          rewrite !append_cons in H. inversion H. reflexivity.
    - destruct (Ascii.eqb_spec " " c) as [<-|Hsp].
      + rewrite Hk'. split.
        * intros (rest & -> & Hr). right. exists rest. split; [reflexivity|exact Hr].
        * intros [(rest & H & _)|(rest & H & Hr)]; [discriminate|].
          exists rest. split; [|exact Hr].
          rewrite !append_cons in H. inversion H. reflexivity.
      + split.
        * intros [x Hx]. discriminate.
        * intros [(rest & H & _)|(rest & H & _)];
            rewrite !append_cons in H; inversion H; congruence. }
  destruct prev as [c|]; simpl Re.rmatch at 1; simpl at_bol.
  - destruct (Ascii.eqb c Py.nl).
    + rewrite (Hbody (Some c)). intuition.
    + split; [intros [x Hx]; discriminate | intros [H _]; discriminate].
  - rewrite (Hbody None). intuition.
Qed.

Lemma local_branch_lines (b out : string) :
  is_Some (Re.search (local_branch_re b) out)
  <-> whole_line ("* " +:+ b) out \/ whole_line ("  " +:+ b) out.
Proof.
  unfold Re.search.
  rewrite (search_anchored _ _ (local_branch_here b)).
  rewrite !delimited_lines. simpl at_bol. split.
  - intros [[_ [H|H]]|(q & suf & Hs & [H|H])]; eauto 10.
  - intros [[H|(q & suf & Hs & H)]|[H|(q & suf & Hs & H)]]; eauto 10.
Qed.

(** X19: [git_branch_status] reads whole lines of the listing.  The branch
    is local exactly when [* <branch>] or two blanks and [<branch>] is a
    whole line of the output of [git branch -a], and remote exactly when
    two blanks and [<prefix>/<branch>] is, for the prefix of the memoized
    version; the name is taken literally, and a longer or shorter name on a
    line does not count. *)
Theorem branches_are_whole_lines (E : Env) (b : string) (w w1 : WC)
    (st : bool * bool) (path : string) :
  entries (source w) !! "path" = Some path ->
  git_branch_status E b w = (Ret st, w1) ->
  let out := stdout (run E (spawned w) (git_in w ["branch"; "-a"] (Some path))) in
  (fst st = true <-> whole_line ("* " +:+ b) out \/ whole_line ("  " +:+ b) out) /\
  exists v, _memoize_git_version w1 = Some v /\
    (snd st = true <-> whole_line ("  " +:+ prefix_of v +:+ "/" +:+ b) out).
Proof.
  intros Hpath H out. revert H.
  unfold git_branch_status, bind at 1, getitem. rewrite Hpath.
  unfold bind at 1. rewrite git_run_eq. cbv zeta.
  destruct (returncode _ =? 0)%Z; [|discriminate].
  unfold bind at 1, _remote_branch_prefix, bind at 1.
  match goal with
  | |- context [git_version E ?w1] =>
      destruct (git_version E w1) as [[v|e] w2] eqn:Hv
  end; [|discriminate].
  apply git_version_memo in Hv. intros H.
  assert (Hst : st = (bool_decide (is_Some (Re.search (local_branch_re b) out)),
                      bool_decide (is_Some (Re.search
                                     (remote_branch_re (prefix_of v) b) out)))
                /\ w1 = w2).
  { unfold prefix_of. destruct (Py.tuple_lt v _); inversion H; subst;
      split; reflexivity. }
  destruct Hst as [-> ->]. cbn [fst snd]. split.
  - rewrite bool_decide_eq_true. apply local_branch_lines.
  - exists v. split; [exact Hv|].
    rewrite bool_decide_eq_true. apply remote_branch_lines.
Qed.

Lemma branches_are_whole_lines_witness :
  let out := stdout (run both_env [] (git_in (instance (pkg [] None))
                                        ["branch"; "-a"] (Some "/tmp/pkg"))) in
  whole_line "* dev" out \/ whole_line "  dev" out.
Proof.
  pose (r := git_branch_status both_env "dev" (instance (pkg [] None))).
  assert (Hr : git_branch_status both_env "dev" (instance (pkg [] None))
               = (Ret (true, true), snd r)) by (vm_compute; reflexivity).
  destruct (branches_are_whole_lines both_env "dev" (instance (pkg [] None))
              (snd r) (true, true) "/tmp/pkg" eq_refl Hr) as [[Hl _] _].
  exact (Hl eq_refl).
Defined.

(** *** Submodules *)

Lemma greedy_none {T} p q prev s (k : option ascii -> string -> option T) :
  Py.all_of q s = true ->
  (forall pv rest, Py.all_of q rest = true -> k pv rest = None) ->
  Re.greedy p prev s k = None.
Proof.
  intros Hs Hk. revert prev Hs. induction s as [|c s IH]; intros prev Hs.
  - apply Hk. reflexivity.
  - simpl. pose proof Hs as Hs'. simpl in Hs'.
    apply andb_true_iff in Hs'. destruct Hs' as [_ Hs'].
    destruct (p c); [rewrite (IH _ Hs')|]; apply Hk; exact Hs.
Qed.

Lemma submodule_re_needs_a_quote (prev : option ascii) (s : string) :
  Py.all_of not_quote s = true -> Re.match_here submodule_re prev s = None.
Proof.
  intros Hs. unfold Re.match_here, submodule_re. rewrite rmatch_seq.
  destruct s as [|c s]; [reflexivity|].
  simpl in Hs. apply andb_true_iff in Hs. destruct Hs as [_ Hs].
  cbn [Re.rmatch]. destruct (Py.is_space c); [|reflexivity].
  apply (greedy_none _ not_quote); [exact Hs|].
  intros pv rest Hrest. destruct rest as [|a rest]; [reflexivity|].
  simpl in Hrest. apply andb_true_iff in Hrest. destruct Hrest as [Ha _].
  unfold not_quote in Ha. apply negb_true_iff in Ha.
  cbn [Re.rmatch]. rewrite Ha. reflexivity.
Qed.

Lemma findall_without_quote (s : string) : forall (skip : nat) (prev : option ascii),
  Py.all_of not_quote s = true -> Re.findall_from submodule_re skip prev s = [].
Proof.
  induction s as [|c s IH]; intros skip prev Hs.
  - destruct skip; [|reflexivity]. cbn [Re.findall_from].
    rewrite submodule_re_needs_a_quote by exact Hs. reflexivity.
  - pose proof Hs as Hs'. simpl in Hs'.
    apply andb_true_iff in Hs'. destruct Hs' as [_ Hs'].
    destruct skip; cbn [Re.findall_from].
    + rewrite submodule_re_needs_a_quote by exact Hs. apply IH, Hs'.
    + apply IH, Hs'.
Qed.

(** X20: when [git submodule init] succeeds and prints no quote character,
    no submodule counts as registered: the loop over the submodules ends
    normally after that one process, and the unbound name in
    [git_update_submodules] is never reached. *)
Theorem nothing_registered_nothing_updated (E : Env) (name path : string) (w : WC) :
  entries (source w) !! "path" = Some path ->
  let i := git_in w ["submodule"; "init"] (Some path) in
  let cmd := run E (spawned w) i in
  returncode cmd = 0%Z ->
  Py.all_of not_quote (stdout cmd) = true ->
  sync_submodules E name w = (Ret tt, ran i (stdout cmd) w).
Proof.
  intros Hpath i cmd Hrc Hq.
  unfold sync_submodules, bind at 1, git_init_submodules, bind at 1, getitem.
  rewrite Hpath. unfold bind at 1. rewrite git_run_eq. cbv zeta.
  fold i. fold cmd. rewrite Hrc. cbn [Z.eqb]. unfold ret at 1.
  unfold Re.findall. rewrite findall_without_quote by exact Hq.
  reflexivity.
Qed.

Lemma nothing_registered_nothing_updated_witness :
  sync_submodules quiet "pkg" (instance (pkg [] None))
  = (Ret tt, ran (git_in (instance (pkg [] None)) ["submodule"; "init"]
                    (Some "/tmp/pkg")) "" (instance (pkg [] None))).
Proof.
  exact (nothing_registered_nothing_updated quiet "pkg" "/tmp/pkg"
           (instance (pkg [] None)) eq_refl eq_refl eq_refl).
Defined.

(** * Where the process is ended *)

Create HintDb causes.

Section ExitsOnly.
Context {A B : Type}.
Variable C : WC -> Prop.

Lemma exits_only_ret (a : A) : exits_only C (ret a).
Proof. intros w c H. discriminate H. Qed.

Lemma exits_only_gets (f : WC -> A) : exits_only C (gets f).
Proof. intros w c H. discriminate H. Qed.

Lemma exits_only_raise (e : exn) :
  (forall c, e <> SystemExit c) -> exits_only C (@raise A e).
Proof. intros He w c H. inversion H. destruct (He c). assumption. Qed.

Lemma ends_only_bind (m : M A) (f : A -> M B) (w : WC) :
  ends_only C (m w) ->
  (forall a w', m w = (Ret a, w') -> ends_only C (f a w')) ->
  ends_only C (bind m f w).
Proof.
  intros Hm Hf. unfold bind. destruct (m w) as [[a|e] w1] eqn:Hmw.
  - apply Hf. reflexivity.
  - intros c Hc. apply (Hm c). simpl in *. congruence.
Qed.

Lemma exits_only_bind (m : M A) (f : A -> M B) :
  exits_only C m -> (forall a, exits_only C (f a)) -> exits_only C (bind m f).
Proof.
  intros Hm Hf w. apply ends_only_bind; [apply Hm|].
  intros a w' _. apply Hf.
Qed.

Lemma exits_only_try (body : M A) (handler : exn -> M A) :
  exits_only C body -> (forall e, exits_only C (handler e)) ->
  exits_only C (try_except body is_GitError handler).
Proof.
  intros Hb Hh w. unfold try_except. pose proof (Hb w) as Hbw.
  destruct (body w) as [[a|e] w1].
  - exact Hbw.
  - destruct e; simpl; try exact Hbw. apply Hh.
Qed.
End ExitsOnly.

Lemma ends_only_weaken {A} (C C' : WC -> Prop) (r : outcome A * WC) :
  (forall w, C w -> C' w) -> ends_only C r -> ends_only C' r.
Proof. intros HC Hr c Hc. destruct (Hr c Hc) as [H1 H2]. auto. Qed.

Lemma exits_only_weaken {A} (C C' : WC -> Prop) (m : M A) :
  (forall w, C w -> C' w) -> exits_only C m -> exits_only C' m.
Proof. intros HC Hm w. eapply ends_only_weaken; [exact HC | apply Hm]. Qed.

Lemma exits_only_never {A} (C : WC -> Prop) (m : M A) :
  exits_only never m -> exits_only C m.
Proof. apply exits_only_weaken. intros w []. Qed.

Lemma exits_only_modify C (f : WC -> WC) : exits_only C (modify f).
Proof. intros w c H. discriminate H. Qed.

Lemma exits_only_when C (b : bool) (m : M unit) :
  exits_only C m -> exits_only C (when b m).
Proof. intros H. destruct b; [exact H | apply exits_only_ret]. Qed.

Lemma exits_only_for_each {A} C (l : list A) (body : A -> M unit) :
  (forall x, exits_only C (body x)) -> exits_only C (for_each l body).
Proof.
  intros H. induction l as [|x l IH]; simpl.
  - apply exits_only_ret.
  - apply exits_only_bind; [apply H | intros _; exact IH].
Qed.

Lemma exits_only_getitem C (k : string) : exits_only C (getitem k).
Proof.
  intros w c. unfold getitem.
  destruct (entries (source w) !! k); intros H; discriminate H.
Qed.

Lemma exits_only_delitem C (k : string) : exits_only C (delitem k).
Proof.
  intros w c. unfold delitem.
  destruct (entries (source w) !! k); intros H; discriminate H.
Qed.

Lemma exits_only_git_run C (E : Env) (args : list string) (dir : option string) :
  exits_only C (git_run E args dir).
Proof.
  intros w c. rewrite git_run_eq. cbv zeta.
  destruct (returncode _ =? 0)%Z; intros H; discriminate H.
Qed.

Lemma exits_only_logger C l m args : exits_only C (logger l m args).
Proof. apply exits_only_modify. Qed.

Lemma exits_only_output C l m args : exits_only C (output l m args).
Proof. apply exits_only_modify. Qed.

Lemma exits_only_index C (l : list string) (i : nat) : exits_only C (index l i).
Proof.
  intros w c. unfold index. destruct (l !! i); intros H; discriminate H.
Qed.

#[local] Hint Resolve exits_only_getitem exits_only_delitem exits_only_git_run
  exits_only_modify exits_only_logger exits_only_output exits_only_index : causes.

Ltac causes_step :=
  first
    [ solve [auto with causes nocore]
    | apply exits_only_never; solve [auto with causes nocore]
    | apply exits_only_ret | apply exits_only_gets
    | apply exits_only_raise; intros ?; discriminate
    | apply exits_only_bind; [|intros ?]
    | apply exits_only_try; [|intros ?]
    | apply exits_only_when
    | apply exits_only_for_each; intros ?
    | match goal with
      | |- exits_only _ (match ?x with _ => _ end) => destruct x
      | |- exits_only _ (let _ := _ in _) => cbv zeta
      end ].

Ltac causes := repeat causes_step.

Lemma git_version_read (E : Env) (w : WC) (out err : string) (m : Re.captures) :
  _memoize_git_version w = None ->
  run E (spawned w) (git_in w ["--version"] None)
    = {| stdout := out; stderr := err; returncode := 0 |} ->
  Re.search version_re out = Some m ->
  let w1 := ran (git_in w ["--version"] None) out w in
  exists v,
    read_version m = Some v /\
    git_version E w
    = if Py.tuple_lt v [1; 5]%Z
      then (Raise (SystemExit 1), with_logged (unsupported_line v) w1)
      else (Ret v, with_memo (Some v) w1).
Proof.
  intros Hmemo Hrun Hsearch w1.
  unfold git_version. rewrite (memoize_after_version_query E w out err _ Hmemo Hrun).
  fold w1. rewrite Hsearch.
  pose proof (search_version_groups _ _ Hsearch) as Hshape.
  destruct Hshape as [d1 d2 H1 H2 | d1 d2 d3 H1 H2 H3 | d1 d2 d3 d4 H1 H2 H3 H4].
  - destruct (int_number _ H1) as [a Ha], (int_number _ H2) as [b Hb].
    exists [a; b]. split.
    { unfold read_version.
      cbn [Re.group List.find fst snd Nat.eqb fmap option_fmap option_map
           mbind option_bind].
      rewrite Ha, Hb. reflexivity. }
    cbn [Re.group List.find fst snd Nat.eqb fmap option_fmap option_map].
    unfold bind, int_of, int, tail_of, ret. rewrite Ha, Hb. cbv beta iota.
    destruct (Py.tuple_lt [a; b] [1; 5]%Z); reflexivity.
  - destruct (int_number _ H1) as [a Ha], (int_number _ H2) as [b Hb],
      (int_number _ H3) as [c Hc].
    exists [a; b; c]. split.
    { unfold read_version.
      cbn [Re.group List.find fst snd Nat.eqb fmap option_fmap option_map
           mbind option_bind].
      change (Py.tail ("." +:+ d3)) with d3.
      rewrite Ha, Hb, Hc. reflexivity. }
    cbn [Re.group List.find fst snd Nat.eqb fmap option_fmap option_map].
    change (Py.tail ("." +:+ d3)) with d3.
    unfold bind, int_of, int, tail_of, ret. rewrite Ha, Hb, Hc. cbv beta iota.
    destruct (Py.tuple_lt [a; b; c] [1; 5]%Z); reflexivity.
  - destruct (int_number _ H1) as [a Ha], (int_number _ H2) as [b Hb],
      (int_number _ H3) as [c Hc], (int_number _ H4) as [d Hd].
    exists [a; b; c; d]. split.
    { unfold read_version.
      cbn [Re.group List.find fst snd Nat.eqb fmap option_fmap option_map
           mbind option_bind].
      change (Py.tail ("." +:+ d3)) with d3.
      change (Py.tail ("." +:+ d4)) with d4.
      rewrite Ha, Hb, Hc, Hd. reflexivity. }
    cbn [Re.group List.find fst snd Nat.eqb fmap option_fmap option_map].
    change (Py.tail ("." +:+ d4)) with d4.
    unfold bind, int_of, int, tail_of, ret.
    change (Py.tail ("." +:+ d3)) with d3.
    rewrite Ha, Hb, Hc, Hd. cbv beta iota.
    destruct (Py.tuple_lt [a; b; c; d] [1; 5]%Z); reflexivity.
Qed.

Lemma git_version_failed_eq (E : Env) (w : WC) :
  _memoize_git_version w = None ->
  let i := git_in w ["--version"] None in
  let r := run E (spawned w) i in
  returncode r <> 0%Z ->
  git_version E w
  = (Raise (SystemExit 1),
     with_logged {| lvl := ERROR; msg := git_error_message i r; margs := [] |}
       (with_logged {| lvl := ERROR; msg := "Could not determine git version";
                       margs := [] |}
          (ran i (stdout r) w))).
Proof.
  intros Hmemo i r Hrc. apply Z.eqb_neq in Hrc.
  unfold git_version, memoize, bind at 1, gets at 1. rewrite Hmemo.
  unfold bind at 1, bind at 1, try_except. rewrite git_run_eq.
  cbv zeta. fold i. fold r. rewrite Hrc. reflexivity.
Qed.

Lemma exits_only_git_version (E : Env) :
  exits_only (version_undetected E) (git_version E).
Proof.
  intros w code.
  destruct (_memoize_git_version w) as [v|] eqn:Hmemo.
  { rewrite (git_version_cached E w v Hmemo). discriminate. }
  destruct (run E (spawned w) (git_in w ["--version"] None))
    as [out err rc] eqn:Hrun.
  destruct (Z.eq_dec rc 0%Z) as [->|Hrc].
  - destruct (Re.search version_re out) as [m|] eqn:Hsearch.
    + destruct (git_version_read E w out err m Hmemo Hrun Hsearch)
        as (v & Hread & Hv).
      rewrite Hv. destruct (Py.tuple_lt v [1; 5]%Z) eqn:Hlt; [|discriminate].
      intros H. inversion H. split; [reflexivity|].
      exists (spawned w). cbv zeta. cbn [snd]. split; [reflexivity|].
      split; [exact Hmemo|]. right. right.
      change (git_in (with_logged _ _) ["--version"] None)
        with (git_in w ["--version"] None).
      rewrite Hrun. split; [reflexivity|].
      exists m, v. repeat split; try assumption.
      eexists. reflexivity.
    + pose proof (git_version_parsed E w out err Hmemo Hrun) as Hp.
      cbv zeta in Hp. rewrite Hsearch in Hp. rewrite Hp.
      intros H. inversion H. split; [reflexivity|].
      exists (spawned w). cbv zeta. cbn [snd]. split; [reflexivity|].
      split; [exact Hmemo|]. right. left.
      change (git_in (with_logged _ _) ["--version"] None)
        with (git_in w ["--version"] None).
      rewrite Hrun. split; [reflexivity|]. split; [exact Hsearch|].
      exists (logged w). cbn. rewrite <- app_assoc. reflexivity.
  - rewrite (git_version_failed_eq E w Hmemo); [|rewrite Hrun; exact Hrc].
    intros H. inversion H. split; [reflexivity|].
    exists (spawned w). cbv zeta. cbn [snd]. split; [reflexivity|].
    split; [exact Hmemo|]. left.
    change (git_in (with_logged _ _) ["--version"] None)
      with (git_in w ["--version"] None).
    rewrite Hrun. split; [exact Hrc|].
    exists (logged w). cbn. rewrite <- app_assoc. reflexivity.
Qed.
#[local] Hint Resolve exits_only_git_version : causes.

Lemma exits_only_int C (s : string) : exits_only C (int s).
Proof. unfold int. causes. Qed.
#[local] Hint Resolve exits_only_int : causes.

Lemma exits_only_remote_branch_prefix (E : Env) :
  exits_only (version_undetected E) (_remote_branch_prefix E).
Proof. unfold _remote_branch_prefix. causes. Qed.

Lemma exits_only_git_current_branch (E : Env) dir :
  exits_only never (git_current_branch E dir).
Proof. unfold git_current_branch. causes. Qed.
#[local] Hint Resolve exits_only_remote_branch_prefix
  exits_only_git_current_branch : causes.

Lemma exits_only_git_branch_status (E : Env) b :
  exits_only (version_undetected E) (git_branch_status E b).
Proof. unfold git_branch_status. causes. Qed.
#[local] Hint Resolve exits_only_git_branch_status : causes.

Lemma exits_only_git_switch_branch (E : Env) a :
  exits_only (version_undetected E) (git_switch_branch E a).
Proof. unfold git_switch_branch, source_get. causes. Qed.

Lemma exits_only_git_set_pushurl (E : Env) : exits_only never (git_set_pushurl E).
Proof. unfold git_set_pushurl. causes. Qed.

Lemma exits_only_sync_submodules (E : Env) name :
  exits_only never (sync_submodules E name).
Proof.
  unfold sync_submodules, git_init_submodules, git_update_submodules. causes.
Qed.

Lemma exits_only_submodules_policy kwargs :
  exits_only never (submodules_policy kwargs).
Proof. unfold submodules_policy, source_get. causes. Qed.

Lemma exits_only_verbose_result kwargs : exits_only never (verbose_result kwargs).
Proof. unfold verbose_result, git_output. causes. Qed.
#[local] Hint Resolve exits_only_git_switch_branch exits_only_git_set_pushurl
  exits_only_sync_submodules exits_only_submodules_policy
  exits_only_verbose_result : causes.

Lemma exits_only_git_checkout (E : Env) kwargs :
  exits_only (version_undetected E) (git_checkout E kwargs).
Proof. unfold git_checkout, source_get, source_has. causes. Qed.

Lemma exits_only_status (E : Env) kwargs : exits_only never (status E kwargs).
Proof. unfold status, git_output. causes. Qed.

Lemma exits_only_matches (E : Env) : exits_only never (matches E).
Proof. unfold matches. causes. Qed.

Lemma exits_only_auto_select_branch (E : Env) :
  exits_only never (auto_select_branch E).
Proof. unfold auto_select_branch, source_get, setitem. causes. Qed.
#[local] Hint Resolve exits_only_git_checkout exits_only_status
  exits_only_matches exits_only_auto_select_branch : causes.

Lemma exits_only_after_branch_status {B} C (E : Env) (b : string)
    (k : bool * bool -> M B) :
  exits_only C (git_branch_status E b) ->
  (forall st w, is_Some (_memoize_git_version w) -> ends_only C (k st w)) ->
  exits_only C (bind (git_branch_status E b) k).
Proof.
  intros Hb Hk w. apply ends_only_bind; [apply Hb|].
  intros st w' Hret. apply Hk. eapply git_branch_status_memo, Hret.
Qed.

Lemma create_branch_never_exits C (E : Env) (w : WC) (go : bool)
    (current name path : string) (preferred : list string) :
  is_Some (_memoize_git_version w) ->
  ends_only C
    (when go
       (try_except
          (prefix <- _remote_branch_prefix E ;;
           p0 <- index preferred 0 ;;
           git_run E ["branch"; current; prefix +:+ "/" +:+ p0] (Some path) ;;
           logger INFO ("Created branch '" +:+ current +:+ "' for '" +:+
                        name +:+ "'.") [])
          any_exn
          (fun e =>
             logger ERROR ("Could not create branch '" +:+ current +:+
                           "' for '" +:+ name +:+ "'.") [] ;;
             raise e)) w).
Proof.
  intros [v Hv] c. destruct go; [|discriminate].
  unfold when, try_except, bind at 1, _remote_branch_prefix, bind at 1.
  rewrite (git_version_cached E w v Hv).
  assert (Hp : exists p, (if Py.tuple_lt v [1; 6; 3]%Z then ret _upstream_name
                          else ret ("remotes/" +:+ _upstream_name)) w
                         = (Ret p, w)).
  { destruct (Py.tuple_lt v _); eexists; reflexivity. }
  destruct Hp as [p Hp]. rewrite Hp.
  unfold bind at 1, index.
  destruct (preferred !! 0%nat) as [p0|]; [|discriminate].
  unfold ret at 1, bind at 1. rewrite git_run_eq. cbv zeta.
  destruct (returncode _ =? 0)%Z; discriminate.
Qed.

Lemma exits_only_new_feature (E : Env) kwargs :
  exits_only (version_undetected E) (new_feature E kwargs).
Proof.
  unfold new_feature.
  repeat first [ apply exits_only_after_branch_status;
                   [apply exits_only_git_branch_status|]
               | causes_step ].
  intros st w Hmemo. cbv zeta.
  apply ends_only_bind; [apply create_branch_never_exits, Hmemo|].
  intros _ w' _. revert w'.
  match goal with |- forall w', ends_only ?C (?m w') => change (exits_only C m) end.
  causes.
Qed.

(** the constructor *)
Lemma exits_only_conflict :
  exits_only descriptor_conflict
    (branch <- getitem "branch" ;;
     rev <- getitem "rev" ;;
     name <- getitem "name" ;;
     logger ERROR
       "Cannot specify both branch (%s) and rev/revision (%s) in source for %s"
       [branch; rev; name] ;;
     @sys_exit unit 1).
Proof.
  intros w c. unfold bind, getitem.
  destruct (entries (source w) !! "branch") as [b|] eqn:Hb; [|discriminate].
  destruct (entries (source w) !! "rev") as [r|] eqn:Hr; [|discriminate].
  destruct (entries (source w) !! "name") as [n|] eqn:Hn; [|discriminate].
  intros H. inversion H. split; [reflexivity|].
  exists b, r, n. cbn. repeat split; try assumption.
  eexists. reflexivity.
Qed.
#[local] Hint Resolve exits_only_conflict : causes.

Lemma exits_only_init (E : Env) : exits_only descriptor_conflict (__init__ E).
Proof.
  unfold __init__, source_has, setitem, BaseWorkingCopy__init__. causes.
Qed.

(** the merge *)
Lemma git_branch_status_inv (E : Env) (b : string) (w w1 : WC)
    (st : bool * bool) :
  git_branch_status E b w = (Ret st, w1) ->
  exists path asked v,
    let i := git_in w ["branch"; "-a"] (Some path) in
    let r := run E (spawned w) i in
    entries (source w) !! "path" = Some path /\
    spawned w1 = spawned w ++ i :: asked /\
    Forall (fun j => subcommand j ∈ ["--version"]) asked /\
    (_memoize_git_version w <> None -> asked = []) /\
    source w1 = source w /\
    git_executable w1 = git_executable w /\
    _memoize_git_version w1 = Some v /\
    returncode r = 0%Z /\
    (fst st = true <->
     whole_line ("* " +:+ b) (stdout r) \/ whole_line ("  " +:+ b) (stdout r)) /\
    (snd st = true <->
     whole_line ("  " +:+ prefix_of v +:+ "/" +:+ b) (stdout r)).
Proof.
  unfold git_branch_status, bind at 1, getitem.
  destruct (entries (source w) !! "path") as [path|] eqn:Hpath; [|discriminate].
  unfold bind at 1. rewrite git_run_eq. cbv zeta.
  destruct (returncode _ =? 0)%Z eqn:Hrc; [|discriminate].
  apply Z.eqb_eq in Hrc.
  unfold bind at 1, _remote_branch_prefix, bind at 1.
  match goal with
  | |- context [git_version E ?w0] =>
      destruct (git_version E w0) as [[v|e] w2] eqn:Hv
  end; [|discriminate].
  intros H.
  assert (Hst : st = (bool_decide (is_Some (Re.search (local_branch_re b)
                        (stdout (run E (spawned w)
                                   (git_in w ["branch"; "-a"] (Some path)))))),
                      bool_decide (is_Some (Re.search
                        (remote_branch_re (prefix_of v) b)
                        (stdout (run E (spawned w)
                                   (git_in w ["branch"; "-a"] (Some path)))))))
                /\ w1 = w2).
  { unfold prefix_of. destruct (Py.tuple_lt v _); inversion H; subst;
      split; reflexivity. }
  destruct Hst as [-> ->]. clear H.
  pose proof (git_version_memo E _ _ _ Hv) as Hmemo.
  pose proof (framed_runs E _ _ _ _ _ _ _ (effect_git_version_exact E) Hv)
    as (Hexe & asked & Hasked & Hall).
  pose proof (ret_source E _ _ _ _ _ _ (effect_git_version_exact E) Hv) as Hsrc.
  exists path, asked, v. cbv zeta. cbn [fst snd].
  split; [reflexivity|].
  split; [rewrite Hasked; cbn; rewrite <- app_assoc; reflexivity|].
  split; [exact Hall|].
  split.
  { intros Hcached. destruct (_memoize_git_version w) as [v0|] eqn:Hw;
      [|congruence].
    rewrite (git_version_cached E _ v0) in Hv by exact Hw.
    inversion Hv; subst w2. cbn in Hasked.
    apply (f_equal length) in Hasked. rewrite !length_app in Hasked.
    destruct asked; [reflexivity | cbn [length] in Hasked; lia]. }
  split; [exact Hsrc|]. split; [exact Hexe|].
  split; [exact Hmemo|]. split; [exact Hrc|].
  split; rewrite bool_decide_eq_true;
    [apply local_branch_lines | apply remote_branch_lines].
Qed.

Lemma merge_refused_intro (E : Env) (w w1 : WC) (st : bool * bool) :
  git_branch_status E (wanted_branch w) w = (Ret st, w1) ->
  negb (fst st) || negb (snd st) = true ->
  merge_refused E (with_logged (no_such_branch_line (wanted_branch w)) w1).
Proof.
  intros Hst Hmiss.
  destruct (git_branch_status_inv E _ _ _ _ Hst)
    as (path & asked & v & Hpath & Hsp & Hall & _ & Hsrc & Hexe & Hmemo & Hrc
        & Hlocal & Hremote).
  cbv zeta in *.
  assert (Hb : wanted_branch (with_logged (no_such_branch_line (wanted_branch w)) w1)
               = wanted_branch w).
  { unfold wanted_branch. cbn. rewrite Hsrc. reflexivity. }
  exists (spawned w), asked, path, v. cbv zeta. rewrite Hb.
  assert (Hi : git_in (with_logged (no_such_branch_line (wanted_branch w)) w1)
                 ["branch"; "-a"] (Some path)
               = git_in w ["branch"; "-a"] (Some path)).
  { unfold git_in. cbn. rewrite Hexe. reflexivity. }
  rewrite Hi. cbn [spawned source _memoize_git_version logged with_logged].
  split; [exact Hsp|]. split; [exact Hall|].
  split; [rewrite Hsrc; exact Hpath|]. split; [exact Hmemo|].
  split; [exact Hrc|]. split.
  - intros [Hl Hr]. apply Hlocal in Hl. apply Hremote in Hr.
    rewrite Hl, Hr in Hmiss. discriminate Hmiss.
  - eexists. reflexivity.
Qed.

Lemma exits_only_git_merge_rbranch (E : Env) (a : bool) :
  exits_only (fun w' => version_undetected E w' \/
                        (a = false /\ merge_refused E w'))
    (git_merge_rbranch E a).
Proof.
  intros w. unfold git_merge_rbranch.
  unfold bind at 1, bind at 1, source_get, gets, ret at 1.
  fold (wanted_branch w).
  apply ends_only_bind.
  { eapply ends_only_weaken; [|apply exits_only_git_branch_status]. auto. }
  intros st w1 Hst. cbv zeta.
  destruct (negb (fst st) || negb (snd st)) eqn:Hmiss.
  - destruct a.
    + intros c H. discriminate H.
    + intros c H. inversion H. split; [reflexivity|]. right.
      split; [reflexivity|]. cbn [snd].
      apply (merge_refused_intro E w w1 st Hst Hmiss).
  - revert w1 Hst.
    intros w1 _. revert w1.
    match goal with |- forall w', ends_only ?C (?m w') => change (exits_only C m) end.
    eapply exits_only_weaken; [intros w' H; left; exact H|]. causes.
Qed.

(** the update *)
Lemma git_switch_branch_ret (E : Env) (w w1 : WC) :
  git_switch_branch E false w = (Ret tt, w1) ->
  source w1 = source w /\
  git_executable w1 = git_executable w /\
  _memoize_git_version w1 <> None /\
  exists pre i0, spawned w1 = pre ++ [i0] /\ subcommand i0 = "checkout".
Proof.
  intros Hsw. rewrite git_switch_branch_eq in Hsw.
  apply bind_ret_inv in Hsw. destruct Hsw as (path & w0 & H0 & Hsw).
  apply getitem_inv in H0. destruct H0 as [-> Hpath].
  apply bind_ret_inv in Hsw. destruct Hsw as (b & w0 & H0 & Hsw).
  inversion H0; subst w0; clear H0.
  apply bind_ret_inv in Hsw. destruct Hsw as (st & w2 & Hst & Hsw).
  destruct (git_branch_status_frame E _ _ _ _ Hst) as (Hsrc & Hexe & v & Hv).
  apply bind_ret_inv in Hsw. destruct Hsw as (rev & w0 & H0 & Hsw).
  inversion H0; subst w0; clear H0.
  assert (Hlast : forall args u w3 w4,
            git_executable w3 = git_executable w -> source w3 = source w ->
            _memoize_git_version w3 = Some v ->
            (git_run E ("checkout" :: args) (Some path) ;; ret tt) w3 = (Ret u, w4) ->
            source w4 = source w /\ git_executable w4 = git_executable w /\
            _memoize_git_version w4 <> None /\
            exists pre i0, spawned w4 = pre ++ [i0] /\ subcommand i0 = "checkout").
  { intros args u w3 w4 He Hs Hm H.
    apply bind_ret_inv in H. destruct H as (out & w5 & H5 & H).
    apply git_run_ret_inv in H5. destruct H5 as [-> _].
    inversion H; subst w4. cbn. rewrite Hm.
    split; [exact Hs|]. split; [exact He|]. split; [discriminate|].
    eexists _, _. split; reflexivity. }
  destruct rev as [rv|].
  - apply bind_ret_inv in Hsw. destruct Hsw as (u & w0 & H0 & Hsw).
    inversion H0; subst w0; clear H0.
    eapply Hlast; [| | |exact Hsw]; cbn; congruence.
  - destruct (fst st).
    + apply bind_ret_inv in Hsw. destruct Hsw as (u & w0 & H0 & Hsw).
      inversion H0; subst w0; clear H0.
      eapply Hlast; [| | |exact Hsw]; cbn; congruence.
    + destruct (snd st); [|discriminate Hsw].
      apply bind_ret_inv in Hsw. destruct Hsw as (prefix & w0 & H0 & Hsw).
      unfold _remote_branch_prefix, bind in H0.
      rewrite (git_version_cached E w2 v Hv) in H0.
      assert (w0 = w2) by (destruct (Py.tuple_lt v _); inversion H0; reflexivity).
      subst w0. clear H0.
      apply bind_ret_inv in Hsw. destruct Hsw as (u & w0 & H0 & Hsw).
      inversion H0; subst w0; clear H0.
      eapply Hlast; [| | |exact Hsw]; cbn; congruence.
Qed.

Lemma switch_then_merge (E : Env) (w : WC) :
  is_Some (entries (source w) !! "branch") ->
  entries (source w) !! "rev" = None ->
  ends_only (fun w' => version_undetected E w' \/ update_refused E w')
    ((git_switch_branch E false ;; git_merge_rbranch E false) w).
Proof.
  intros Hbranch Hrev. apply ends_only_bind.
  { eapply ends_only_weaken; [|apply exits_only_git_switch_branch]. auto. }
  intros [] w1 Hsw.
  destruct (git_switch_branch_ret E w w1 Hsw)
    as (Hsrc & Hexe & Hmemo & pre & i0 & Hsp & Hi0).
  unfold git_merge_rbranch.
  unfold bind at 1, bind at 1, source_get, gets, ret at 1.
  fold (wanted_branch w1).
  apply ends_only_bind.
  { eapply ends_only_weaken; [|apply exits_only_git_branch_status]. auto. }
  intros st w2 Hst. cbv zeta.
  destruct (negb (fst st) || negb (snd st)) eqn:Hmiss.
  - intros c H. inversion H. split; [reflexivity|]. right. cbn [snd].
    split; [apply (merge_refused_intro E w1 w2 st Hst Hmiss)|].
    destruct (git_branch_status_inv E _ _ _ _ Hst)
      as (path & asked & v & _ & Hsp2 & _ & Hasked & Hsrc2 & _).
    cbv zeta in *. rewrite (Hasked Hmemo) in Hsp2.
    unfold bind, logger, modify, sys_exit, raise.
    cbn [snd source spawned with_logged]. rewrite Hsrc2, Hsrc.
    split; [exact Hbranch|]. split; [exact Hrev|].
    exists pre, i0, (git_in w1 ["branch"; "-a"] (Some path)).
    split; [|exact Hi0]. rewrite Hsp2, Hsp, <- app_assoc. reflexivity.
  - revert w2 Hst. intros w2 _. revert w2.
    match goal with |- forall w', ends_only ?C (?m w') => change (exits_only C m) end.
    eapply exits_only_weaken; [intros w' H; left; exact H|]. causes.
Qed.

Lemma exits_only_git_update (E : Env) kwargs :
  exits_only (fun w' => version_undetected E w' \/ update_refused E w')
    (git_update E kwargs).
Proof.
  unfold git_update.
  apply exits_only_bind; [causes | intros name].
  apply exits_only_bind; [causes | intros path].
  apply exits_only_bind; [causes | intros _].
  apply exits_only_bind; [causes | intros _].
  intros w. unfold bind at 1, source_has at 1, gets at 1.
  unfold bind at 1, source_has at 1, gets at 1.
  apply ends_only_bind.
  - destruct (entries (source w) !! "rev") as [rv|] eqn:Hrev.
    + rewrite (has_Some (Some rv) rv eq_refl).
      eapply ends_only_weaken; [|apply exits_only_git_switch_branch]. auto.
    + rewrite (has_None None eq_refl).
      destruct (entries (source w) !! "branch") as [b|] eqn:Hb.
      * rewrite (has_Some (Some b) b eq_refl).
        apply switch_then_merge; [eauto | exact Hrev].
      * rewrite (has_None None eq_refl). apply ends_only_bind.
        { eapply ends_only_weaken; [|apply exits_only_git_switch_branch]. auto. }
        intros _ w1 _.
        eapply ends_only_weaken; [|apply exits_only_git_merge_rbranch].
        intros w' [H|[H _]]; [left; exact H | discriminate H].
  - intros _ w1 _. revert w1.
    match goal with |- forall w', ends_only ?C (?m w') => change (exits_only C m) end.
    causes.
Qed.
#[local] Hint Resolve exits_only_git_update : causes.

Lemma exits_only_update (E : Env) kwargs :
  exits_only (fun w' => version_undetected E w' \/ update_refused E w')
    (update E kwargs).
Proof. unfold update. causes. Qed.
#[local] Hint Resolve exits_only_update : causes.

Lemma exits_only_fresh_checkout (E : Env) kwargs :
  exits_only (fun w' => version_undetected E w' \/ update_refused E w')
    (git_checkout E kwargs).
Proof.
  eapply exits_only_weaken; [|apply exits_only_git_checkout].
  intros w' H. left. exact H.
Qed.
#[local] Hint Resolve exits_only_fresh_checkout : causes.

Lemma exits_only_checkout (E : Env) kwargs :
  exits_only (fun w' => version_undetected E w' \/ update_refused E w')
    (checkout E kwargs).
Proof. unfold checkout. causes. Qed.

Lemma exits_only_git_init_submodules (E : Env) :
  exits_only never (git_init_submodules E).
Proof.
  unfold git_init_submodules.
  apply exits_only_bind; [apply exits_only_getitem | intros path].
  apply exits_only_bind; [apply exits_only_git_run | intros out].
  apply exits_only_ret.
Qed.

Lemma exits_only_git_update_submodules (s : string) :
  exits_only never (git_update_submodules s).
Proof.
  unfold git_update_submodules. cbv zeta.
  apply exits_only_raise. intros c. discriminate.
Qed.

(** the three failures do end the process *)
Lemma version_failure_exits (E : Env) (w : WC) :
  _memoize_git_version w = None ->
  let r := run E (spawned w) (git_in w ["--version"] None) in
  returncode r <> 0%Z \/
  (returncode r = 0%Z /\ Re.search version_re (stdout r) = None) \/
  (returncode r = 0%Z /\
   exists m v, Re.search version_re (stdout r) = Some m /\
               read_version m = Some v /\ Py.tuple_lt v [1; 5]%Z = true) ->
  fst (git_version E w) = Raise (SystemExit 1).
Proof.
  intros Hmemo r Hcase.
  destruct Hcase as [Hrc|[[Hrc Hnone]|(Hrc & m & v & Hm & Hv & Hlt)]].
  - rewrite (git_version_failed_eq E w Hmemo Hrc). reflexivity.
  - destruct r as [out err rc] eqn:Hrun. cbn [stdout returncode] in Hrc, Hnone. subst rc.
    pose proof (git_version_parsed E w out err Hmemo Hrun) as Hp.
    cbv zeta in Hp. rewrite Hnone in Hp. rewrite Hp. reflexivity.
  - destruct r as [out err rc] eqn:Hrun. cbn [stdout returncode] in Hrc, Hm. subst rc.
    destruct (git_version_read E w out err m Hmemo Hrun Hm) as (v' & Hv' & Heq).
    assert (v' = v) by congruence. subst v'.
    rewrite Heq, Hlt. reflexivity.
Qed.

Lemma conflict_exits (E : Env) (w : WC) (b n : string) :
  entries (source w) !! "branch" = Some b ->
  entries (source w) !! "name" = Some n ->
  (is_Some (entries (source w) !! "rev") /\
   entries (source w) !! "revision" = None) \/
  (is_Some (entries (source w) !! "revision") /\
   entries (source w) !! "rev" = None) ->
  fst (__init__ E w) = Raise (SystemExit 1).
Proof.
  intros Hb Hn [[[r Hr] Hrevision]|[[v Hv] Hrev]].
  - rewrite (init_conflict E w r b n Hr Hrevision Hb Hn). reflexivity.
  - destruct (init_alias E w v Hv Hrev) as [_ H].
    rewrite (H b n Hb Hn). reflexivity.
Qed.

Lemma git_branch_status_cached (E : Env) (b path : string) (v : list Z) (w : WC) :
  entries (source w) !! "path" = Some path ->
  _memoize_git_version w = Some v ->
  let i := git_in w ["branch"; "-a"] (Some path) in
  let r := run E (spawned w) i in
  returncode r = 0%Z ->
  exists st,
    git_branch_status E b w = (Ret st, ran i (stdout r) w) /\
    (fst st && snd st = true <-> on_both_sides v b (stdout r)).
Proof.
  intros Hpath Hmemo i r Hrc.
  unfold git_branch_status, bind at 1, getitem. rewrite Hpath.
  unfold bind at 1. rewrite git_run_eq. cbv zeta. fold i. fold r. rewrite Hrc.
  cbn [Z.eqb]. unfold bind, _remote_branch_prefix, bind.
  rewrite (git_version_cached E _ v) by exact Hmemo.
  exists (bool_decide (is_Some (Re.search (local_branch_re b) (stdout r))),
          bool_decide (is_Some (Re.search (remote_branch_re (prefix_of v) b)
                                  (stdout r)))).
  split.
  - unfold prefix_of. destruct (Py.tuple_lt v _); reflexivity.
  - cbn [fst snd]. rewrite andb_true_iff, !bool_decide_eq_true.
    unfold on_both_sides.
    rewrite local_branch_lines, remote_branch_lines. reflexivity.
Qed.

Lemma refused_merge_exits (E : Env) (w : WC) (path : string) (v : list Z) :
  entries (source w) !! "path" = Some path ->
  _memoize_git_version w = Some v ->
  let r := run E (spawned w) (git_in w ["branch"; "-a"] (Some path)) in
  returncode r = 0%Z ->
  ~ on_both_sides v (wanted_branch w) (stdout r) ->
  fst (git_merge_rbranch E false w) = Raise (SystemExit 1).
Proof.
  intros Hpath Hmemo r Hrc Hmiss.
  destruct (git_branch_status_cached E (wanted_branch w) path v w Hpath Hmemo Hrc)
    as (st & Hst & Hboth).
  unfold git_merge_rbranch.
  unfold bind at 1, bind at 1, source_get, gets, ret at 1.
  fold (wanted_branch w). unfold bind at 1. rewrite Hst. cbv zeta.
  destruct (fst st && snd st) eqn:Hb.
  - destruct Hmiss. apply Hboth. reflexivity.
  - assert (Hn : negb (fst st) || negb (snd st) = true)
      by (destruct (fst st), (snd st); try discriminate Hb; reflexivity).
    rewrite Hn. reflexivity.
Qed.



